(** * tsh: a tiny shell with job control

    A shallow embedding of [tsh-lab/tshlab-handout/tsh.c]: the job table
    ([addjob], [deletejob], [pid2jid], ...), the command-line parser
    ([parseline]), the dispatcher ([eval]) and the three signal handlers,
    followed by the properties of the job-control core.

    Conventions of the embedding.
    - C [int] and [pid_t] values are integers of [Z].  Job ids only grow by
      one per insertion, so the 32-bit limit is out of reach of any run that
      could be written down; it is not modelled.
    - The array [job_list[MAXJOBS]] is a list of slots, visited in slot
      order as the [for (i = 0; i < MAXJOBS; i++)] loops do.  [initjobs]
      fixes its length to [MAXJOBS] and no operation changes it.
    - The globals of the program, together with the per-process data the
      code reads back ([errno], the signal mask), form the record [shell].
      Two fields are history only: [out] collects the texts handed to
      [printf], [fprintf] and [write], with their descriptor, in the order
      of the calls (the buffering of stdio is not modelled); [trace]
      collects the system calls issued and the registrations in the job
      table, each stamped with the signal mask in force at that moment.
    - Calls whose result the code ignores ([setpgid], [dup2], [sigprocmask],
      [sigaction], the [Kill] of a job) are taken to succeed; the [kill] of
      [quit] ends the shell when the shell leads its process group.
    - What the operating system answers (the result of [fork], [waitpid],
      [execve], [open], [getpid]) is an argument of the embedded function.
    - [exit], a successful [execve] and a fatal signal end the process:
      computations live in the monad [M], whose results are either [Ret]
      (control goes on) or [Halt]. *)

From Stdlib Require Import ZArith List String Ascii Bool Lia DecimalString.
From Stdlib Require Import Permutation.
Import ListNotations.

Local Open Scope string_scope.
Local Open Scope Z_scope.

(** ** Manifest constants *)

Definition MAXLINE : Z := 1024.
Definition MAXARGS : Z := 128.
Definition MAXJOBS : Z := 16.

Definition UNDEF : Z := 0.
Definition FG : Z := 1.
Definition BG : Z := 2.
Definition ST : Z := 3.

Definition ST_NORMAL : Z := 0.
Definition ST_INFILE : Z := 1.
Definition ST_OUTFILE : Z := 2.

(** Values of <signal.h>, <errno.h>, <unistd.h>, <sys/wait.h> and <fcntl.h>
    on Linux/x86-64, the platform of the lab. *)
Definition SIGINT : Z := 2.
Definition SIGQUIT : Z := 3.
Definition SIGKILL : Z := 9.
Definition SIGCHLD : Z := 17.
Definition SIGCONT : Z := 18.
Definition SIGTSTP : Z := 20.
Definition SIG_BLOCK : Z := 0.
Definition SIG_UNBLOCK : Z := 1.
Definition ECHILD : Z := 10.
Definition EBADF : Z := 9.
Definition ENOENT : Z := 2.
Definition STDIN_FILENO : Z := 0.
Definition STDOUT_FILENO : Z := 1.
Definition STDERR_FILENO : Z := 2.
Definition WNOHANG : Z := 1.
Definition WUNTRACED : Z := 2.
Definition O_RDONLY : Z := 0.
Definition O_WRONLY : Z := 1.

(** ** Data *)

Record job_t := mkjob {
  pid : Z;          (* job PID *)
  jid : Z;          (* job ID [1, 2, ...] *)
  state : Z;        (* UNDEF, BG, FG, or ST *)
  cmdline : string  (* command line *)
}.

(** A [sigset_t] is the list of the signals it holds. *)
Definition sigset := list Z.

Definition sigemptyset : sigset := [].
Definition sigaddset (set : sigset) (signum : Z) : sigset := signum :: set.
Definition sigismember (set : sigset) (signum : Z) : bool :=
  existsb (Z.eqb signum) set.

(** The status word filled in by [waitpid], read through [WIFSTOPPED],
    [WIFSIGNALED] and [WTERMSIG]. *)
Inductive wstatus :=
| W_EXITED (code : Z)
| W_SIGNALED (sig : Z)
| W_STOPPED (sig : Z).

Definition WIFSTOPPED (w : wstatus) : bool :=
  match w with W_STOPPED _ => true | _ => false end.
Definition WIFSIGNALED (w : wstatus) : bool :=
  match w with W_SIGNALED _ => true | _ => false end.
Definition WTERMSIG (w : wstatus) : Z :=
  match w with W_SIGNALED s => s | _ => 0 end.

(** One answer of [waitpid]: the value returned, the status stored (left
    as it was when nothing is reported) and the [errno] of a failure. *)
Record wait_ret := mkwait {
  w_ret : Z;
  w_status : wstatus;
  w_errno : Z
}.

(** System calls and job-table registrations, as they appear in [trace]. *)
Inductive event :=
| Sys_getpid (r : Z)
| Sys_sigprocmask (how : Z) (set : sigset)
| Sys_fork (r : Z)
| Sys_setpgid (p pgid : Z)
| Sys_signal_dfl (signum : Z)
| Sys_open (path : string) (flags : Z) (r : Z)
| Sys_dup2 (oldfd newfd : Z)
| Sys_close (fd : Z)
| Sys_execve (program : string) (argv : list string)
| Sys_waitpid (p : Z) (options : Z) (r : wait_ret)
| Sys_kill (p : Z) (sig : Z)
| Tbl_addjob (p : Z).

Record shell := mkshell {
  job_list : list job_t;      (* The job list *)
  nextjid : Z;                (* next job ID to allocate *)
  verbose : Z;                (* if true, print additional output *)
  fg_pid : Z;                 (* pid of current foreground group *)
  tsh_pid : Z;                (* for storing shell pid *)
  errno : Z;
  sigmask : sigset;           (* signals blocked in this process *)
  out : list (Z * string);    (* (descriptor, text) in write order *)
  trace : list (event * sigset)
}.

Definition set_job_list (jl : list job_t) (s : shell) : shell :=
  mkshell jl (nextjid s) (verbose s) (fg_pid s) (tsh_pid s) (errno s)
          (sigmask s) (out s) (trace s).
Definition set_nextjid (n : Z) (s : shell) : shell :=
  mkshell (job_list s) n (verbose s) (fg_pid s) (tsh_pid s) (errno s)
          (sigmask s) (out s) (trace s).
Definition set_fg_pid (p : Z) (s : shell) : shell :=
  mkshell (job_list s) (nextjid s) (verbose s) p (tsh_pid s) (errno s)
          (sigmask s) (out s) (trace s).
Definition set_tsh_pid (p : Z) (s : shell) : shell :=
  mkshell (job_list s) (nextjid s) (verbose s) (fg_pid s) p (errno s)
          (sigmask s) (out s) (trace s).
Definition set_errno (e : Z) (s : shell) : shell :=
  mkshell (job_list s) (nextjid s) (verbose s) (fg_pid s) (tsh_pid s) e
          (sigmask s) (out s) (trace s).
Definition set_sigmask (m : sigset) (s : shell) : shell :=
  mkshell (job_list s) (nextjid s) (verbose s) (fg_pid s) (tsh_pid s) (errno s)
          m (out s) (trace s).
Definition add_out (fd : Z) (text : string) (s : shell) : shell :=
  mkshell (job_list s) (nextjid s) (verbose s) (fg_pid s) (tsh_pid s) (errno s)
          (sigmask s) (out s ++ [(fd, text)])%list (trace s).
Definition add_trace (e : event) (s : shell) : shell :=
  mkshell (job_list s) (nextjid s) (verbose s) (fg_pid s) (tsh_pid s) (errno s)
          (sigmask s) (out s) (trace s ++ [(e, sigmask s)])%list.

(** ** The monad of shell code *)

Inductive halt :=
| Exit (status : Z)                           (* exit(status) *)
| Exec (program : string) (argv : list string) (* execve succeeded *)
| Killed (sig : Z)                            (* ended by a signal *)
| Fault.                                      (* NULL dereference *)

Inductive result (A : Type) :=
| Ret (a : A) (s : shell)
| Halt (h : halt) (s : shell).
Arguments Ret {A} a s.
Arguments Halt {A} h s.

Definition M (A : Type) := shell -> result A.

Definition ret {A} (a : A) : M A := fun s => Ret a s.
Definition bind {A B} (m : M A) (k : A -> M B) : M B :=
  fun s => match m s with
           | Ret a s' => k a s'
           | Halt h s' => Halt h s'
           end.
Definition exit {A} (status : Z) : M A := fun s => Halt (Exit status) s.
Definition gets {A} (f : shell -> A) : M A := fun s => Ret (f s) s.
Definition modify (f : shell -> shell) : M unit := fun s => Ret tt (f s).

Declare Scope tsh_scope.
Delimit Scope tsh_scope with tsh.
Notation "x <- m ;; k" := (bind m (fun x => k))
  (at level 61, m at next level, right associativity) : tsh_scope.
Notation "m ;; k" := (bind m (fun _ => k))
  (at level 61, right associativity) : tsh_scope.
Local Open Scope tsh_scope.

Definition final_state {A} (r : result A) : shell :=
  match r with Ret _ s => s | Halt _ s => s end.

(** ** Output *)

(** [%d] of printf. *)
Definition dec (z : Z) : string := NilZero.string_of_int (Z.to_int z).

Definition nl : string := String (ascii_of_nat 10) EmptyString.

(** [write(fd, buf, strlen(buf))]: fails on a descriptor that is not open
    (the -1 of a failed [open]), succeeds otherwise. *)
Definition write (fd : Z) (buf : string) : M Z :=
  if fd <? 0 then modify (set_errno EBADF) ;; ret (-1)
  else modify (add_out fd buf) ;; ret (Z.of_nat (String.length buf)).

Definition printf (text : string) : M unit :=
  modify (add_out STDOUT_FILENO text).
Definition eprintf (text : string) : M unit :=
  modify (add_out STDERR_FILENO text).

Definition syscall (e : event) : M unit := modify (add_trace e).

Definition close_unless_stdout (output_fd : Z) : M unit :=
  if negb (output_fd =? STDOUT_FILENO) then syscall (Sys_close output_fd)
  else ret tt.

(** Text of [strerror] in glibc for the values that occur. *)
Definition strerror (e : Z) : string :=
  if e =? 0 then "Success"
  else if e =? ENOENT then "No such file or directory"
  else if e =? EBADF then "Bad file descriptor"
  else if e =? ECHILD then "No child processes"
  else "Unknown error " ++ dec e.

(** unix_error - unix-style error routine *)
Definition unix_error {A} (msg : string) : M A :=
  e <- gets errno ;;
  printf (msg ++ ": " ++ strerror e ++ nl) ;;
  exit 1.

(** ** Helper routines that manipulate the job list *)

(** clearjob - Clear the entries in a job struct *)
Definition clearjob (job : job_t) : job_t := mkjob 0 0 UNDEF "".

(** initjobs - Initialize the job list *)
Definition initjobs : list job_t :=
  repeat (mkjob 0 0 UNDEF "") (Z.to_nat MAXJOBS).

(** maxjid - Returns largest allocated job ID *)
Definition maxjid (jl : list job_t) : Z :=
  fold_left (fun max j => if jid j >? max then jid j else max) jl 0.

(** The scan of [addjob]: the first slot whose pid is 0 receives the job. *)
Fixpoint addjob_scan (jl : list job_t) (p st : Z) (c : string) (n : Z)
  : option (list job_t) :=
  match jl with
  | [] => None
  | j :: jl' =>
      if pid j =? 0 then Some (mkjob p n st c :: jl')
      else option_map (cons j) (addjob_scan jl' p st c n)
  end.

(** addjob - Add a job to the job list *)
Definition addjob (p st : Z) (c : string) : M Z :=
  if p <? 1 then ret 0
  else
    jl <- gets job_list ;;
    n <- gets nextjid ;;
    match addjob_scan jl p st c n with
    | Some jl' =>
        modify (set_job_list jl') ;;
        modify (set_nextjid (n + 1)) ;;
        (if n + 1 >? MAXJOBS then modify (set_nextjid 1) else ret tt) ;;
        v <- gets verbose ;;
        (if negb (v =? 0)
         then printf ("Added job [" ++ dec n ++ "] " ++ dec p ++ " " ++ c ++ nl)
         else ret tt) ;;
        ret 1
    | None =>
        printf ("Tried to create too many jobs" ++ nl) ;;
        ret 0
    end.

(** The scan of [deletejob]: the first slot holding [p] is cleared. *)
Fixpoint deletejob_scan (jl : list job_t) (p : Z) : option (list job_t) :=
  match jl with
  | [] => None
  | j :: jl' =>
      if pid j =? p then Some (clearjob j :: jl')
      else option_map (cons j) (deletejob_scan jl' p)
  end.

(** deletejob - Delete a job whose PID=pid from the job list *)
Definition deletejob (p : Z) : M Z :=
  if p <? 1 then ret 0
  else
    jl <- gets job_list ;;
    match deletejob_scan jl p with
    | Some jl' =>
        modify (set_job_list jl') ;;
        modify (set_nextjid (maxjid jl' + 1)) ;;
        ret 1
    | None => ret 0
    end.

(** fgpid - Return PID of current foreground job, 0 if no such job *)
Fixpoint fgpid (jl : list job_t) : Z :=
  match jl with
  | [] => 0
  | j :: jl' => if state j =? FG then pid j else fgpid jl'
  end.

(** getjobpid  - Find a job (by PID) on the job list *)
Definition getjobpid (jl : list job_t) (p : Z) : option job_t :=
  if p <? 1 then None else find (fun j => pid j =? p) jl.

(** getjobjid  - Find a job (by JID) on the job list *)
Definition getjobjid (jl : list job_t) (i : Z) : option job_t :=
  if i <? 1 then None else find (fun j => jid j =? i) jl.

(** pid2jid - Map process ID to job ID *)
Definition pid2jid (jl : list job_t) (p : Z) : Z :=
  if p <? 1 then 0
  else match find (fun j => pid j =? p) jl with
       | Some j => jid j
       | None => 0
       end.

(** jid2pid - pid of a job given its jid, 0 if job not found *)
Definition jid2pid (jl : list job_t) (i : Z) : Z :=
  match find (fun j => jid j =? i) jl with
  | Some j => pid j
  | None => 0
  end.

(** The loop shared by [change_job_state] and [change_job_state_jid]: the
    first slot with the given job id takes the new state. *)
Fixpoint set_state_scan (jl : list job_t) (job_id new_state : Z) : list job_t :=
  match jl with
  | [] => []
  | j :: jl' =>
      if jid j =? job_id then mkjob (pid j) (jid j) new_state (cmdline j) :: jl'
      else j :: set_state_scan jl' job_id new_state
  end.

Definition job_not_present : string := "Job not present in job list" ++ nl.
Definition write_error : string := "Error writing to output file" ++ nl.

(** The [if (write(...) < 0) { fprintf(stderr, ...); exit(1); }] idiom. *)
Definition checked_write (fd : Z) (buf : string) : M unit :=
  r <- write fd buf ;;
  if r <? 0 then eprintf write_error ;; exit 1 else ret tt.

(** change_job_state - Changes job with id = pid to new_state in job_list *)
Definition change_job_state (p new_state : Z) : M unit :=
  jl <- gets job_list ;;
  let job_id := pid2jid jl p in
  if job_id =? 0 then eprintf job_not_present ;; exit 1
  else modify (set_job_list (set_state_scan jl job_id new_state)).

(** change_job_state_jid - Changes job with job id = jid to new_state *)
Definition change_job_state_jid (i new_state : Z) : M unit :=
  jl <- gets job_list ;;
  let job_id := i in
  if job_id =? 0 then eprintf job_not_present ;; exit 1
  else modify (set_job_list (set_state_scan jl job_id new_state)).

(** listjobs - Print the job list *)
Definition state_label (i : Z) (j : job_t) : string :=
  if state j =? BG then "Running    "
  else if state j =? FG then "Foreground "
  else if state j =? ST then "Stopped    "
  else "listjobs: Internal error: job[" ++ dec i ++ "].state="
       ++ dec (state j) ++ " ".

Fixpoint listjobs_scan (jl : list job_t) (i : Z) (output_fd : Z) : M unit :=
  match jl with
  | [] => ret tt
  | j :: jl' =>
      (if negb (pid j =? 0) then
         checked_write output_fd ("[" ++ dec (jid j) ++ "] (" ++ dec (pid j) ++ ") ") ;;
         checked_write output_fd (state_label i j) ;;
         checked_write output_fd (cmdline j ++ nl)
       else ret tt) ;;
      listjobs_scan jl' (i + 1) output_fd
  end.

Definition listjobs (output_fd : Z) : M unit :=
  jl <- gets job_list ;;
  listjobs_scan jl 0 output_fd ;;
  close_unless_stdout output_fd.

(** The text the loop [if (job_list[i].jid == job_id) { sprintf ...; break; }]
    leaves in [buf]: [text] of the first slot with that job id, nothing when
    there is none. *)
Definition buf_of_jid (jl : list job_t) (job_id : Z) (text : job_t -> string)
  : string :=
  match find (fun j => jid j =? job_id) jl with
  | Some j => text j
  | None => ""
  end.

(** printjob - Prints [jid] (pid) jobname *)
Definition printjob (p : Z) (output_fd : Z) : M unit :=
  jl <- gets job_list ;;
  let job_id := pid2jid jl p in
  if job_id =? 0 then eprintf job_not_present ;; exit 1
  else
    checked_write output_fd ("[" ++ dec job_id ++ "] (" ++ dec p ++ ") ") ;;
    checked_write output_fd (buf_of_jid jl job_id (fun j => cmdline j ++ nl)) ;;
    close_unless_stdout output_fd.

(** print_sigint_job - message that a job was terminated by a signal *)
Definition print_sigint_job (p : Z) (signal : Z) (output_fd : Z) : M unit :=
  jl <- gets job_list ;;
  let job_id := pid2jid jl p in
  if job_id =? 0 then eprintf job_not_present ;; exit 1
  else
    checked_write output_fd ("Job [" ++ dec job_id ++ "] (" ++ dec p ++ ") ") ;;
    checked_write output_fd
      (buf_of_jid jl job_id (fun _ => "terminated by signal " ++ dec signal ++ nl)) ;;
    close_unless_stdout output_fd.

(** print_sigtstp_job - message that a job was stopped by a signal *)
Definition print_sigtstp_job (p : Z) (signal : Z) (output_fd : Z) : M unit :=
  jl <- gets job_list ;;
  let job_id := pid2jid jl p in
  if job_id =? 0 then eprintf job_not_present ;; exit 1
  else
    checked_write output_fd ("Job [" ++ dec job_id ++ "] (" ++ dec p ++ ") ") ;;
    checked_write output_fd
      (buf_of_jid jl job_id (fun _ => "stopped by signal " ++ dec signal ++ nl)) ;;
    close_unless_stdout output_fd.

(** ** parseline *)

Inductive builtins_t :=
| BUILTIN_NONE
| BUILTIN_QUIT
| BUILTIN_JOBS
| BUILTIN_BG
| BUILTIN_FG.

(** [argc] is the length of [argv]; a NULL [infile] or [outfile] is [None]. *)
Record cmdline_tokens := mktok {
  argv : list string;
  infile : option string;
  outfile : option string;
  builtins : builtins_t
}.

Definition argc (tok : cmdline_tokens) : Z := Z.of_nat (List.length (argv tok)).

(** Membership in [delims], the string " \t\r\n". *)
Definition is_delim (c : ascii) : bool :=
  let n := nat_of_ascii c in
  Nat.eqb n 32 || Nat.eqb n 9 || Nat.eqb n 13 || Nat.eqb n 10.

Definition is_quote (c : ascii) : bool :=
  Ascii.eqb c "'" || Nat.eqb (nat_of_ascii c) 34.

(** [buf += strspn(buf, delims)] *)
Fixpoint skip_delims (buf : string) : string :=
  match buf with
  | String c buf' => if is_delim c then skip_delims buf' else buf
  | EmptyString => EmptyString
  end.

(** [next = buf + strcspn(buf, delims)]: the characters before [next] and
    the text from [next] on. *)
Fixpoint until_delim (buf : string) : string * string :=
  match buf with
  | String c buf' =>
      if is_delim c then (EmptyString, buf)
      else let (t, r) := until_delim buf' in (String c t, r)
  | EmptyString => (EmptyString, EmptyString)
  end.

(** [next = strchr(buf, q)], [None] for NULL. *)
Fixpoint until_quote (q : ascii) (buf : string) : option (string * string) :=
  match buf with
  | String c buf' =>
      if Ascii.eqb c q then Some (EmptyString, buf)
      else match until_quote q buf' with
           | Some (t, r) => Some (String c t, r)
           | None => None
           end
  | EmptyString => None
  end.

(** [buf = next + 1] *)
Definition after_next (next : string) : string :=
  match next with
  | String _ r => r
  | EmptyString => EmptyString
  end.

Definition ambiguous_redirection : string :=
  "Error: Ambiguous I/O redirection" ++ nl.

(** The [switch (parsing_state)] that records a token. *)
Definition record_token (parsing_state : Z) (t : string) (tok : cmdline_tokens)
  : option cmdline_tokens :=
  if parsing_state =? ST_NORMAL then
    Some (mktok (argv tok ++ [t])%list (infile tok) (outfile tok) (builtins tok))
  else if parsing_state =? ST_INFILE then
    Some (mktok (argv tok) (Some t) (outfile tok) (builtins tok))
  else if parsing_state =? ST_OUTFILE then
    Some (mktok (argv tok) (infile tok) (Some t) (builtins tok))
  else None.

(** The [while (buf < endbuf)] loop.  [buf] is the text from the cursor to
    the end of the line; every round consumes at least one character, so
    [fuel] above the length of the line is never used up. *)
Fixpoint parse_loop (fuel : nat) (buf : string) (parsing_state : Z)
  (tok : cmdline_tokens) : string + (Z * cmdline_tokens) :=
  match fuel with
  | O => inl "parse_loop: out of fuel"
  | S fuel' =>
      match skip_delims buf with
      | EmptyString => inr (parsing_state, tok)
      | String c rest =>
          if Ascii.eqb c "<" then
            match infile tok with
            | Some _ => inl ambiguous_redirection
            | None => parse_loop fuel' rest (Z.lor parsing_state ST_INFILE) tok
            end
          else if Ascii.eqb c ">" then
            match outfile tok with
            | Some _ => inl ambiguous_redirection
            | None => parse_loop fuel' rest (Z.lor parsing_state ST_OUTFILE) tok
            end
          else
            match (if is_quote c then until_quote c rest
                   else Some (until_delim (String c rest))) with
            | None => inl ("Error: unmatched " ++ String c "." ++ nl)
            | Some (t, next) =>
                match record_token parsing_state t tok with
                | None => inl ambiguous_redirection
                | Some tok' =>
                    if argc tok' >=? MAXARGS - 1 then inr (ST_NORMAL, tok')
                    else parse_loop fuel' (after_next next) ST_NORMAL tok'
                end
            end
      end
  end.

Definition classify (arg0 : string) : builtins_t :=
  if String.eqb arg0 "quit" then BUILTIN_QUIT
  else if String.eqb arg0 "jobs" then BUILTIN_JOBS
  else if String.eqb arg0 "bg" then BUILTIN_BG
  else if String.eqb arg0 "fg" then BUILTIN_FG
  else BUILTIN_NONE.

(** [*s == c] for a C string [s]. *)
Definition starts_with (c : ascii) (s : string) : bool :=
  match s with
  | String c' _ => Ascii.eqb c' c
  | EmptyString => false
  end.

(** The tokens of the line before the builtin and background tests. *)
Definition scan_line (cmdline : string) : string + (Z * cmdline_tokens) :=
  parse_loop (S (String.length cmdline)) cmdline ST_NORMAL
             (mktok [] None None BUILTIN_NONE).

(** parseline - Parse the command line and build the argv array.
    [inr (1, tok)]: BG job requested; [inr (0, tok)]: FG job;
    [inl msg]: the line is incorrectly formatted, [msg] went to stderr and
    -1 is returned.  [tok->builtins] is not written for a blank line. *)
Definition parseline (cmdline : string) : string + (Z * cmdline_tokens) :=
  match scan_line cmdline with
  | inl msg => inl msg
  | inr (parsing_state, tok) =>
      if negb (parsing_state =? ST_NORMAL) then
        inl ("Error: must provide file name for redirection" ++ nl)
      else
        match argv tok with
        | [] => inr (1, tok)
        | arg0 :: _ =>
            let b := classify arg0 in
            if starts_with "&" (last (argv tok) EmptyString) then
              inr (1, mktok (removelast (argv tok)) (infile tok) (outfile tok) b)
            else
              inr (0, mktok (argv tok) (infile tok) (outfile tok) b)
        end
  end.

(** [atoi] of the C library: blanks, an optional sign, decimal digits. *)
Definition isspace (c : ascii) : bool :=
  let n := nat_of_ascii c in
  Nat.eqb n 32 || (Nat.leb 9 n && Nat.leb n 13).

Fixpoint atoi_digits (s : string) (acc : Z) : Z :=
  match s with
  | String c s' =>
      let n := nat_of_ascii c in
      if Nat.leb 48 n && Nat.leb n 57
      then atoi_digits s' (10 * acc + (Z.of_nat n - 48))
      else acc
  | EmptyString => acc
  end.

Fixpoint atoi (s : string) : Z :=
  match s with
  | String c s' =>
      if isspace c then atoi s'
      else if Ascii.eqb c "-" then - atoi_digits s' 0
      else if Ascii.eqb c "+" then atoi_digits s' 0
      else atoi_digits s 0
  | EmptyString => 0
  end.

(** ** System call wrappers *)

(** What the operating system answers during one call of [eval]. *)
Record os_t := mkos {
  os_getpid : Z;            (* getpid() in the process that entered eval *)
  os_leader : bool;         (* does that process lead its process group? *)
  os_fork : Z;              (* fork(): 0 in the child, the child's pid in
                               the parent, -1 on failure *)
  os_child_pid : Z;         (* getpid() in the child *)
  os_open : string -> Z;    (* open(): a descriptor, or -1 *)
  os_execve : option Z;     (* None: the image is replaced;
                               Some e: execve fails with errno e *)
  os_waitpid : wait_ret     (* waitpid(pid, &status, WUNTRACED) *)
}.

Definition Fork (os : os_t) : M Z :=
  syscall (Sys_fork (os_fork os)) ;;
  ret (os_fork os).

(** [Execve] calls [execve] and nothing else: when the call fails it
    returns to its caller. *)
Definition Execve (os : os_t) (program : string) (args : list string) : M unit :=
  syscall (Sys_execve program args) ;;
  match os_execve os with
  | None => fun s => Halt (Exec program args) s
  | Some e => modify (set_errno e)
  end.

Definition Sigprocmask (how : Z) (set : sigset) : M Z :=
  syscall (Sys_sigprocmask how set) ;;
  m <- gets sigmask ;;
  (if how =? SIG_BLOCK then modify (set_sigmask (set ++ m)%list)
   else if how =? SIG_UNBLOCK then
     modify (set_sigmask (filter (fun x => negb (sigismember set x)) m))
   else ret tt) ;;
  ret 0.

Definition Kill (p : Z) (signal : Z) : M Z :=
  syscall (Sys_kill p signal) ;;
  ret 0.

Definition getpid (r : Z) : M Z :=
  syscall (Sys_getpid r) ;;
  ret r.

Definition open (os : os_t) (path : string) (flags : Z) : M Z :=
  syscall (Sys_open path flags (os_open os path)) ;;
  ret (os_open os path).

Definition waitpid (p : Z) (options : Z) (r : wait_ret) : M (Z * wstatus) :=
  syscall (Sys_waitpid p options r) ;;
  (if w_ret r <? 0 then modify (set_errno (w_errno r)) else ret tt) ;;
  ret (w_ret r, w_status r).

(** ** eval *)

Definition mask : sigset :=
  sigaddset (sigaddset (sigaddset sigemptyset SIGCHLD) SIGINT) SIGTSTP.
Definition mask2 : sigset :=
  sigaddset (sigaddset sigemptyset SIGINT) SIGTSTP.

(** The job named by [argv[1]] of [fg] and [bg]: [%jid] or a pid.
    Reading the first character of a missing argument dereferences NULL. *)
Definition job_argument (tok : cmdline_tokens) : M (Z * Z) :=
  match nth_error (argv tok) 1 with
  | None => fun s => Halt Fault s
  | Some a =>
      jl <- gets job_list ;;
      if starts_with "%" a then
        let i := atoi (after_next a) in
        ret (jid2pid jl i, i)
      else
        let p := atoi a in
        ret (p, pid2jid jl p)
  end.

(** The [switch (tok.builtins)]; the value returned is [flag]. *)
Definition eval_builtin (os : os_t) (tok : cmdline_tokens) : M Z :=
  match builtins tok with
  | BUILTIN_QUIT =>
      me <- getpid (os_getpid os) ;;
      modify (set_tsh_pid me) ;;
      syscall (Sys_kill (- me) SIGKILL) ;;
      if os_leader os then fun s => Halt (Killed SIGKILL) s
      else ret 0
  | BUILTIN_JOBS =>
      match outfile tok with
      | Some f =>
          outfile_fd <- open os f O_WRONLY ;;
          listjobs outfile_fd ;;
          ret 0
      | None =>
          listjobs STDOUT_FILENO ;;
          ret 0
      end
  | BUILTIN_FG =>
      pj <- job_argument tok ;;
      change_job_state (fst pj) FG ;;
      Kill (- fst pj) SIGCONT ;;
      ret 1
  | BUILTIN_BG =>
      pj <- job_argument tok ;;
      printjob (fst pj) STDOUT_FILENO ;;
      change_job_state (fst pj) BG ;;
      Kill (- fst pj) SIGCONT ;;
      ret 0
  | BUILTIN_NONE => ret 0
  end.

(** The body of [if ((pid = Fork()) == 0)]. *)
Definition eval_child (os : os_t) (tok : cmdline_tokens) (job_state : Z)
  (line : string) : M unit :=
  syscall (Sys_setpgid 0 0) ;;
  syscall (Sys_signal_dfl SIGINT) ;;
  me <- getpid (os_child_pid os) ;;
  syscall (Tbl_addjob me) ;;
  addjob me job_state line ;;
  (match infile tok with
   | Some f =>
       infile_fd <- open os f O_RDONLY ;;
       syscall (Sys_dup2 infile_fd STDIN_FILENO)
   | None => ret tt
   end) ;;
  (match outfile tok with
   | Some f =>
       outfile_fd <- open os f O_WRONLY ;;
       syscall (Sys_dup2 outfile_fd STDOUT_FILENO)
   | None => ret tt
   end) ;;
  Sigprocmask SIG_UNBLOCK mask ;;
  Execve os (nth 0 (argv tok) EmptyString) (argv tok).

(** The foreground wait, from [check = waitpid(pid, &status, WUNTRACED)] to
    the end of the [if (!bg)] block. *)
Definition eval_wait (os : os_t) (p : Z) : M unit :=
  cs <- waitpid p WUNTRACED (os_waitpid os) ;;
  let check := fst cs in
  let status := snd cs in
  e <- gets errno ;;
  (if (check <? 0) && negb (e =? ECHILD)
   then unix_error ("waitfg : wait pid error" ++ nl)
   else ret tt) ;;
  if (check =? p) && WIFSTOPPED status then
    print_sigtstp_job p SIGTSTP STDOUT_FILENO ;;
    change_job_state p ST
  else
    (if (check =? p) && WIFSIGNALED status
     then print_sigint_job p (WTERMSIG status) STDOUT_FILENO
     else ret tt) ;;
    deletejob p ;;
    Sigprocmask SIG_UNBLOCK mask ;;
    ret tt.

(** The branch [else if ((tok.builtins == BUILTIN_NONE) || (flag == 1))]. *)
Definition eval_external (os : os_t) (tok : cmdline_tokens) (bg flag : Z)
  (line : string) : M unit :=
  let bg := if flag =? 1 then 0 else bg in
  let job_state := if bg =? 0 then FG else BG in
  p <- Fork os ;;
  (if p =? 0 then eval_child os tok job_state line else ret tt) ;;
  syscall (Tbl_addjob p) ;;
  addjob p job_state line ;;
  (if bg =? 0 then modify (set_fg_pid p) else ret tt) ;;
  Sigprocmask SIG_UNBLOCK mask2 ;;
  if bg =? 0 then eval_wait os p
  else
    Sigprocmask SIG_UNBLOCK mask ;;
    printjob p STDOUT_FILENO.

Definition is_builtin_none (b : builtins_t) : bool :=
  match b with BUILTIN_NONE => true | _ => false end.

(** eval - Evaluate the command line that the user has just typed in.
    [flag] is a local initialised to 0 and set only inside the builtin
    branch, so the second branch reads 0. *)
Definition eval (os : os_t) (line : string) : M unit :=
  let flag := 0 in
  me <- getpid (os_getpid os) ;;
  modify (set_tsh_pid me) ;;
  Sigprocmask SIG_BLOCK mask ;;
  match parseline line with
  | inl msg => eprintf msg
  | inr (bg, tok) =>
      match argv tok with
      | [] => ret tt
      | _ :: _ =>
          if negb (is_builtin_none (builtins tok)) then
            eval_builtin os tok ;;
            ret tt
          else if is_builtin_none (builtins tok) || (flag =? 1) then
            eval_external os tok bg flag line
          else ret tt
      end
  end.

(** ** Signal handlers *)

(** How the run of [waitpid(-1, &status, WNOHANG)] calls of one handler
    invocation ends: with 0 (children exist, none has changed state) or
    with -1 and an [errno]. *)
Inductive wait_end :=
| W_NONE_READY
| W_FAILED (e : Z).

Definition wait_end_ret (last : wait_end) : wait_ret :=
  match last with
  | W_NONE_READY => mkwait 0 (W_EXITED 0) 0
  | W_FAILED e => mkwait (-1) (W_EXITED 0) e
  end.

(** The [while ((pid = waitpid(-1, &status, WNOHANG)) > 0)] loop over the
    children the system reports, in the order it reports them. *)
Fixpoint sigchld_loop (children : list (positive * wstatus)) (last : wait_end)
  : M unit :=
  match children with
  | (p, status) :: rest =>
      cs <- waitpid (-1) WNOHANG (mkwait (Z.pos p) status 0) ;;
      if fst cs >? 0 then
        (if WIFSIGNALED (snd cs)
         then print_sigint_job (fst cs) (WTERMSIG (snd cs)) STDOUT_FILENO
         else ret tt) ;;
        deletejob (fst cs) ;;
        sigchld_loop rest last
      else ret tt
  | [] =>
      waitpid (-1) WNOHANG (wait_end_ret last) ;;
      ret tt
  end.

(** sigchld_handler - reaps all available zombie children *)
Definition sigchld_handler (children : list (positive * wstatus))
  (last : wait_end) : M unit :=
  sigchld_loop children last ;;
  e <- gets errno ;;
  if negb (e =? ECHILD) then unix_error "waitpid error"
  else ret tt.

(** sigint_handler - forward SIGINT to the foreground job *)
Definition sigint_handler (self : Z) : M unit :=
  p <- getpid self ;;
  t <- gets tsh_pid ;;
  f <- gets fg_pid ;;
  if (p =? t) || (p =? f) then Kill (- f) SIGINT ;; ret tt
  else ret tt.

(** sigtstp_handler - forward SIGTSTP to the foreground job *)
Definition sigtstp_handler (self : Z) : M unit :=
  p <- getpid self ;;
  t <- gets tsh_pid ;;
  f <- gets fg_pid ;;
  if (p =? t) || (p =? f) then Kill (- f) SIGTSTP ;; ret tt
  else Kill p SIGTSTP ;; ret tt.

(** ** Runs of the shell *)

(** The state after [initjobs] in [main]: empty table, [nextjid = 1],
    nothing blocked. *)
Definition init_shell (v : Z) : shell :=
  mkshell initjobs 1 v 0 0 0 [] [] [].

(** What can happen to the shell process: a line is read and evaluated, or
    a signal is delivered and its handler runs. *)
Inductive action :=
| Line (os : os_t) (line : string)
| Sigchld (children : list (positive * wstatus)) (last : wait_end)
| Sigint (self : Z)
| Sigtstp (self : Z).

Definition perform (a : action) : M unit :=
  match a with
  | Line os line => eval os line
  | Sigchld children last => sigchld_handler children last
  | Sigint self => sigint_handler self
  | Sigtstp self => sigtstp_handler self
  end.

Fixpoint run (acts : list action) : M unit :=
  match acts with
  | [] => ret tt
  | a :: acts' => perform a ;; run acts'
  end.

(** * Vocabulary of the properties *)

Local Open Scope list_scope.

Definition pids (jl : list job_t) : list Z := map pid jl.
Definition jids (jl : list job_t) : list Z := map jid jl.


Definition too_many_jobs : string :=
  ("Tried to create too many jobs" ++ nl)%string.

(** The entries that [listjobs] shows: the slots with a pid, in slot order. *)
Definition listed (jl : list job_t) : list job_t :=
  filter (fun j => negb (pid j =? 0)) jl.

Definition blank : job_t := mkjob 0 0 UNDEF "".

(** The table entries of [jobs] when job ids are handed out from [n] on. *)
Fixpoint entries (n : Z) (jobs : list (Z * string)) : list job_t :=
  match jobs with
  | [] => []
  | (p, c) :: rest => mkjob p n BG c :: entries (n + 1) rest
  end.

(** The state [addjob] leaves behind when it finds a free slot. *)
Definition after_addjob (jl' : list job_t) (p : Z) (c : string) (s : shell)
  : shell :=
  let n := nextjid s in
  let s1 := set_nextjid (if n + 1 >? MAXJOBS then 1 else n + 1)
                        (set_job_list jl' s) in
  if negb (verbose s =? 0)
  then add_out STDOUT_FILENO
               ("Added job [" ++ dec n ++ "] " ++ dec p ++ " " ++ c ++ nl)%string
               s1
  else s1.

(** A slot is either free, with pid and job id 0, or holds a job with a
    positive pid and a positive job id. *)
Definition slot_ok (j : job_t) : Prop :=
  (pid j = 0 /\ jid j = 0) \/ (1 <= pid j /\ 1 <= jid j).

Definition table_ok (s : shell) : Prop :=
  Forall slot_ok (job_list s) /\
  1 <= nextjid s /\
  List.length (job_list s) = Z.to_nat MAXJOBS.

(** The job ids of the live entries. *)
Definition live_jids (jl : list job_t) : list Z := jids (listed jl).

(** [m] keeps [P]: whatever the state [m] stops in, returning or halting,
    [P] holds there when it held at the start. *)
Definition preserves (P : shell -> Prop) {A} (m : M A) : Prop :=
  forall s, P s -> P (final_state (m s)).

(** [stable P]: [P] survives the changes of the fields other than the job
    table, and the three operations that write the job table.  Such a
    property survives every evaluation and every handler. *)
Record stable (P : shell -> Prop) : Prop := mkstable {
  st_set_errno : forall e s, P s -> P (set_errno e s);
  st_set_fg_pid : forall p s, P s -> P (set_fg_pid p s);
  st_set_tsh_pid : forall p s, P s -> P (set_tsh_pid p s);
  st_set_sigmask : forall m s, P s -> P (set_sigmask m s);
  st_add_out : forall fd t s, P s -> P (add_out fd t s);
  st_add_trace : forall e s, P s -> P (add_trace e s);
  st_addjob : forall p st c, preserves P (addjob p st c);
  st_deletejob : forall p, preserves P (deletejob p);
  st_change_job_state :
    forall p new_state, preserves P (change_job_state p new_state)
}.

(** The states of the shell process between two actions: the initial state,
    and every state in which an evaluation or a handler returned. *)
Inductive reachable : shell -> Prop :=
| reach_init (v : Z) : reachable (init_shell v)
| reach_step (s s' : shell) (a : action) :
    reachable s -> perform a s = Ret tt s' -> reachable s'.

(** The answers of the system to the shell itself, the parent of the
    launch: [fork] returns the child's pid [p], and the foreground wait,
    if there is one, ends with [w]. *)
Definition parent_os (p : Z) (w : wait_ret) : os_t :=
  mkos 10 true p p (fun _ => 3) None w.

(** The answers inside the child of a launch whose program does not exist:
    [fork] returns 0, the child's pid is [p], [execve] fails with ENOENT,
    and the child, which has no children, gets ECHILD from [waitpid]. *)
Definition child_os (p : Z) : os_t :=
  mkos 10 true 0 p (fun _ => 3) (Some ENOENT) (mkwait (-1) (W_EXITED 0) ECHILD).

Definition no_wait : wait_ret := mkwait 0 (W_EXITED 0) 0.

Definition bg_launch (p : Z) : action :=
  Line (parent_os p no_wait) "sleep 100 &".

Definition builtin_line (line : string) : action :=
  Line (parent_os 0 no_wait) line.

(** Two background jobs, then [fg] on each of them. *)
Definition two_fg_run : list action :=
  [bg_launch 101; bg_launch 102; builtin_line "fg %1"; builtin_line "fg %2"].


(** Sixteen background jobs, then a foreground job that is stopped. *)
Definition full_table_stop_run : list action :=
  map (fun i => bg_launch (100 + Z.of_nat i)) (seq 1 16)
  ++ [Line (parent_os 117 (mkwait 117 (W_STOPPED SIGTSTP) 0)) "sleep 100"].

(** The trace of [s] starts with [base]. *)
Definition trace_from (base : list (event * sigset)) (s : shell) : Prop :=
  exists post, trace s = base ++ post.

(** The state in which [eval] parses the line: [tsh_pid] is set and the
    three signals of [mask] are blocked. *)
Definition entered (os : os_t) (s : shell) : shell :=
  let s1 := set_tsh_pid (os_getpid os) (add_trace (Sys_getpid (os_getpid os)) s) in
  let s2 := add_trace (Sys_sigprocmask SIG_BLOCK mask) s1 in
  set_sigmask (mask ++ sigmask s2) s2.

(** The state of the parent right before it registers the job. *)
Definition forked (os : os_t) (s : shell) : shell :=
  add_trace (Tbl_addjob (os_fork os))
            (add_trace (Sys_fork (os_fork os)) (entered os s)).

Definition notice_head (j p : Z) : string :=
  ("Job [" ++ dec j ++ "] (" ++ dec p ++ ") ")%string.
Definition stop_notice (sig : Z) : string :=
  ("stopped by signal " ++ dec sig ++ nl)%string.
Definition term_notice (sig : Z) : string :=
  ("terminated by signal " ++ dec sig ++ nl)%string.

(** The [waitpid] calls of a trace: whom they wait for, with which options. *)
Definition waits (tr : list (event * sigset)) : list (Z * Z) :=
  flat_map (fun e => match fst e with
                     | Sys_waitpid q o _ => [(q, o)]
                     | _ => []
                     end) tr.

(** What a launch prints when the job is registered: nothing, unless the
    shell was started with -v. *)
Definition launch_out (s : shell) (p : Z) (c : string) : list (Z * string) :=
  if negb (verbose s =? 0)
  then [(STDOUT_FILENO,
         ("Added job [" ++ dec (nextjid s) ++ "] " ++ dec p ++ " " ++ c ++ nl)%string)]
  else [].

(** The state in which the foreground [waitpid] on [p] has returned. *)
Definition waited (os : os_t) (p : Z) (s : shell) : shell :=
  add_trace (Sys_waitpid p WUNTRACED (os_waitpid os)) s.

(** The launch of the child [p] finds its place in the table of [s]: [f] is
    the first free slot, no slot holds [p] yet, and the job id that
    [nextjid] is about to hand out is not 0 and not in the table. *)
Definition registers (s : shell) (p : Z) (l1 : list job_t) (f : job_t)
  (l2 : list job_t) : Prop :=
  1 <= p /\
  job_list s = l1 ++ f :: l2 /\
  Forall (fun j => pid j <> 0) l1 /\ pid f = 0 /\
  ~ In p (pids (job_list s)) /\
  nextjid s <> 0 /\ ~ In (nextjid s) (jids (job_list s)).

(** The table after the scan of [deletejob] for [p]. *)
Definition clear_first (jl : list job_t) (p : Z) : list job_t :=
  match deletejob_scan jl p with
  | Some jl' => jl'
  | None => jl
  end.

(** The [waitpid] call that reports the child [c]. *)
Definition reap_event (c : positive * wstatus) : event :=
  Sys_waitpid (-1) WNOHANG (mkwait (Z.pos (fst c)) (snd c) 0).

(** A word without blanks. *)
Fixpoint no_delim (w : string) : bool :=
  match w with
  | EmptyString => true
  | String c w' => negb (is_delim c) && no_delim w'
  end.

(** A plain word: not empty, without blanks, and not opened by a quote or
    a redirection sign. *)
Definition plain_word (w : string) : bool :=
  match w with
  | EmptyString => false
  | String c _ =>
      negb (Ascii.eqb c "<") && negb (Ascii.eqb c ">") && negb (is_quote c)
      && no_delim w
  end.

(** The text after a word: nothing, or a blank and more text. *)
Definition word_end (r : string) : Prop :=
  r = EmptyString \/ exists r', r = String " " r'.

(** A line that [parseline] takes for the background launch of an external
    program. *)
Definition background_line (line : string) : Prop :=
  exists tok,
    parseline line = inr (1, tok) /\ builtins tok = BUILTIN_NONE /\
    argv tok <> [].

(** A launch as the shell sees it: the answers of the system, among them
    the pid of the child, and the line typed. *)
Definition launch_action (l : os_t * string) : action := Line (fst l) (snd l).
Definition launched_job (l : os_t * string) : Z * string :=
  (os_fork (fst l), snd l).
Definition background_launch (l : os_t * string) : Prop :=
  1 <= os_fork (fst l) /\ background_line (snd l).

(** Sixteen background launches, with children 101 to 116. *)
Definition sixteen_launches : list (os_t * string) :=
  map (fun i => (parent_os (100 + Z.of_nat i) no_wait, "sleep 100 &")) (seq 1 16).

(** The state column of a listing entry. *)
Definition state_name (st : Z) : string :=
  if st =? BG then "Running    "
  else if st =? FG then "Foreground "
  else "Stopped    ".

(** The three writes of [listjobs] for one job. *)
Definition job_line (fd : Z) (j : job_t) : list (Z * string) :=
  [(fd, ("[" ++ dec (jid j) ++ "] (" ++ dec (pid j) ++ ") ")%string);
   (fd, state_name (state j));
   (fd, (cmdline j ++ nl)%string)].

(** The job is in one of the states that [addjob] and [change_job_state]
    are called with. *)
Definition known_state (j : job_t) : Prop :=
  state j = BG \/ state j = FG \/ state j = ST.

(** The descriptor that the [jobs] builtin writes to. *)
Definition jobs_fd (os : os_t) (tok : cmdline_tokens) : Z :=
  match outfile tok with
  | Some f => os_open os f
  | None => STDOUT_FILENO
  end.

(** The pid that [fg] and [bg] take from their argument: the pid of the
    job with the job id after the percent sign, or the number itself. *)
Definition job_target (jl : list job_t) (a : string) : Z :=
  if starts_with "%" a then jid2pid jl (atoi (after_next a)) else atoi a.

(** The job [j] sits in the table of [s], after [l1] and before [l2], and
    the lookups by its pid and by its job id find it. *)
Definition holds_job (s : shell) (l1 : list job_t) (j : job_t)
  (l2 : list job_t) : Prop :=
  job_list s = l1 ++ j :: l2 /\
  1 <= pid j /\ jid j <> 0 /\
  ~ In (pid j) (pids l1) /\ ~ In (jid j) (jids l1).

(** The two writes of [printjob]. *)
Definition status_line (j : job_t) : list (Z * string) :=
  [(STDOUT_FILENO, ("[" ++ dec (jid j) ++ "] (" ++ dec (pid j) ++ ") ")%string);
   (STDOUT_FILENO, (cmdline j ++ nl)%string)].

(** A line that [parseline] takes for [fg] or [bg]. *)
Definition resume_line (line : string) (tok : cmdline_tokens) : Prop :=
  (exists bg, parseline line = inr (bg, tok)) /\
  (builtins tok = BUILTIN_FG \/ builtins tok = BUILTIN_BG).

(** Does the line make [eval] launch a program?  It does not when it is
    malformed, blank, or a builtin command. *)
Definition launches (line : string) : bool :=
  match parseline line with
  | inl _ => false
  | inr (_, tok) =>
      match argv tok with
      | [] => false
      | _ :: _ => is_builtin_none (builtins tok)
      end
  end.

(** The system calls of the child for the redirections of the command. *)
Definition redirections (os : os_t) (tok : cmdline_tokens) : list event :=
  match infile tok with
  | Some f => [Sys_open f O_RDONLY (os_open os f);
               Sys_dup2 (os_open os f) STDIN_FILENO]
  | None => []
  end
  ++ match outfile tok with
     | Some f => [Sys_open f O_WRONLY (os_open os f);
                  Sys_dup2 (os_open os f) STDOUT_FILENO]
     | None => []
     end.

(** None of SIGCHLD, SIGINT and SIGTSTP is blocked. *)
Definition all_unblocked (m : sigset) : Prop :=
  sigismember m SIGCHLD = false /\
  sigismember m SIGINT = false /\
  sigismember m SIGTSTP = false.

(** The state after [Sigprocmask(SIG_UNBLOCK, set)]. *)
Definition unblocked (set : sigset) (s : shell) : shell :=
  set_sigmask (filter (fun x => negb (sigismember set x)) (sigmask s))
              (add_trace (Sys_sigprocmask SIG_UNBLOCK set) s).

(** The state in which the parent of a background launch that found a free
    slot prints the status line. *)
Definition bg_registered (os : os_t) (line : string) (jl' : list job_t)
  (s : shell) : shell :=
  unblocked mask (unblocked mask2 (after_addjob jl' (os_fork os) line (forked os s))).

(** What the SIGCHLD handler prints for one reaped child: the termination
    notice when the child was killed by a signal, nothing otherwise. *)
Definition reap_notice (jl : list job_t) (c : positive * wstatus)
  : list (Z * string) :=
  match snd c with
  | W_SIGNALED sig =>
      [(STDOUT_FILENO, notice_head (pid2jid jl (Z.pos (fst c))) (Z.pos (fst c)));
       (STDOUT_FILENO, term_notice sig)]
  | _ => []
  end.

(** The table after the handler has deleted the children it reaped. *)
Definition reaped (jl : list job_t) (children : list (positive * wstatus))
  : list job_t :=
  fold_left (fun jl c => clear_first jl (Z.pos (fst c))) children jl.

(** A line made of blanks only. *)
Fixpoint all_delims (w : string) : bool :=
  match w with
  | EmptyString => true
  | String c w' => is_delim c && all_delims w'
  end.

(** The character [q] does not occur in [w]. *)
Fixpoint lacks (q : ascii) (w : string) : bool :=
  match w with
  | EmptyString => true
  | String c w' => negb (Ascii.eqb c q) && lacks q w'
  end.

(** The words [ws], each followed by a blank, and then [rest]. *)
Fixpoint line_of (ws : list string) (rest : string) : string :=
  match ws with
  | [] => rest
  | w :: ws' => (w ++ String " " (line_of ws' rest))%string
  end.

(** What [parseline] returns for the argument tokens [ws] and the
    redirection targets [fin] and [fout]. *)
Definition parsed (ws : list string) (fin fout : option string)
  : string + (Z * cmdline_tokens) :=
  if starts_with "&" (last ws EmptyString)
  then inr (1, mktok (removelast ws) fin fout (classify (hd EmptyString ws)))
  else inr (0, mktok ws fin fout (classify (hd EmptyString ws))).

Definition missing_file_name : string :=
  ("Error: must provide file name for redirection" ++ nl)%string.

Definition unmatched (q : ascii) : string :=
  ("Error: unmatched " ++ String q "." ++ nl)%string.

(** * Properties *)

(** Unfolding of the monad, for goals that run a few steps of shell code. *)
Ltac run_monad :=
  unfold bind, ret, gets, modify, exit, syscall, printf, eprintf in *;
  simpl in *.

Section JobTable.


Lemma deletejob_scan_absent jl p :
  ~ In p (pids jl) -> deletejob_scan jl p = None.
Proof.
  unfold pids.
  induction jl as [|j jl IH]; simpl; intros Habs; [reflexivity|].
  destruct (pid j =? p) eqn:E.
  - apply Z.eqb_eq in E. exfalso. apply Habs. now left.
  - rewrite IH; [reflexivity|]. intros Hin. apply Habs. now right.
Qed.

Lemma find_pid_absent jl p :
  ~ In p (pids jl) -> find (fun j => pid j =? p) jl = None.
Proof.
  unfold pids.
  induction jl as [|j jl IH]; simpl; intros Habs; [reflexivity|].
  destruct (pid j =? p) eqn:E.
  - apply Z.eqb_eq in E. exfalso. apply Habs. now left.
  - apply IH. intros Hin. apply Habs. now right.
Qed.

Lemma pid2jid_absent jl p : ~ In p (pids jl) -> pid2jid jl p = 0.
Proof.
  intros Habs. unfold pid2jid.
  destruct (p <? 1); [reflexivity|].
  now rewrite find_pid_absent.
Qed.

End JobTable.

(** C10.  A pid below 1 is refused at the door by both [addjob] and
    [deletejob]: each returns 0 and the whole shell state, job table and
    [nextjid] included, is what it was. *)
Theorem nonpositive_pid_ignored (p st : Z) (c : string) (s : shell) :
  p < 1 ->
  addjob p st c s = Ret 0 s /\ deletejob p s = Ret 0 s.
Proof.
  intros Hp. unfold addjob, deletejob.
  replace (p <? 1) with true by (symmetry; apply Z.ltb_lt; exact Hp).
  split; reflexivity.
Qed.

Lemma nonpositive_pid_ignored_witness :
  addjob 0 BG "sleep 5 &" (init_shell 0) = Ret 0 (init_shell 0) /\
  deletejob 0 (init_shell 0) = Ret 0 (init_shell 0).
Proof.
  apply (nonpositive_pid_ignored 0 BG "sleep 5 &" (init_shell 0)). lia.
Defined.

(** C1, as the code has it.  For a pid that no slot of the job table
    holds, [deletejob] returns 0 and changes nothing, while
    [change_job_state] changes nothing in the table but is fatal: it writes
    "Job not present in job list" to stderr and exits with status 1. *)
Theorem unknown_pid_delete_noop_set_state_fatal (p new_state : Z) (s : shell) :
  ~ In p (pids (job_list s)) ->
  deletejob p s = Ret 0 s /\
  change_job_state p new_state s
  = Halt (Exit 1) (add_out STDERR_FILENO job_not_present s).
Proof.
  intros Habs. split.
  - unfold deletejob. destruct (p <? 1); [reflexivity|].
    run_monad. now rewrite deletejob_scan_absent.
  - unfold change_job_state. run_monad.
    now rewrite pid2jid_absent.
Qed.

Lemma unknown_pid_delete_noop_set_state_fatal_witness :
  deletejob 5 (init_shell 0) = Ret 0 (init_shell 0) /\
  change_job_state 5 ST (init_shell 0)
  = Halt (Exit 1) (add_out STDERR_FILENO job_not_present (init_shell 0)).
Proof.
  apply (unknown_pid_delete_noop_set_state_fatal 5 ST (init_shell 0)).
  vm_compute. intuition discriminate.
Defined.

(** C1 as stated fails: setting the state of pid 5, which the empty table
    does not hold, ends the shell process with exit status 1. *)
Lemma set_state_unknown_pid_exits :
  ~ In 5 (pids (job_list (init_shell 0))) /\
  (forall u s', change_job_state 5 ST (init_shell 0) <> Ret u s') /\
  exists s', change_job_state 5 ST (init_shell 0) = Halt (Exit 1) s'.
Proof.
  split; [vm_compute; intuition discriminate|].
  split.
  - intros u s'. vm_compute. discriminate.
  - eexists. vm_compute. reflexivity.
Qed.

(** ** Insertion *)

Section Insertion.

Lemma addjob_scan_app l1 f l2 p st c n :
  Forall (fun j => pid j <> 0) l1 -> pid f = 0 ->
  addjob_scan (l1 ++ f :: l2) p st c n = Some (l1 ++ mkjob p n st c :: l2).
Proof.
  intros Hl1 Hf. induction Hl1 as [|j l1 Hj _ IH]; simpl.
  - rewrite Hf. reflexivity.
  - destruct (pid j =? 0) eqn:E; [apply Z.eqb_eq in E; contradiction|].
    rewrite IH. reflexivity.
Qed.


Lemma addjob_free s l1 f l2 p st c :
  1 <= p ->
  job_list s = (l1 ++ f :: l2) ->
  Forall (fun j => pid j <> 0) l1 -> pid f = 0 ->
  addjob p st c s
  = Ret 1 (after_addjob (l1 ++ mkjob p (nextjid s) st c :: l2) p c s).
Proof.
  intros Hp Hjl Hl1 Hf. unfold addjob, after_addjob.
  replace (p <? 1) with false by (symmetry; apply Z.ltb_ge; lia).
  run_monad. rewrite Hjl, addjob_scan_app by assumption.
  destruct (nextjid s + 1 >? MAXJOBS); simpl;
    destruct (verbose s =? 0); reflexivity.
Qed.

Lemma after_addjob_job_list jl' p c s :
  job_list (after_addjob jl' p c s) = jl'.
Proof. unfold after_addjob. destruct (negb (verbose s =? 0)); reflexivity. Qed.



Lemma listed_app l1 l2 : listed (l1 ++ l2) = (listed l1 ++ listed l2).
Proof. apply filter_app. Qed.



End Insertion.

(** ** Invariants of the job table *)

Section Preservation.

Variable P : shell -> Prop.

Lemma preserves_ret {A} (a : A) : preserves P (ret a).
Proof. intros s H. exact H. Qed.

Lemma preserves_exit {A} (status : Z) : preserves P (@exit A status).
Proof. intros s H. exact H. Qed.

Lemma preserves_halt {A} (h : halt) : preserves P (fun s => @Halt A h s).
Proof. intros s H. exact H. Qed.

Lemma preserves_gets {A} (f : shell -> A) : preserves P (gets f).
Proof. intros s H. exact H. Qed.

Lemma preserves_bind {A B} (m : M A) (k : A -> M B) :
  preserves P m -> (forall a, preserves P (k a)) -> preserves P (bind m k).
Proof.
  intros Hm Hk s H. unfold bind. specialize (Hm s H).
  destruct (m s) as [a s'|h s']; simpl in *.
  - apply Hk. exact Hm.
  - exact Hm.
Qed.

Lemma preserves_modify (f : shell -> shell) :
  (forall s, P s -> P (f s)) -> preserves P (modify f).
Proof. intros Hf s H. simpl. apply Hf. exact H. Qed.

End Preservation.

Section TableInvariant.

Lemma maxjid_fold_ge jl : forall m,
  m <= fold_left (fun max j => if jid j >? max then jid j else max) jl m.
Proof.
  induction jl as [|j jl IH]; intros m; simpl; [lia|].
  destruct (jid j >? m) eqn:E.
  - apply Z.gtb_lt in E. specialize (IH (jid j)). lia.
  - apply IH.
Qed.

Lemma maxjid_nonneg jl : 0 <= maxjid jl.
Proof. apply maxjid_fold_ge. Qed.

Lemma maxjid_fold_bound jl : forall m,
  Forall (fun j => jid j
                   <= fold_left (fun max j => if jid j >? max then jid j else max)
                                jl m) jl.
Proof.
  induction jl as [|j jl IH]; intros m; simpl; constructor.
  - destruct (jid j >? m) eqn:E.
    + apply maxjid_fold_ge.
    + rewrite Z.gtb_ltb in E. apply Z.ltb_ge in E.
      pose proof (maxjid_fold_ge jl m). lia.
  - apply IH.
Qed.

(** Every job id of the table is at most [maxjid]. *)
Lemma maxjid_bound jl : Forall (fun j => jid j <= maxjid jl) jl.
Proof. apply maxjid_fold_bound. Qed.

Lemma maxjid_fold_in jl : forall m,
  let r := fold_left (fun max j => if jid j >? max then jid j else max) jl m in
  r = m \/ In r (jids jl).
Proof.
  induction jl as [|j jl IH]; intros m; simpl; [now left|].
  destruct (jid j >? m).
  - destruct (IH (jid j)) as [H|H]; right; [left; now rewrite H | now right].
  - destruct (IH m) as [H|H]; [now left | right; now right].
Qed.

(** [maxjid] is 0 or a job id of the table. *)
Lemma maxjid_in jl : maxjid jl = 0 \/ In (maxjid jl) (jids jl).
Proof. apply maxjid_fold_in. Qed.

Lemma addjob_scan_ok jl p st c n jl' :
  Forall slot_ok jl -> 1 <= p -> 1 <= n ->
  addjob_scan jl p st c n = Some jl' ->
  Forall slot_ok jl' /\ List.length jl' = List.length jl.
Proof.
  intros Hok Hp Hn. revert jl'.
  induction Hok as [|j jl Hj Hjl IH]; simpl; intros jl' H; [discriminate|].
  destruct (pid j =? 0).
  - inversion H; subst. split; [|reflexivity].
    constructor; [right; simpl; lia | exact Hjl].
  - destruct (addjob_scan jl p st c n) as [jl2|]; [|discriminate].
    inversion H; subst. destruct (IH jl2 eq_refl) as [H1 H2].
    split; [constructor; assumption | simpl; now rewrite H2].
Qed.

Lemma deletejob_scan_ok jl p jl' :
  Forall slot_ok jl ->
  deletejob_scan jl p = Some jl' ->
  Forall slot_ok jl' /\ List.length jl' = List.length jl.
Proof.
  intros Hok. revert jl'.
  induction Hok as [|j jl Hj Hjl IH]; simpl; intros jl' H; [discriminate|].
  destruct (pid j =? p).
  - inversion H; subst. split; [|reflexivity].
    constructor; [left; split; reflexivity | exact Hjl].
  - destruct (deletejob_scan jl p) as [jl2|]; [|discriminate].
    inversion H; subst. destruct (IH jl2 eq_refl) as [H1 H2].
    split; [constructor; assumption | simpl; now rewrite H2].
Qed.

Lemma set_state_scan_ok jl job_id new_state :
  Forall slot_ok jl ->
  Forall slot_ok (set_state_scan jl job_id new_state) /\
  List.length (set_state_scan jl job_id new_state) = List.length jl.
Proof.
  induction 1 as [|j jl Hj Hjl [IH1 IH2]]; simpl; [split; [constructor|reflexivity]|].
  destruct (jid j =? job_id); simpl.
  - split; [constructor; [exact Hj | exact Hjl] | reflexivity].
  - split; [constructor; assumption | now rewrite IH2].
Qed.

Lemma table_ok_init v : table_ok (init_shell v).
Proof.
  split; [|split; [simpl; lia | reflexivity]].
  apply Forall_forall. intros j Hj. apply repeat_spec in Hj. subst.
  left. split; reflexivity.
Qed.

End TableInvariant.

(** Breaks a goal [preserves P m] along the structure of [m]. *)
Create HintDb tsh_frame.

Ltac preserve_step :=
  match goal with
  | |- preserves _ (bind _ _) => apply preserves_bind; [|intro]
  | |- preserves _ (ret _) => apply preserves_ret
  | |- preserves _ (exit _) => apply preserves_exit
  | |- preserves _ (gets _) => apply preserves_gets
  | |- preserves _ (fun s => Halt _ s) => apply preserves_halt
  | |- preserves _ (modify _) =>
      apply preserves_modify; intros; auto with tsh_frame
  | |- preserves _ (if ?b then _ else _) => destruct b
  | |- preserves _ (match ?x with _ => _ end) => destruct x
  | |- preserves _ (let _ := _ in _) => cbv zeta
  end.

Ltac preserve := repeat (preserve_step || (progress auto with tsh_frame)).

Section Stable.

Variable P : shell -> Prop.
Hypothesis HP : stable P.

Lemma stable_set_errno e s : P s -> P (set_errno e s).
Proof. apply (st_set_errno P HP). Qed.
Lemma stable_set_fg_pid p s : P s -> P (set_fg_pid p s).
Proof. apply (st_set_fg_pid P HP). Qed.
Lemma stable_set_tsh_pid p s : P s -> P (set_tsh_pid p s).
Proof. apply (st_set_tsh_pid P HP). Qed.
Lemma stable_set_sigmask m s : P s -> P (set_sigmask m s).
Proof. apply (st_set_sigmask P HP). Qed.
Lemma stable_add_out fd t s : P s -> P (add_out fd t s).
Proof. apply (st_add_out P HP). Qed.
Lemma stable_add_trace e s : P s -> P (add_trace e s).
Proof. apply (st_add_trace P HP). Qed.
Lemma stable_addjob p st c : preserves P (addjob p st c).
Proof. apply (st_addjob P HP). Qed.
Lemma stable_deletejob p : preserves P (deletejob p).
Proof. apply (st_deletejob P HP). Qed.
Lemma stable_change_job_state p new_state :
  preserves P (change_job_state p new_state).
Proof. apply (st_change_job_state P HP). Qed.

#[local] Hint Resolve stable_set_errno stable_set_fg_pid stable_set_tsh_pid stable_set_sigmask
  stable_add_out stable_add_trace stable_addjob stable_deletejob stable_change_job_state : tsh_frame.

Lemma write_ok fd buf : preserves P (write fd buf).
Proof. unfold write. preserve. Qed.
#[local] Hint Resolve write_ok : tsh_frame.

Lemma checked_write_ok fd buf : preserves P (checked_write fd buf).
Proof. unfold checked_write, eprintf. preserve. Qed.
#[local] Hint Resolve checked_write_ok : tsh_frame.

Lemma syscall_ok e : preserves P (syscall e).
Proof. unfold syscall. preserve. Qed.
Lemma printf_ok t : preserves P (printf t).
Proof. unfold printf. preserve. Qed.
Lemma eprintf_ok t : preserves P (eprintf t).
Proof. unfold eprintf. preserve. Qed.
#[local] Hint Resolve syscall_ok printf_ok eprintf_ok : tsh_frame.

Lemma close_unless_stdout_ok fd : preserves P (close_unless_stdout fd).
Proof. unfold close_unless_stdout. preserve. Qed.
Lemma unix_error_ok {A} msg : preserves P (@unix_error A msg).
Proof. unfold unix_error. preserve. Qed.
#[local] Hint Resolve close_unless_stdout_ok unix_error_ok : tsh_frame.

Lemma listjobs_scan_ok jl : forall i fd, preserves P (listjobs_scan jl i fd).
Proof. induction jl as [|j jl IH]; intros i fd; simpl; preserve. Qed.
#[local] Hint Resolve listjobs_scan_ok : tsh_frame.

Lemma listjobs_ok fd : preserves P (listjobs fd).
Proof. unfold listjobs. preserve. Qed.

Lemma printjob_ok p fd : preserves P (printjob p fd).
Proof. unfold printjob. preserve. Qed.

Lemma print_sigint_job_ok p sig fd : preserves P (print_sigint_job p sig fd).
Proof. unfold print_sigint_job. preserve. Qed.

Lemma print_sigtstp_job_ok p sig fd : preserves P (print_sigtstp_job p sig fd).
Proof. unfold print_sigtstp_job. preserve. Qed.
#[local] Hint Resolve listjobs_ok printjob_ok print_sigint_job_ok
  print_sigtstp_job_ok : tsh_frame.

Lemma Sigprocmask_ok how set : preserves P (Sigprocmask how set).
Proof. unfold Sigprocmask. preserve. Qed.
Lemma Kill_ok p sig : preserves P (Kill p sig).
Proof. unfold Kill. preserve. Qed.
Lemma getpid_ok r : preserves P (getpid r).
Proof. unfold getpid. preserve. Qed.
Lemma Fork_ok os : preserves P (Fork os).
Proof. unfold Fork. preserve. Qed.
Lemma Execve_ok os prog args : preserves P (Execve os prog args).
Proof. unfold Execve. preserve. Qed.
Lemma open_ok os path flags : preserves P (open os path flags).
Proof. unfold open. preserve. Qed.
Lemma waitpid_ok p options r : preserves P (waitpid p options r).
Proof. unfold waitpid. preserve. Qed.
#[local] Hint Resolve Sigprocmask_ok Kill_ok getpid_ok Fork_ok Execve_ok
  open_ok waitpid_ok : tsh_frame.

Lemma job_argument_ok tok : preserves P (job_argument tok).
Proof. unfold job_argument. preserve. Qed.
#[local] Hint Resolve job_argument_ok : tsh_frame.

Lemma eval_builtin_ok os tok : preserves P (eval_builtin os tok).
Proof. unfold eval_builtin. preserve. Qed.

Lemma eval_child_ok os tok job_state line :
  preserves P (eval_child os tok job_state line).
Proof. unfold eval_child. preserve. Qed.

Lemma eval_wait_ok os p : preserves P (eval_wait os p).
Proof. unfold eval_wait. preserve. Qed.
#[local] Hint Resolve eval_builtin_ok eval_child_ok eval_wait_ok : tsh_frame.

Lemma eval_external_ok os tok bg flag line :
  preserves P (eval_external os tok bg flag line).
Proof. unfold eval_external. preserve. Qed.
#[local] Hint Resolve eval_external_ok : tsh_frame.

Lemma eval_ok os line : preserves P (eval os line).
Proof. unfold eval. preserve. Qed.

Lemma sigchld_loop_ok children last :
  preserves P (sigchld_loop children last).
Proof.
  induction children as [|[p status] children IH]; simpl; preserve.
Qed.
#[local] Hint Resolve sigchld_loop_ok : tsh_frame.

Lemma sigchld_handler_ok children last :
  preserves P (sigchld_handler children last).
Proof. unfold sigchld_handler. preserve. Qed.

Lemma sigint_handler_ok self : preserves P (sigint_handler self).
Proof. unfold sigint_handler. preserve. Qed.

Lemma sigtstp_handler_ok self : preserves P (sigtstp_handler self).
Proof. unfold sigtstp_handler. preserve. Qed.

Lemma perform_ok a : preserves P (perform a).
Proof.
  destruct a; simpl.
  - apply eval_ok.
  - apply sigchld_handler_ok.
  - apply sigint_handler_ok.
  - apply sigtstp_handler_ok.
Qed.

End Stable.

(** [table_ok] is such a property. *)
Section TableOk.

Lemma addjob_table_ok p st c : preserves table_ok (addjob p st c).
Proof.
  intros s [Hslots [Hn Hlen]]. unfold addjob.
  destruct (p <? 1) eqn:Ep; [simpl; now repeat split|].
  apply Z.ltb_ge in Ep.
  unfold bind, gets, modify, ret, printf; simpl.
  destruct (addjob_scan (job_list s) p st c (nextjid s)) as [jl'|] eqn:E.
  - destruct (addjob_scan_ok _ _ _ _ _ _ Hslots Ep Hn E) as [H1 H2].
    destruct (nextjid s + 1 >? MAXJOBS); simpl;
      destruct (verbose s =? 0); simpl;
      (split; [exact H1 | split; [simpl; lia | simpl; now rewrite H2]]).
  - simpl. now repeat split.
Qed.

Lemma deletejob_table_ok p : preserves table_ok (deletejob p).
Proof.
  intros s [Hslots [Hn Hlen]]. unfold deletejob.
  destruct (p <? 1); [simpl; now repeat split|].
  unfold bind, gets, modify, ret; simpl.
  destruct (deletejob_scan (job_list s) p) as [jl'|] eqn:E; simpl.
  - destruct (deletejob_scan_ok _ _ _ Hslots E) as [H1 H2].
    split; [exact H1 | split; [|simpl; now rewrite H2]].
    pose proof (maxjid_nonneg jl'). simpl. lia.
  - now repeat split.
Qed.

Lemma change_job_state_table_ok p new_state :
  preserves table_ok (change_job_state p new_state).
Proof.
  intros s [Hslots [Hn Hlen]].
  unfold change_job_state, bind, gets, modify, eprintf, exit.
  destruct (pid2jid (job_list s) p =? 0); simpl.
  - now repeat split.
  - destruct (set_state_scan_ok (job_list s) (pid2jid (job_list s) p)
                                new_state Hslots) as [H1 H2].
    split; [exact H1 | split; [exact Hn | simpl; now rewrite H2]].
Qed.

Lemma table_ok_stable : stable table_ok.
Proof.
  constructor; try (intros; assumption).
  - exact addjob_table_ok.
  - exact deletejob_table_ok.
  - exact change_job_state_table_ok.
Qed.

Lemma perform_table_ok a : preserves table_ok (perform a).
Proof. apply perform_ok. exact table_ok_stable. Qed.

End TableOk.

(** ** Reachable states *)


Lemma run_reachable acts : forall s s',
  reachable s -> run acts s = Ret tt s' -> reachable s'.
Proof.
  induction acts as [|a acts IH]; intros s s' Hs Hrun; simpl in Hrun.
  - inversion Hrun; subst. exact Hs.
  - unfold bind in Hrun. destruct (perform a s) as [[] s1|h s1] eqn:E.
    + apply (IH s1 s'); [|exact Hrun]. now apply (reach_step s s1 a).
    + discriminate.
Qed.

(** ** Job ids *)

Section JobIds.

(** The first slot that holds [p]. *)
Lemma first_slot_of jl p :
  In p (pids jl) ->
  exists l1 j l2,
    jl = l1 ++ j :: l2 /\ Forall (fun j => pid j <> p) l1 /\ pid j = p.
Proof.
  unfold pids. induction jl as [|j jl IH]; simpl; intros Hin; [contradiction|].
  destruct (Z.eq_dec (pid j) p) as [E|E].
  - exists [], j, jl. repeat split; [constructor | exact E].
  - destruct Hin as [Hin|Hin]; [contradiction|].
    destruct (IH Hin) as [l1 [j' [l2 [Hjl [Hl1 Hj']]]]].
    exists (j :: l1), j', l2. subst jl. repeat split; [|exact Hj'].
    constructor; assumption.
Qed.

Lemma deletejob_scan_app l1 j l2 p :
  Forall (fun j => pid j <> p) l1 -> pid j = p ->
  deletejob_scan (l1 ++ j :: l2) p = Some (l1 ++ blank :: l2).
Proof.
  intros Hl1 Hj. induction Hl1 as [|j' l1 Hj' _ IH]; simpl.
  - rewrite Hj, Z.eqb_refl. reflexivity.
  - destruct (pid j' =? p) eqn:E; [apply Z.eqb_eq in E; contradiction|].
    rewrite IH. reflexivity.
Qed.

Lemma deletejob_present s l1 j l2 p :
  1 <= p ->
  job_list s = l1 ++ j :: l2 ->
  Forall (fun j => pid j <> p) l1 -> pid j = p ->
  deletejob p s
  = Ret 1 (set_nextjid (maxjid (l1 ++ blank :: l2) + 1)
                       (set_job_list (l1 ++ blank :: l2) s)).
Proof.
  intros Hp Hjl Hl1 Hj. unfold deletejob.
  replace (p <? 1) with false by (symmetry; apply Z.ltb_ge; lia).
  unfold bind, gets, modify, ret. rewrite Hjl, deletejob_scan_app by assumption.
  reflexivity.
Qed.


Lemma listed_held l1 j l2 :
  pid j <> 0 -> listed (l1 ++ j :: l2) = listed l1 ++ j :: listed l2.
Proof.
  intros Hj. rewrite listed_app. simpl.
  destruct (pid j =? 0) eqn:E; [apply Z.eqb_eq in E; contradiction|].
  reflexivity.
Qed.






End JobIds.


(** ** Concrete runs *)



(** C3 fails on the code.  After two background launches, [fg %1] and
    [fg %2], the shell is back at its prompt and both jobs of the table
    are in state FG: [fg] sets the state and returns without waiting. *)
Theorem two_foreground_jobs :
  exists s,
    run two_fg_run (init_shell 0) = Ret tt s /\
    reachable s /\
    listed (job_list s)
    = [mkjob 101 1 FG "sleep 100 &"; mkjob 102 2 FG "sleep 100 &"] /\
    List.length (filter (fun j => state j =? FG) (job_list s)) = 2%nat.
Proof.
  destruct (run two_fg_run (init_shell 0)) as [[] s|h s] eqn:E;
    [|vm_compute in E; discriminate].
  exists s. split; [reflexivity|].
  split; [exact (run_reachable _ _ _ (reach_init 0) E)|].
  vm_compute in E. inversion E; subst s; clear E.
  split; reflexivity.
Qed.

(** [Execve] has no way out of a failed [execve]: it returns. *)
Lemma Execve_failure_returns os program args e s :
  os_execve os = Some e ->
  Execve os program args s
  = Ret tt (set_errno e (add_trace (Sys_execve program args) s)).
Proof. intros H. unfold Execve, bind, syscall, modify. now rewrite H. Qed.

(** C2 fails on the code.  In the child of a launch whose [execve] fails,
    [Execve] returns and the child runs on through the parent's part of
    [eval]: it calls [addjob] with the 0 that [fork] gave it, unblocks the
    signals, waits, and returns from [eval] to the read/eval loop. *)
Theorem failed_exec_returns_into_shell :
  exists s,
    eval (child_os 200) "/no/such/program" (init_shell 0) = Ret tt s /\
    skipn 8 (map fst (trace s))
    = [Sys_execve "/no/such/program" ["/no/such/program"];
       Tbl_addjob 0;
       Sys_sigprocmask SIG_UNBLOCK mask2;
       Sys_waitpid 0 WUNTRACED (mkwait (-1) (W_EXITED 0) ECHILD);
       Sys_sigprocmask SIG_UNBLOCK mask].
Proof.
  eexists. split; vm_compute; reflexivity.
Qed.

(** C4 as stated fails.  With sixteen background jobs in the table, a
    foreground launch is not registered; when that child stops, the shell
    prints no stop notice and keeps no Stopped entry: it exits with status
    1 after "Job not present in job list". *)
Lemma stop_on_full_table_exits :
  exists s,
    run full_table_stop_run (init_shell 0) = Halt (Exit 1) s /\
    ~ In 117 (pids (job_list s)) /\
    ~ In ST (map state (job_list s)) /\
    skipn 32 (out s)
    = [(STDOUT_FILENO, too_many_jobs); (STDERR_FILENO, job_not_present)].
Proof.
  eexists. split; [vm_compute; reflexivity|].
  split; [|split].
  - vm_compute. intuition discriminate.
  - vm_compute. intuition discriminate.
  - vm_compute. reflexivity.
Qed.

(** ** The signal mask during a foreground launch *)

(** Unfolds a computation and splits on every test it makes. *)
Ltac split_tests :=
  repeat (match goal with
          | |- context [if ?b then _ else _] => destruct b
          | |- context [match ?x with Some _ => _ | None => _ end] => destruct x
          end; simpl).

Section SignalMask.

Lemma addjob_frame p st c s :
  exists r s',
    addjob p st c s = Ret r s' /\ trace s' = trace s /\ sigmask s' = sigmask s.
Proof.
  unfold addjob, bind, gets, modify, ret, printf.
  split_tests; eexists; eexists; repeat split.
Qed.

Lemma addjob_trace p st c s : trace (final_state (addjob p st c s)) = trace s.
Proof.
  destruct (addjob_frame p st c s) as [r [s' [E [H _]]]]. now rewrite E.
Qed.

Lemma deletejob_trace p s : trace (final_state (deletejob p s)) = trace s.
Proof.
  unfold deletejob, bind, gets, modify, ret. split_tests; reflexivity.
Qed.

Lemma change_job_state_trace p new_state s :
  trace (final_state (change_job_state p new_state s)) = trace s.
Proof.
  unfold change_job_state, bind, gets, modify, eprintf, exit.
  split_tests; reflexivity.
Qed.

Lemma trace_from_stable base : stable (trace_from base).
Proof.
  constructor; try (intros; assumption).
  - intros e s [post H]. exists (post ++ [(e, sigmask s)]).
    simpl. rewrite H, app_assoc. reflexivity.
  - intros p st c s H. unfold trace_from. now rewrite addjob_trace.
  - intros p s H. unfold trace_from. now rewrite deletejob_trace.
  - intros p new_state s H. unfold trace_from.
    now rewrite change_job_state_trace.
Qed.

Lemma unblocked_not_member set sig m :
  sigismember set sig = true ->
  sigismember (filter (fun x => negb (sigismember set x)) m) sig = false.
Proof.
  intros Hset. unfold sigismember at 1.
  induction m as [|x m IH]; simpl; [reflexivity|].
  destruct (sigismember set x) eqn:Ex; simpl; [exact IH|].
  rewrite IH, orb_false_r. apply Z.eqb_neq. intros ->. congruence.
Qed.

(** The trace of the foreground wait starts with its [waitpid] call. *)
Lemma eval_wait_trace os p s1 :
  trace_from (trace s1 ++ [(Sys_waitpid p WUNTRACED (os_waitpid os), sigmask s1)])
             (final_state (eval_wait os p s1)).
Proof.
  set (base := trace s1 ++ _).
  pose proof (trace_from_stable base) as Hst.
  unfold eval_wait. unfold bind at 1.
  destruct (waitpid p WUNTRACED (os_waitpid os) s1) as [cs s1'|h s1'] eqn:E.
  - assert (H : trace_from base s1').
    { unfold waitpid, bind, syscall, modify, ret in E.
      destruct (w_ret (os_waitpid os) <? 0); inversion E; subst;
        exists []; simpl; now rewrite app_nil_r. }
    cbv beta zeta.
    refine ((_ : preserves (trace_from base) _) s1' H).
    preserve;
      first [ now apply unix_error_ok | now apply print_sigtstp_job_ok
            | now apply print_sigint_job_ok | now apply Sigprocmask_ok
            | apply (st_change_job_state _ Hst) | apply (st_deletejob _ Hst)
            | idtac ].
  - unfold waitpid, bind, syscall, modify, ret in E.
    destruct (w_ret (os_waitpid os) <? 0); discriminate.
Qed.

(** How [eval] reaches the registration in the parent of a foreground
    launch. *)
Lemma eval_fg_parent os line tok s :
  parseline line = inr (0, tok) ->
  builtins tok = BUILTIN_NONE ->
  argv tok <> [] ->
  os_fork os <> 0 ->
  eval os line s
  = (addjob (os_fork os) FG line ;;
     modify (set_fg_pid (os_fork os)) ;;
     Sigprocmask SIG_UNBLOCK mask2 ;;
     eval_wait os (os_fork os)) (forked os s).
Proof.
  intros Hparse Hb Hargv Hfork. unfold eval. rewrite Hparse.
  destruct (argv tok) as [|a0 args] eqn:Eargv; [contradiction|].
  rewrite Hb. simpl is_builtin_none. cbv beta iota zeta. simpl negb.
  simpl orb. cbv iota. unfold eval_external.
  replace (0 =? 1) with false by reflexivity. cbv iota zeta.
  replace (0 =? 0) with true by reflexivity. cbv iota.
  unfold getpid, Fork, bind at 1 2 3 4 5 6 7 8. unfold syscall, modify, ret.
  unfold Sigprocmask at 1. unfold bind at 1 2 3 4. unfold syscall, modify, gets, ret.
  replace (SIG_BLOCK =? SIG_BLOCK) with true by reflexivity. cbv iota.
  unfold bind at 1 2 3.
  apply Z.eqb_neq in Hfork. rewrite Hfork. unfold ret.
  reflexivity.
Qed.

End SignalMask.

(** C5.  In the shell (the parent of the launch, where [fork] does not
    return 0), the evaluation of a foreground command issues, after the
    [fork], exactly: the registration in the job table, the unblocking of
    SIGINT and SIGTSTP, and the [waitpid] on the child.  SIGCHLD is blocked
    at each of the three, so its handler cannot be run from the
    registration until [waitpid] has returned; SIGINT and SIGTSTP are
    blocked at the registration and unblocked during the wait. *)
Theorem sigchld_blocked_from_registration_to_wait
  (os : os_t) (line : string) (tok : cmdline_tokens) (s : shell) :
  parseline line = inr (0, tok) ->
  builtins tok = BUILTIN_NONE ->
  argv tok <> [] ->
  os_fork os <> 0 ->
  exists m_reg m_wait post,
    trace (final_state (eval os line s))
    = trace s
      ++ [(Sys_getpid (os_getpid os), sigmask s);
          (Sys_sigprocmask SIG_BLOCK mask, sigmask s);
          (Sys_fork (os_fork os), m_reg);
          (Tbl_addjob (os_fork os), m_reg);
          (Sys_sigprocmask SIG_UNBLOCK mask2, m_reg);
          (Sys_waitpid (os_fork os) WUNTRACED (os_waitpid os), m_wait)]
      ++ post /\
    sigismember m_reg SIGCHLD = true /\
    sigismember m_reg SIGINT = true /\
    sigismember m_reg SIGTSTP = true /\
    sigismember m_wait SIGCHLD = true /\
    sigismember m_wait SIGINT = false /\
    sigismember m_wait SIGTSTP = false.
Proof.
  intros Hparse Hb Hargv Hfork.
  rewrite (eval_fg_parent os line tok s Hparse Hb Hargv Hfork).
  set (p := os_fork os).
  destruct (addjob_frame p FG line (forked os s)) as [r [s1 [Hadd [Htr Hmask]]]].
  unfold bind at 1. rewrite Hadd.
  unfold bind at 1. unfold modify at 1.
  unfold Sigprocmask, bind at 1 2 3 4, syscall, modify, gets, ret.
  replace (SIG_UNBLOCK =? SIG_BLOCK) with false by reflexivity.
  replace (SIG_UNBLOCK =? SIG_UNBLOCK) with true by reflexivity.
  cbv iota.
  match goal with
  | |- context [eval_wait os p ?st] => set (s2 := st)
  end.
  destruct (eval_wait_trace os p s2) as [post Hpost].
  exists (mask ++ sigmask s).
  exists (filter (fun x => negb (sigismember mask2 x)) (mask ++ sigmask s)).
  exists post.
  split.
  - rewrite Hpost. unfold s2. simpl trace. simpl sigmask.
    rewrite Htr, Hmask. unfold forked, entered. simpl trace. simpl sigmask.
    fold p. repeat rewrite <- app_assoc. reflexivity.
  - repeat split; try reflexivity.
    + apply unblocked_not_member. reflexivity.
    + apply unblocked_not_member. reflexivity.
Qed.

Lemma sigchld_blocked_from_registration_to_wait_witness :
  exists m_reg m_wait post,
    trace (final_state
             (eval (parent_os 100 (mkwait 100 (W_EXITED 0) 0)) "sleep 5"
                   (init_shell 0)))
    = trace (init_shell 0)
      ++ [(Sys_getpid 10, []);
          (Sys_sigprocmask SIG_BLOCK mask, []);
          (Sys_fork 100, m_reg);
          (Tbl_addjob 100, m_reg);
          (Sys_sigprocmask SIG_UNBLOCK mask2, m_reg);
          (Sys_waitpid 100 WUNTRACED (mkwait 100 (W_EXITED 0) 0), m_wait)]
      ++ post /\
    sigismember m_reg SIGCHLD = true /\
    sigismember m_reg SIGINT = true /\
    sigismember m_reg SIGTSTP = true /\
    sigismember m_wait SIGCHLD = true /\
    sigismember m_wait SIGINT = false /\
    sigismember m_wait SIGTSTP = false.
Proof.
  apply (sigchld_blocked_from_registration_to_wait
           (parent_os 100 (mkwait 100 (W_EXITED 0) 0)) "sleep 5"
           (mktok ["sleep"; "5"] None None BUILTIN_NONE) (init_shell 0)).
  - reflexivity.
  - reflexivity.
  - discriminate.
  - simpl. lia.
Defined.

(** ** The foreground wait *)

Section ForegroundWait.

Lemma find_first {A} (g : A -> bool) l1 x l2 :
  Forall (fun y => g y = false) l1 -> g x = true ->
  find g (l1 ++ x :: l2) = Some x.
Proof.
  intros Hl1 Hx. induction Hl1 as [|y l1 Hy _ IH]; simpl.
  - now rewrite Hx.
  - now rewrite Hy.
Qed.

Lemma not_in_pids l p :
  ~ In p (pids l) -> Forall (fun j => (pid j =? p) = false) l.
Proof.
  unfold pids. induction l as [|j l IH]; simpl; intros H; constructor.
  - apply Z.eqb_neq. tauto.
  - apply IH. tauto.
Qed.

Lemma not_in_jids l n :
  ~ In n (jids l) -> Forall (fun j => (jid j =? n) = false) l.
Proof.
  unfold jids. induction l as [|j l IH]; simpl; intros H; constructor.
  - apply Z.eqb_neq. tauto.
  - apply IH. tauto.
Qed.

Lemma pid2jid_first l1 j l2 :
  1 <= pid j -> ~ In (pid j) (pids l1) ->
  pid2jid (l1 ++ j :: l2) (pid j) = jid j.
Proof.
  intros Hp Hl1. unfold pid2jid.
  replace (pid j <? 1) with false by (symmetry; apply Z.ltb_ge; lia).
  rewrite find_first; [reflexivity | now apply not_in_pids | apply Z.eqb_refl].
Qed.

Lemma buf_of_jid_first l1 j l2 text :
  ~ In (jid j) (jids l1) ->
  buf_of_jid (l1 ++ j :: l2) (jid j) text = text j.
Proof.
  intros Hl1. unfold buf_of_jid.
  rewrite find_first; [reflexivity | now apply not_in_jids | apply Z.eqb_refl].
Qed.

Lemma set_state_scan_first l1 j l2 new_state :
  ~ In (jid j) (jids l1) ->
  set_state_scan (l1 ++ j :: l2) (jid j) new_state
  = l1 ++ mkjob (pid j) (jid j) new_state (cmdline j) :: l2.
Proof.
  intros Hl1. apply not_in_jids in Hl1.
  induction Hl1 as [|y l1 Hy _ IH]; simpl.
  - now rewrite Z.eqb_refl.
  - now rewrite Hy, IH.
Qed.

Lemma not_in_pids_neq l p :
  ~ In p (pids l) -> Forall (fun j => pid j <> p) l.
Proof.
  unfold pids. induction l as [|j l IH]; simpl; intros H; constructor.
  - tauto.
  - apply IH. tauto.
Qed.

Variables (l1 : list job_t) (j : job_t) (l2 : list job_t).
Variable s : shell.

(** The job [j] sits in the table of [s], and looking it up by its pid
    or by its job id finds it. *)
Hypothesis Hjl : job_list s = l1 ++ j :: l2.
Hypothesis Hpid : 1 <= pid j.
Hypothesis Hjid : jid j <> 0.
Hypothesis Hpids : ~ In (pid j) (pids l1).
Hypothesis Hjids : ~ In (jid j) (jids l1).

Lemma print_sigtstp_job_registered sig :
  print_sigtstp_job (pid j) sig STDOUT_FILENO s
  = Ret tt (add_out STDOUT_FILENO (stop_notice sig)
              (add_out STDOUT_FILENO (notice_head (jid j) (pid j)) s)).
Proof.
  unfold print_sigtstp_job, bind, gets. rewrite Hjl.
  rewrite pid2jid_first by assumption.
  apply Z.eqb_neq in Hjid. rewrite Hjid.
  rewrite buf_of_jid_first by assumption. reflexivity.
Qed.

Lemma print_sigint_job_registered sig :
  print_sigint_job (pid j) sig STDOUT_FILENO s
  = Ret tt (add_out STDOUT_FILENO (term_notice sig)
              (add_out STDOUT_FILENO (notice_head (jid j) (pid j)) s)).
Proof.
  unfold print_sigint_job, bind, gets. rewrite Hjl.
  rewrite pid2jid_first by assumption.
  apply Z.eqb_neq in Hjid. rewrite Hjid.
  rewrite buf_of_jid_first by assumption. reflexivity.
Qed.

Lemma change_job_state_registered new_state :
  change_job_state (pid j) new_state s
  = Ret tt (set_job_list
              (l1 ++ mkjob (pid j) (jid j) new_state (cmdline j) :: l2) s).
Proof.
  unfold change_job_state, bind, gets. rewrite Hjl.
  rewrite pid2jid_first by assumption.
  apply Z.eqb_neq in Hjid. rewrite Hjid.
  rewrite set_state_scan_first by assumption. reflexivity.
Qed.

Lemma deletejob_registered :
  deletejob (pid j) s
  = Ret 1 (set_nextjid (maxjid (l1 ++ blank :: l2) + 1)
                       (set_job_list (l1 ++ blank :: l2) s)).
Proof.
  apply (deletejob_present s l1 j l2); auto.
  now apply not_in_pids_neq.
Qed.

End ForegroundWait.

Section WaitOutcomes.

Variables (os : os_t) (l1 : list job_t) (j : job_t) (l2 : list job_t).
Variable s : shell.

Hypothesis Hjl : job_list s = l1 ++ j :: l2.
Hypothesis Hpid : 1 <= pid j.
Hypothesis Hjid : jid j <> 0.
Hypothesis Hpids : ~ In (pid j) (pids l1).
Hypothesis Hjids : ~ In (jid j) (jids l1).
Hypothesis Hret : w_ret (os_waitpid os) = pid j.

Lemma eval_wait_enter :
  eval_wait os (pid j) s
  = (if WIFSTOPPED (w_status (os_waitpid os)) then
       print_sigtstp_job (pid j) SIGTSTP STDOUT_FILENO ;;
       change_job_state (pid j) ST
     else
       (if WIFSIGNALED (w_status (os_waitpid os))
        then print_sigint_job (pid j) (WTERMSIG (w_status (os_waitpid os)))
                              STDOUT_FILENO
        else ret tt) ;;
       deletejob (pid j) ;;
       Sigprocmask SIG_UNBLOCK mask ;;
       ret tt) (waited os (pid j) s).
Proof.
  unfold eval_wait, waitpid.
  unfold bind at 1 2 3. unfold syscall, modify at 1. rewrite Hret.
  replace (pid j <? 0) with false by (symmetry; apply Z.ltb_ge; lia).
  unfold ret at 1 2. unfold bind at 1. unfold gets at 1.
  cbv beta zeta. simpl fst. simpl snd. rewrite Z.eqb_refl.
  replace (pid j <? 0) with false by (symmetry; apply Z.ltb_ge; lia).
  simpl andb. cbv iota. reflexivity.
Qed.

Lemma eval_wait_stopped sig :
  w_status (os_waitpid os) = W_STOPPED sig ->
  eval_wait os (pid j) s
  = Ret tt (set_job_list
              (l1 ++ mkjob (pid j) (jid j) ST (cmdline j) :: l2)
              (add_out STDOUT_FILENO (stop_notice SIGTSTP)
                 (add_out STDOUT_FILENO (notice_head (jid j) (pid j))
                    (waited os (pid j) s)))).
Proof.
  intros Hst. rewrite eval_wait_enter, Hst. unfold WIFSTOPPED. cbv iota.
  unfold bind.
  rewrite (print_sigtstp_job_registered l1 j l2 (waited os (pid j) s)) by assumption.
  apply (change_job_state_registered l1 j l2); assumption.
Qed.

Lemma eval_wait_signaled sig :
  w_status (os_waitpid os) = W_SIGNALED sig ->
  exists s',
    eval_wait os (pid j) s = Ret tt s' /\
    job_list s' = l1 ++ blank :: l2 /\
    out s' = out s ++ [(STDOUT_FILENO, notice_head (jid j) (pid j));
                       (STDOUT_FILENO, term_notice sig)] /\
    trace s' = trace (waited os (pid j) s) ++ [(Sys_sigprocmask SIG_UNBLOCK mask, sigmask s)].
Proof.
  intros Hst. rewrite eval_wait_enter, Hst. unfold WIFSTOPPED, WIFSIGNALED, WTERMSIG.
  cbv iota.
  unfold bind at 1 2.
  rewrite (print_sigint_job_registered l1 j l2 (waited os (pid j) s)) by assumption.
  unfold bind at 1.
  rewrite (deletejob_registered l1 j l2) by assumption.
  eexists. split; [reflexivity|].
  split; [reflexivity|]. split; [|reflexivity].
  simpl. rewrite <- app_assoc. reflexivity.
Qed.

Lemma eval_wait_exited code :
  w_status (os_waitpid os) = W_EXITED code ->
  exists s',
    eval_wait os (pid j) s = Ret tt s' /\
    job_list s' = l1 ++ blank :: l2 /\
    out s' = out s /\
    trace s' = trace (waited os (pid j) s) ++ [(Sys_sigprocmask SIG_UNBLOCK mask, sigmask s)].
Proof.
  intros Hst. rewrite eval_wait_enter, Hst. unfold WIFSTOPPED, WIFSIGNALED.
  cbv iota.
  unfold bind at 1 2. unfold ret at 1.
  rewrite (deletejob_registered l1 j l2) by assumption.
  eexists. repeat split; reflexivity.
Qed.

End WaitOutcomes.

Lemma waits_app tr1 tr2 : waits (tr1 ++ tr2) = waits tr1 ++ waits tr2.
Proof. apply flat_map_app. Qed.

Lemma not_in_app_l {A} (x : A) l1 l2 : ~ In x (l1 ++ l2) -> ~ In x l1.
Proof. intros H Hin. apply H. apply in_or_app. now left. Qed.

(** C4, as the code has it.  For a foreground launch that is registered in
    the job table, the only [waitpid] of the evaluation is on the child
    itself, with WUNTRACED, and the slots of all other jobs are left as
    they were.  If the child is reported stopped, its entry stays, with
    state ST, and the stop notice is printed; if it is reported killed by a
    signal, the termination notice is printed; if it exited, nothing is
    printed; in the last two cases its slot is cleared. *)
Theorem foreground_wait_outcomes
  (os : os_t) (line : string) (tok : cmdline_tokens) (s : shell)
  (l1 : list job_t) (f : job_t) (l2 : list job_t) :
  parseline line = inr (0, tok) ->
  builtins tok = BUILTIN_NONE ->
  argv tok <> [] ->
  registers s (os_fork os) l1 f l2 ->
  w_ret (os_waitpid os) = os_fork os ->
  exists s',
    eval os line s = Ret tt s' /\
    waits (trace s') = waits (trace s) ++ [(os_fork os, WUNTRACED)] /\
    match w_status (os_waitpid os) with
    | W_STOPPED _ =>
        job_list s' = l1 ++ mkjob (os_fork os) (nextjid s) ST line :: l2 /\
        out s' = out s ++ launch_out s (os_fork os) line
                 ++ [(STDOUT_FILENO, notice_head (nextjid s) (os_fork os));
                     (STDOUT_FILENO, stop_notice SIGTSTP)]
    | W_SIGNALED sig =>
        job_list s' = l1 ++ blank :: l2 /\
        ~ In (os_fork os) (pids (job_list s')) /\
        out s' = out s ++ launch_out s (os_fork os) line
                 ++ [(STDOUT_FILENO, notice_head (nextjid s) (os_fork os));
                     (STDOUT_FILENO, term_notice sig)]
    | W_EXITED _ =>
        job_list s' = l1 ++ blank :: l2 /\
        ~ In (os_fork os) (pids (job_list s')) /\
        out s' = out s ++ launch_out s (os_fork os) line
    end.
Proof.
  intros Hparse Hb Hargv [Hp [Hjl [Hl1 [Hf [Hpids [Hn Hjids]]]]]] Hret.
  set (p := os_fork os) in *.
  rewrite (eval_fg_parent os line tok s Hparse Hb Hargv) by (fold p; lia).
  fold p.
  assert (Hadd := addjob_free (forked os s) l1 f l2 p FG line Hp Hjl Hl1 Hf).
  unfold bind at 1. rewrite Hadd. clear Hadd.
  unfold bind at 1. unfold modify at 1.
  unfold Sigprocmask, bind at 1 2 3 4, syscall, modify, gets, ret.
  replace (SIG_UNBLOCK =? SIG_BLOCK) with false by reflexivity.
  replace (SIG_UNBLOCK =? SIG_UNBLOCK) with true by reflexivity.
  cbv iota.
  match goal with
  | |- context [eval_wait os p ?st] => set (s2 := st)
  end.
  set (j := mkjob p (nextjid s) FG line).
  assert (Hjl2 : job_list s2 = l1 ++ j :: l2).
  { unfold s2. simpl job_list. now rewrite after_addjob_job_list. }
  assert (Hout2 : out s2 = out s ++ launch_out s p line).
  { unfold s2, after_addjob, launch_out. simpl.
    destruct (verbose s =? 0); simpl; [now rewrite app_nil_r | reflexivity]. }
  assert (Htr2 : waits (trace s2) = waits (trace s)).
  { unfold s2, after_addjob. simpl.
    destruct (verbose s =? 0); simpl; rewrite !waits_app; simpl;
      now rewrite !app_nil_r. }
  clearbody s2.
  rewrite Hjl in Hpids, Hjids.
  assert (Hpids1 : ~ In (pid j) (pids l1)).
  { unfold pids in *. rewrite map_app in Hpids. now apply not_in_app_l in Hpids. }
  assert (Hjids1 : ~ In (jid j) (jids l1)).
  { unfold jids in *. rewrite map_app in Hjids. now apply not_in_app_l in Hjids. }
  assert (Hgone : ~ In p (pids (l1 ++ blank :: l2))).
  { unfold pids in *. rewrite map_app in *. simpl in *.
    intros H. apply in_app_or in H. apply Hpids. apply in_or_app.
    destruct H as [H|[H|H]]; [now left | lia | right; now right]. }
  destruct (w_status (os_waitpid os)) as [code|sig|sig] eqn:Est.
  - destruct (eval_wait_exited os l1 j l2 s2 Hjl2 Hp Hpids1 Hret code Est)
      as [s' [Hev [Hjl' [Hout' Htr']]]].
    exists s'. split; [exact Hev|]. split.
    + rewrite Htr'. simpl trace. rewrite !waits_app, Htr2. simpl.
      now rewrite app_nil_r.
    + rewrite Hjl', Hout', Hout2. repeat split; [exact Hgone].
  - destruct (eval_wait_signaled os l1 j l2 s2 Hjl2 Hp Hn Hpids1 Hjids1 Hret sig Est)
      as [s' [Hev [Hjl' [Hout' Htr']]]].
    exists s'. split; [exact Hev|]. split.
    + rewrite Htr'. simpl trace. rewrite !waits_app, Htr2. simpl.
      now rewrite app_nil_r.
    + rewrite Hjl', Hout', Hout2, <- app_assoc. repeat split; [exact Hgone].
  - eexists. split.
    + apply (eval_wait_stopped os l1 j l2 s2 Hjl2 Hp Hn Hpids1 Hjids1 Hret sig Est).
    + simpl. split; [|split; [reflexivity|]].
      * rewrite !waits_app, Htr2. reflexivity.
      * rewrite Hout2, <- !app_assoc. reflexivity.
Qed.

Lemma foreground_wait_outcomes_witness :
  exists s',
    eval (parent_os 100 (mkwait 100 (W_STOPPED SIGTSTP) 0)) "sleep 5"
         (init_shell 0) = Ret tt s' /\
    waits (trace s') = [(100, WUNTRACED)] /\
    job_list s' = mkjob 100 1 ST "sleep 5" :: repeat blank 15 /\
    out s' = [(STDOUT_FILENO, notice_head 1 100);
              (STDOUT_FILENO, stop_notice SIGTSTP)].
Proof.
  destruct (foreground_wait_outcomes
              (parent_os 100 (mkwait 100 (W_STOPPED SIGTSTP) 0)) "sleep 5"
              (mktok ["sleep"; "5"] None None BUILTIN_NONE) (init_shell 0)
              [] blank (repeat blank 15))
    as [s' [Hev [Hw [Hjl Hout]]]].
  - reflexivity.
  - reflexivity.
  - discriminate.
  - unfold registers. simpl.
    repeat split; try lia; try constructor; intuition discriminate.
  - reflexivity.
  - exists s'. repeat split; assumption.
Defined.

(** ** The SIGCHLD handler *)

Section Reaping.

Lemma find_pid_clear_other jl p q :
  q <> p -> p <> 0 ->
  find (fun j => pid j =? p) (clear_first jl q)
  = find (fun j => pid j =? p) jl.
Proof.
  intros Hqp Hp0. unfold clear_first.
  induction jl as [|j jl IH]; simpl; [reflexivity|].
  destruct (pid j =? q) eqn:Eq.
  - apply Z.eqb_eq in Eq.
    assert (Hj : (pid j =? p) = false) by (apply Z.eqb_neq; lia).
    rewrite Hj. destruct p; [lia | reflexivity | reflexivity].
  - destruct (deletejob_scan jl q) as [jl'|]; simpl in *.
    + now rewrite IH.
    + reflexivity.
Qed.

Lemma pid2jid_clear_other jl p q :
  q <> p -> pid2jid (clear_first jl q) p = pid2jid jl p.
Proof.
  intros Hqp. unfold pid2jid. destruct (p <? 1) eqn:E; [reflexivity|].
  apply Z.ltb_ge in E. rewrite find_pid_clear_other by lia. reflexivity.
Qed.

Lemma checked_write_stdout buf s :
  checked_write STDOUT_FILENO buf s = Ret tt (add_out STDOUT_FILENO buf s).
Proof.
  unfold checked_write, write, bind, modify, ret. simpl.
  replace (Z.of_nat (String.length buf) <? 0) with false
    by (symmetry; apply Z.ltb_ge; lia).
  reflexivity.
Qed.

Lemma waitpid_reports p status s :
  waitpid (-1) WNOHANG (mkwait (Z.pos p) status 0) s
  = Ret (Z.pos p, status) (add_trace (reap_event (p, status)) s).
Proof. reflexivity. Qed.


Lemma deletejob_returns p s :
  1 <= p ->
  exists r s',
    deletejob p s = Ret r s' /\
    job_list s' = clear_first (job_list s) p /\
    trace s' = trace s /\ errno s' = errno s /\ sigmask s' = sigmask s.
Proof.
  intros Hp. unfold deletejob, clear_first.
  replace (p <? 1) with false by (symmetry; apply Z.ltb_ge; lia).
  unfold bind, gets, modify, ret.
  destruct (deletejob_scan (job_list s) p); eexists; eexists; repeat split.
Qed.


(** Whatever the table holds, a run of the loop that ends with ECHILD
    either returns with [errno = ECHILD], or stops at the guard of
    [print_sigint_job] for a killed child that is not in the table. *)
Lemma bind_ret {A B} (m : M A) (k : A -> M B) s a s' :
  m s = Ret a s' -> bind m k s = k a s'.
Proof. intros H. unfold bind. now rewrite H. Qed.

Lemma bind_halt {A B} (m : M A) (k : A -> M B) s h s' :
  m s = Halt h s' -> bind m k s = Halt h s'.
Proof. intros H. unfold bind. now rewrite H. Qed.

Lemma sigchld_loop_step p status children last s :
  sigchld_loop ((p, status) :: children) last s
  = ((if WIFSIGNALED status
      then print_sigint_job (Z.pos p) (WTERMSIG status) STDOUT_FILENO
      else ret tt) ;;
     deletejob (Z.pos p) ;;
     sigchld_loop children last) (add_trace (reap_event (p, status)) s).
Proof.
  simpl sigchld_loop. unfold bind at 1. rewrite (waitpid_reports p status s).
  reflexivity.
Qed.


End Reaping.



(** The other way in which the loop ends: some children are still running
    and none has changed state, so [waitpid] returns 0 and leaves [errno]
    alone.  The handler then tests the [errno] of some earlier call; unless
    that happens to be ECHILD the shell exits through [unix_error]. *)
Lemma sigchld_handler_stale_errno (s : shell) :
  errno s <> ECHILD ->
  exists s', sigchld_handler [] W_NONE_READY s = Halt (Exit 1) s'.
Proof.
  intros H. apply Z.eqb_neq in H.
  unfold sigchld_handler, sigchld_loop, waitpid, bind, syscall, modify, ret, gets.
  simpl. rewrite H. simpl. eexists. reflexivity.
Qed.

(** ** The background flag of parseline *)

Section Parser.

Lemma skip_delims_length buf :
  (String.length (skip_delims buf) <= String.length buf)%nat.
Proof.
  induction buf as [|c buf IH]; simpl; [lia|].
  destruct (is_delim c); simpl; lia.
Qed.

Lemma until_delim_length buf t next :
  until_delim buf = (t, next) ->
  (String.length next <= String.length buf)%nat.
Proof.
  revert t next. induction buf as [|c buf IH]; simpl; intros t next H.
  - inversion H. simpl. lia.
  - destruct (is_delim c).
    + inversion H. simpl. lia.
    + destruct (until_delim buf) as [t' r']. inversion H; subst.
      specialize (IH t' next eq_refl). lia.
Qed.

Lemma until_quote_length q buf t next :
  until_quote q buf = Some (t, next) ->
  (String.length next <= String.length buf)%nat.
Proof.
  revert t next. induction buf as [|c buf IH]; simpl; intros t next H.
  - discriminate.
  - destruct (Ascii.eqb c q).
    + inversion H. simpl. lia.
    + destruct (until_quote q buf) as [[t' r']|]; [|discriminate].
      inversion H; subst. specialize (IH t' next eq_refl). lia.
Qed.

Lemma after_next_length next :
  String.length (after_next next) = pred (String.length next).
Proof. destruct next; reflexivity. Qed.

(** Fuel above the length of the text is never used up: any two such
    amounts give the same result. *)
Lemma parse_loop_fuel n :
  forall m buf parsing_state tok,
    (String.length buf < n)%nat -> (String.length buf < m)%nat ->
    parse_loop n buf parsing_state tok = parse_loop m buf parsing_state tok.
Proof.
  induction n as [|n IH]; intros m buf ps tok Hn Hm; [lia|].
  destruct m as [|m]; [lia|].
  cbn [parse_loop]. pose proof (skip_delims_length buf) as Hskip.
  destruct (skip_delims buf) as [|c rest] eqn:E; [reflexivity|].
  simpl in Hskip.
  destruct (Ascii.eqb c "<").
  { destruct (infile tok); [reflexivity|]. apply IH; lia. }
  destruct (Ascii.eqb c ">").
  { destruct (outfile tok); [reflexivity|]. apply IH; lia. }
  assert (Hnext : forall t next,
             (if is_quote c then until_quote c rest
              else Some (until_delim (String c rest))) = Some (t, next) ->
             (String.length (after_next next) <= String.length rest)%nat).
  { intros t next H. rewrite after_next_length. destruct (is_quote c).
    - apply until_quote_length in H. lia.
    - inversion H as [H']. change (until_delim (String c rest) = (t, next)) in H'.
      apply until_delim_length in H'. simpl in H'. lia. }
  destruct (if is_quote c then until_quote c rest
            else Some (until_delim (String c rest))) as [[t next]|];
    [|reflexivity].
  specialize (Hnext t next eq_refl).
  destruct (record_token ps t tok) as [tok'|]; [|reflexivity].
  destruct (argc tok' >=? _); [reflexivity|].
  apply IH; lia.
Qed.

(** [parse_loop] does not run out of fuel in [scan_line]. *)
Lemma scan_line_fuel line n :
  (String.length line < n)%nat ->
  scan_line line
  = parse_loop n line ST_NORMAL (mktok [] None None BUILTIN_NONE).
Proof. intros H. unfold scan_line. apply parse_loop_fuel; lia. Qed.

(** *** Lines made of plain words *)

Lemma append_nil_r w : (w ++ "")%string = w.
Proof. induction w as [|c w IH]; simpl; [reflexivity | now rewrite IH]. Qed.

Lemma length_append w r :
  String.length (w ++ r)%string = (String.length w + String.length r)%nat.
Proof. induction w as [|c w IH]; simpl; [reflexivity | now rewrite IH]. Qed.

End Parser.

Section PlainWords.

Lemma until_delim_word w r :
  no_delim w = true -> word_end r -> until_delim (w ++ r) = (w, r).
Proof.
  intros Hw Hr. induction w as [|c w IH]; simpl in *.
  - destruct Hr as [->|[r' ->]]; reflexivity.
  - apply andb_true_iff in Hw. destruct Hw as [Hc Hw].
    apply negb_true_iff in Hc. rewrite Hc, (IH Hw). reflexivity.
Qed.

Lemma parse_loop_word fuel w r tok :
  plain_word w = true -> word_end r ->
  parse_loop (S fuel) (w ++ r) ST_NORMAL tok
  = let tok' := mktok (argv tok ++ [w]) (infile tok) (outfile tok)
                      (builtins tok) in
    if argc tok' >=? MAXARGS - 1 then inr (ST_NORMAL, tok')
    else parse_loop fuel (after_next r) ST_NORMAL tok'.
Proof.
  intros Hw Hr. destruct w as [|c w]; [discriminate|].
  unfold plain_word in Hw.
  repeat (apply andb_true_iff in Hw; destruct Hw as [Hw ?]).
  assert (Hnd : no_delim (String c w) = true) by assumption.
  simpl in Hnd. apply andb_true_iff in Hnd. destruct Hnd as [Hc _].
  apply negb_true_iff in Hw, Hc.
  match goal with H : negb (Ascii.eqb c ">") = true |- _ =>
    apply negb_true_iff in H; rename H into Hgt end.
  match goal with H : negb (is_quote c) = true |- _ =>
    apply negb_true_iff in H; rename H into Hq end.
  cbn [parse_loop]. simpl append. cbn [skip_delims]. rewrite Hc, Hw, Hgt, Hq.
  change (String c (w ++ r)%string) with (String c w ++ r)%string.
  rewrite until_delim_word by assumption.
  reflexivity.
Qed.

Lemma words_length ws :
  Forall (fun w => plain_word w = true) ws ->
  (List.length ws <= String.length (String.concat " " ws))%nat.
Proof.
  induction 1 as [|w ws Hw Hws IH]; simpl; [lia|].
  assert (1 <= String.length w)%nat by (destruct w; [discriminate | simpl; lia]).
  destruct ws as [|w' ws']; simpl in *; [lia|].
  rewrite length_append. simpl. simpl in IH. lia.
Qed.

(** On a line of plain words separated by single blanks the loop of
    [parseline] returns exactly these words. *)
Lemma parse_loop_words ws :
  forall fuel tok,
    Forall (fun w => plain_word w = true) ws ->
    (List.length ws < fuel)%nat ->
    Z.of_nat (List.length (argv tok) + List.length ws) < MAXARGS - 1 ->
    parse_loop fuel (String.concat " " ws) ST_NORMAL tok
    = inr (ST_NORMAL,
           mktok (argv tok ++ ws) (infile tok) (outfile tok) (builtins tok)).
Proof.
  induction ws as [|w ws IH]; intros fuel tok Hws Hfuel Hargs.
  - destruct fuel as [|fuel]; [simpl in Hfuel; lia|].
    destruct tok. simpl. now rewrite app_nil_r.
  - inversion Hws as [|? ? Hw Hws']; subst.
    destruct fuel as [|fuel]; [simpl in Hfuel; lia|].
    simpl List.length in Hfuel, Hargs.
    set (tok' := mktok (argv tok ++ [w]) (infile tok) (outfile tok)
                       (builtins tok)).
    assert (Hlt : (argc tok' >=? MAXARGS - 1) = false).
    { unfold argc, tok'. simpl argv. rewrite length_app. simpl List.length.
      rewrite Z.geb_leb. apply Z.leb_gt. lia. }
    destruct ws as [|w' ws'].
    + simpl String.concat. rewrite <- (append_nil_r w) at 1.
      rewrite parse_loop_word; [|exact Hw | now left].
      cbv zeta. fold tok'. rewrite Hlt.
      destruct fuel as [|fuel]; [simpl in Hfuel; lia|]. reflexivity.
    + change (String.concat " " (w :: w' :: ws'))
        with (w ++ String " " (String.concat " " (w' :: ws')))%string.
      rewrite parse_loop_word; [|exact Hw | right; eexists; reflexivity].
      cbv zeta. fold tok'. rewrite Hlt. cbn [after_next].
      rewrite IH.
      * unfold tok'. simpl. rewrite <- app_assoc. reflexivity.
      * exact Hws'.
      * simpl List.length in *. lia.
      * unfold tok'. simpl argv. rewrite length_app. simpl List.length in *. lia.
Qed.

End PlainWords.

(** C9 as stated fails: the last token of "ls &x" is not "&", it only
    begins with '&', and yet the background flag is set and the token is
    dropped from the argument vector. *)
Lemma background_flag_for_amp_prefix :
  scan_line "ls &x" = inr (ST_NORMAL, mktok ["ls"; "&x"] None None BUILTIN_NONE) /\
  parseline "ls &x" = inr (1, mktok ["ls"] None None BUILTIN_NONE) /\
  "&x" <> "&".
Proof. repeat split; try reflexivity. discriminate. Qed.

(** C9, as the code has it.  When the line parses into at least one
    argument token, the background flag is 1 if the last argument token
    begins with the character '&' and 0 if not; in the first case that
    token is removed from the argument vector, in the second the vector is
    kept; the redirection targets are those found on the line. *)
Theorem background_iff_last_argument_begins_with_amp
  (line : string) (tok0 : cmdline_tokens) :
  scan_line line = inr (ST_NORMAL, tok0) ->
  argv tok0 <> [] ->
  exists bg tok,
    parseline line = inr (bg, tok) /\
    (bg = 1 <-> starts_with "&" (last (argv tok0) EmptyString) = true) /\
    (bg = 0 <-> starts_with "&" (last (argv tok0) EmptyString) = false) /\
    argv tok = (if bg =? 1 then removelast (argv tok0) else argv tok0) /\
    infile tok = infile tok0 /\ outfile tok = outfile tok0.
Proof.
  intros Hscan Hargv. unfold parseline. rewrite Hscan. simpl negb. cbv iota.
  destruct (argv tok0) as [|a0 args] eqn:E; [contradiction|].
  destruct (starts_with "&" (last (a0 :: args) EmptyString)) eqn:Eamp.
  - eexists. eexists. split; [reflexivity|].
    simpl. repeat split; intros; try reflexivity; discriminate.
  - eexists. eexists. split; [reflexivity|].
    simpl. repeat split; intros; try reflexivity; discriminate.
Qed.

Lemma background_iff_last_argument_begins_with_amp_witness :
  exists bg tok,
    parseline "sleep 5 &" = inr (bg, tok) /\
    (bg = 1 <-> starts_with "&" (last ["sleep"; "5"; "&"] EmptyString) = true) /\
    (bg = 0 <-> starts_with "&" (last ["sleep"; "5"; "&"] EmptyString) = false) /\
    argv tok = (if bg =? 1 then removelast ["sleep"; "5"; "&"]
                else ["sleep"; "5"; "&"]) /\
    infile tok = None /\ outfile tok = None.
Proof.
  apply (background_iff_last_argument_begins_with_amp
           "sleep 5 &" (mktok ["sleep"; "5"; "&"] None None BUILTIN_NONE)).
  - reflexivity.
  - discriminate.
Defined.

(** For a line of at most [MAXARGS - 2] plain words separated by single
    blanks, the argument tokens are these words: the flag is decided by
    the first character of the last word of the line. *)
Corollary parseline_of_words (ws : list string) :
  ws <> [] ->
  Forall (fun w => plain_word w = true) ws ->
  Z.of_nat (List.length ws) < MAXARGS - 1 ->
  parseline (String.concat " " ws)
  = if starts_with "&" (last ws EmptyString)
    then inr (1, mktok (removelast ws) None None (classify (hd EmptyString ws)))
    else inr (0, mktok ws None None (classify (hd EmptyString ws))).
Proof.
  intros Hne Hws Hlen. unfold parseline, scan_line.
  rewrite parse_loop_words; [|exact Hws| |exact Hlen].
  - simpl. destruct ws as [|w ws']; [contradiction|]. reflexivity.
  - pose proof (words_length ws Hws). lia.
Qed.


(** ** The listing and the full table *)

Section Listing.

Lemma checked_write_open fd buf s :
  0 <= fd -> checked_write fd buf s = Ret tt (add_out fd buf s).
Proof.
  intros Hfd. unfold checked_write, write, bind, modify, ret.
  replace (fd <? 0) with false by (symmetry; apply Z.ltb_ge; lia).
  replace (Z.of_nat (String.length buf) <? 0) with false
    by (symmetry; apply Z.ltb_ge; lia).
  reflexivity.
Qed.

(** [listjobs] writes three pieces of text for every slot with a pid, and
    nothing for a free slot: what it shows is [listed]. *)
Lemma listjobs_scan_listed jl :
  forall i fd s,
    0 <= fd ->
    exists s',
      listjobs_scan jl i fd s = Ret tt s' /\
      job_list s' = job_list s /\
      List.length (out s')
      = (List.length (out s) + 3 * List.length (listed jl))%nat.
Proof.
  induction jl as [|j jl IH]; intros i fd s Hfd.
  - exists s. simpl. repeat split. lia.
  - cbn [listjobs_scan listed filter]. unfold bind at 1.
    destruct (pid j =? 0); cbn [negb].
    + unfold ret at 1. destruct (IH (i + 1) fd s Hfd) as [s' [H1 [H2 H3]]].
      exists s'. repeat split; assumption.
    + unfold bind at 1 2. rewrite !checked_write_open by exact Hfd.
      match goal with
      | |- context [listjobs_scan jl (i + 1) fd ?st] =>
          destruct (IH (i + 1) fd st Hfd) as [s' [H1 [H2 H3]]]
      end.
      exists s'. split; [exact H1|]. split; [exact H2|].
      rewrite H3. simpl. rewrite !length_app. simpl. fold (listed jl). lia.
Qed.

End Listing.

Section BackgroundLaunches.

Lemma run_app acts1 acts2 s :
  run (acts1 ++ acts2) s
  = match run acts1 s with
    | Ret _ s' => run acts2 s'
    | Halt h s' => Halt h s'
    end.
Proof.
  revert s. induction acts1 as [|a acts1 IH]; intros s; simpl; [reflexivity|].
  unfold bind. destruct (perform a s) as [[] s1|h s1]; [apply IH | reflexivity].
Qed.

Lemma Sigprocmask_unblock set s :
  Sigprocmask SIG_UNBLOCK set s
  = Ret 0 (set_sigmask (filter (fun x => negb (sigismember set x)) (sigmask s))
                       (add_trace (Sys_sigprocmask SIG_UNBLOCK set) s)).
Proof. reflexivity. Qed.

(** How [eval] reaches the registration in the parent of a background
    launch. *)
Lemma eval_bg_parent os line tok s :
  parseline line = inr (1, tok) ->
  builtins tok = BUILTIN_NONE ->
  argv tok <> [] ->
  os_fork os <> 0 ->
  eval os line s
  = (addjob (os_fork os) BG line ;;
     Sigprocmask SIG_UNBLOCK mask2 ;;
     Sigprocmask SIG_UNBLOCK mask ;;
     printjob (os_fork os) STDOUT_FILENO) (forked os s).
Proof.
  intros Hparse Hb Hargv Hfork. unfold eval. rewrite Hparse.
  destruct (argv tok) as [|a0 args] eqn:Eargv; [contradiction|].
  rewrite Hb. simpl is_builtin_none. cbv beta iota zeta. simpl negb.
  simpl orb. cbv iota. unfold eval_external.
  replace (0 =? 1) with false by reflexivity. cbv iota zeta.
  replace (1 =? 0) with false by reflexivity. cbv iota.
  unfold getpid, Fork, bind at 1 2 3 4 5 6 7 8. unfold syscall, modify, ret.
  unfold Sigprocmask at 1. unfold bind at 1 2 3 4. unfold syscall, modify, gets, ret.
  replace (SIG_BLOCK =? SIG_BLOCK) with true by reflexivity. cbv iota.
  unfold bind at 1 2 3.
  apply Z.eqb_neq in Hfork. rewrite Hfork. unfold ret.
  reflexivity.
Qed.






End BackgroundLaunches.



(** In the shell the rejected launch is the last thing it does: after the
    capacity diagnostic [printjob] does not find the job and exits. *)
Lemma seventeenth_background_launch :
  exists s,
    run (map launch_action
             (sixteen_launches ++ [(parent_os 117 no_wait, "sleep 100 &")]))
        (init_shell 0)
    = Halt (Exit 1) s /\
    listed (job_list s) = entries 1 (map launched_job sixteen_launches) /\
    skipn 32 (out s)
    = [(STDOUT_FILENO, too_many_jobs); (STDERR_FILENO, job_not_present)].
Proof. eexists. split; [vm_compute; reflexivity|]. split; reflexivity. Qed.

(** * Further properties of the job table *)

Section Lookups.

Lemma find_pid_swap l1 x y l2 q :
  pid x <> q -> pid y <> q ->
  find (fun j => pid j =? q) (l1 ++ x :: l2)
  = find (fun j => pid j =? q) (l1 ++ y :: l2).
Proof.
  intros Hx Hy. apply Z.eqb_neq in Hx, Hy.
  induction l1 as [|j l1 IH]; simpl.
  - now rewrite Hx, Hy.
  - now rewrite IH.
Qed.

Lemma getjobpid_swap l1 x y l2 q :
  pid x <> q -> pid y <> q ->
  getjobpid (l1 ++ x :: l2) q = getjobpid (l1 ++ y :: l2) q.
Proof.
  intros Hx Hy. unfold getjobpid. destruct (q <? 1); [reflexivity|].
  now apply find_pid_swap.
Qed.

Lemma in_pids_listed l p :
  p <> 0 -> In p (pids l) -> In p (pids (listed l)).
Proof.
  intros Hp. unfold pids, listed. intros Hin.
  apply in_map_iff in Hin. destruct Hin as [j [Hj Hin]].
  apply in_map_iff. exists j. split; [exact Hj|].
  apply filter_In. split; [exact Hin|].
  apply negb_true_iff, Z.eqb_neq. congruence.
Qed.

Lemma pids_app l1 l2 : pids (l1 ++ l2) = pids l1 ++ pids l2.
Proof. apply map_app. Qed.

Lemma jids_app l1 l2 : jids (l1 ++ l2) = jids l1 ++ jids l2.
Proof. apply map_app. Qed.

Lemma neq_not_in_pids l p : Forall (fun j => pid j <> p) l -> ~ In p (pids l).
Proof.
  unfold pids. induction 1 as [|j l Hj _ IH]; simpl; [tauto|].
  intros [H|H]; [contradiction | tauto].
Qed.

(** Two entries of a list that agree on a key without repetition are the
    same entry. *)
Lemma NoDup_map_same {A B} (k : A -> B) l x y :
  NoDup (map k l) -> In x l -> In y l -> k x = k y -> x = y.
Proof.
  induction l as [|a l IH]; simpl; intros Hnd Hx Hy E; [contradiction|].
  inversion Hnd as [|? ? Ha Hnd']; subst.
  destruct Hx as [->|Hx], Hy as [->|Hy].
  - reflexivity.
  - exfalso. apply Ha. rewrite E. now apply in_map.
  - exfalso. apply Ha. rewrite <- E. now apply in_map.
  - now apply IH.
Qed.

(** A search finds the entry when no other entry passes the test. *)
Lemma find_only {A} (g : A -> bool) l x :
  In x l -> g x = true -> (forall y, In y l -> g y = true -> y = x) ->
  find g l = Some x.
Proof.
  induction l as [|a l IH]; simpl; intros Hin Hx Hu; [contradiction|].
  destruct (g a) eqn:Ea.
  - f_equal. apply Hu; [now left | exact Ea].
  - destruct Hin as [->|Hin]; [congruence|].
    apply IH; [exact Hin | exact Hx |].
    intros y Hy. apply Hu. now right.
Qed.

Lemma in_listed jl j : In j (listed jl) <-> In j jl /\ pid j <> 0.
Proof.
  unfold listed. rewrite filter_In. rewrite negb_true_iff, Z.eqb_neq. tauto.
Qed.

End Lookups.

(** X1.  Insert, then look up.  When the table has a free slot and does not
    hold [p], [addjob] succeeds and a lookup of [p] finds the new entry,
    with the counter value as job id; the lookup of every other pid gives
    what it gave before; and when the counter value was not a job id of the
    table, the lookup by that job id finds the new entry as well. *)
Theorem addjob_then_lookup (s : shell) (p st : Z) (c : string) :
  1 <= p -> In 0 (pids (job_list s)) -> ~ In p (pids (job_list s)) ->
  exists s',
    addjob p st c s = Ret 1 s' /\
    getjobpid (job_list s') p = Some (mkjob p (nextjid s) st c) /\
    pid2jid (job_list s') p = nextjid s /\
    (forall q, q <> p ->
       getjobpid (job_list s') q = getjobpid (job_list s) q) /\
    (1 <= nextjid s -> ~ In (nextjid s) (jids (job_list s)) ->
     getjobjid (job_list s') (nextjid s) = Some (mkjob p (nextjid s) st c) /\
     jid2pid (job_list s') (nextjid s) = p).
Proof.
  intros Hp Hfree Hnew.
  destruct (first_slot_of _ _ Hfree) as [l1 [f [l2 [Hjl [Hl1 Hf]]]]].
  exists (after_addjob (l1 ++ mkjob p (nextjid s) st c :: l2) p c s).
  split; [apply (addjob_free s l1 f l2); assumption|].
  rewrite after_addjob_job_list.
  set (j := mkjob p (nextjid s) st c).
  assert (Hp1 : ~ In (pid j) (pids l1)).
  { rewrite Hjl, pids_app in Hnew. now apply not_in_app_l in Hnew. }
  split; [|split; [|split]].
  - unfold getjobpid.
    replace (p <? 1) with false by (symmetry; apply Z.ltb_ge; lia).
    apply find_first; [now apply not_in_pids | apply Z.eqb_refl].
  - apply (pid2jid_first l1 j l2); assumption.
  - intros q Hq. rewrite Hjl. unfold getjobpid.
    destruct (q <? 1) eqn:Eq; [reflexivity|]. apply Z.ltb_ge in Eq.
    apply find_pid_swap; simpl; lia.
  - intros Hn Hfresh.
    assert (Hj1 : ~ In (jid j) (jids l1)).
    { rewrite Hjl, jids_app in Hfresh. now apply not_in_app_l in Hfresh. }
    assert (Hfind : find (fun x => jid x =? nextjid s) (l1 ++ j :: l2) = Some j).
    { apply find_first; [now apply not_in_jids | apply Z.eqb_refl]. }
    unfold getjobjid, jid2pid. rewrite Hfind.
    replace (nextjid s <? 1) with false by (symmetry; apply Z.ltb_ge; lia).
    split; reflexivity.
Qed.

Lemma addjob_then_lookup_witness :
  exists s',
    addjob 7 BG "sleep 5 &" (init_shell 0) = Ret 1 s' /\
    getjobpid (job_list s') 7 = Some (mkjob 7 1 BG "sleep 5 &") /\
    pid2jid (job_list s') 7 = 1.
Proof.
  destruct (addjob_then_lookup (init_shell 0) 7 BG "sleep 5 &")
    as [s' [H1 [H2 [H3 _]]]].
  - lia.
  - vm_compute. tauto.
  - vm_compute. intuition discriminate.
  - exists s'. repeat split; assumption.
Defined.

(** X2.  Delete, then look up.  [deletejob] of a pid the table holds
    succeeds; the lookup of every other pid gives what it gave before; and
    when the live pids of the table are pairwise distinct, [p] is gone:
    no lookup finds it any more. *)
Theorem deletejob_then_lookup (s : shell) (p : Z) :
  1 <= p -> In p (pids (job_list s)) ->
  exists s',
    deletejob p s = Ret 1 s' /\
    (forall q, q <> p ->
       getjobpid (job_list s') q = getjobpid (job_list s) q /\
       pid2jid (job_list s') q = pid2jid (job_list s) q) /\
    (NoDup (pids (listed (job_list s))) ->
     ~ In p (pids (job_list s')) /\
     getjobpid (job_list s') p = None /\
     pid2jid (job_list s') p = 0).
Proof.
  intros Hp Hin.
  destruct (first_slot_of _ _ Hin) as [l1 [j [l2 [Hjl [Hl1 Hj]]]]].
  eexists. split; [apply (deletejob_present s l1 j l2); assumption|].
  simpl job_list. split.
  - intros q Hq. rewrite Hjl. unfold getjobpid, pid2jid.
    destruct (q <? 1) eqn:Eq; [split; reflexivity|]. apply Z.ltb_ge in Eq.
    rewrite (find_pid_swap l1 blank j l2 q) by (simpl; lia).
    split; reflexivity.
  - intros Hnd.
    assert (Hgone : ~ In p (pids (l1 ++ blank :: l2))).
    { rewrite Hjl, listed_held, pids_app in Hnd by lia.
      simpl in Hnd. rewrite Hj in Hnd. apply NoDup_remove_2 in Hnd.
      rewrite pids_app. simpl. intros H. apply in_app_or in H.
      destruct H as [H|[H|H]].
      - now apply (neq_not_in_pids l1 p).
      - lia.
      - apply Hnd. apply in_or_app. right. apply in_pids_listed; [lia | exact H]. }
    split; [exact Hgone|]. split.
    + unfold getjobpid. destruct (p <? 1); [reflexivity|].
      now apply find_pid_absent.
    + now apply pid2jid_absent.
Qed.

Lemma deletejob_then_lookup_witness :
  exists s',
    deletejob 101 (final_state (run [bg_launch 101; bg_launch 102] (init_shell 0)))
    = Ret 1 s' /\
    getjobpid (job_list s') 101 = None /\
    getjobpid (job_list s') 102 = Some (mkjob 102 2 BG "sleep 100 &").
Proof.
  destruct (deletejob_then_lookup
              (final_state (run [bg_launch 101; bg_launch 102] (init_shell 0))) 101)
    as [s' [H1 [H2 H3]]].
  - lia.
  - vm_compute. tauto.
  - exists s'. split; [exact H1|]. split.
    + apply H3. vm_compute. repeat constructor; simpl; intuition discriminate.
    + rewrite (proj1 (H2 102 ltac:(lia))). reflexivity.
Defined.

(** X3.  Insert, then delete.  On a table whose free slots are cleared
    and which does not hold [p], [addjob] followed by [deletejob] gives
    the table back as it was.  The counter is not given back: it is set to
    the largest job id of the table plus 1. *)
Theorem addjob_then_deletejob (s : shell) (p st : Z) (c : string) :
  1 <= p ->
  Forall (fun j => pid j = 0 -> j = blank) (job_list s) ->
  In 0 (pids (job_list s)) -> ~ In p (pids (job_list s)) ->
  exists s',
    (addjob p st c ;; deletejob p) s = Ret 1 s' /\
    job_list s' = job_list s /\
    nextjid s' = maxjid (job_list s) + 1.
Proof.
  intros Hp Hclr Hfree Hnew.
  destruct (first_slot_of _ _ Hfree) as [l1 [f [l2 [Hjl [Hl1 Hf]]]]].
  assert (Hblank : f = blank).
  { rewrite Forall_forall in Hclr. apply Hclr; [|exact Hf].
    rewrite Hjl. apply in_or_app. right. now left. }
  subst f.
  rewrite (bind_ret _ _ _ _ _ (addjob_free s l1 blank l2 p st c Hp Hjl Hl1 Hf)).
  eexists. split.
  - apply (deletejob_present _ l1 (mkjob p (nextjid s) st c) l2).
    + exact Hp.
    + apply after_addjob_job_list.
    + apply not_in_pids_neq. rewrite Hjl, pids_app in Hnew.
      now apply not_in_app_l in Hnew.
    + reflexivity.
  - simpl. rewrite Hjl. split; reflexivity.
Qed.

Lemma addjob_then_deletejob_witness :
  exists s',
    (addjob 7 FG "ls" ;; deletejob 7) (init_shell 0) = Ret 1 s' /\
    job_list s' = job_list (init_shell 0) /\
    nextjid s' = maxjid (job_list (init_shell 0)) + 1.
Proof.
  apply (addjob_then_deletejob (init_shell 0) 7 FG "ls").
  - lia.
  - apply Forall_forall. intros j Hj. apply repeat_spec in Hj. now subst.
  - vm_compute. tauto.
  - vm_compute. intuition discriminate.
Defined.

(** X4.  [maxjid] is the largest job id of the table: no job id is above
    it, and it is one of the job ids unless it is 0, its value on a table
    without a positive job id. *)
Theorem maxjid_is_largest (jl : list job_t) :
  Forall (fun j => jid j <= maxjid jl) jl /\
  (maxjid jl = 0 \/ In (maxjid jl) (jids jl)) /\
  (Forall (fun j => jid j <= 0) jl -> maxjid jl = 0).
Proof.
  split; [apply maxjid_bound|]. split; [apply maxjid_in|].
  intros Hle. destruct (maxjid_in jl) as [H|H]; [exact H|].
  unfold jids in H. apply in_map_iff in H. destruct H as [j [Hj Hin]].
  rewrite Forall_forall in Hle. specialize (Hle j Hin).
  pose proof (maxjid_nonneg jl). lia.
Qed.

Lemma maxjid_is_largest_witness : maxjid initjobs = 0.
Proof.
  apply (maxjid_is_largest initjobs).
  apply Forall_forall. intros j Hj. apply repeat_spec in Hj. subst. simpl. lia.
Defined.

(** X5.  [fgpid] returns the pid of the first slot in state FG, and 0 when
    no slot is in that state. *)
Theorem fgpid_first_foreground :
  (forall jl, Forall (fun j => state j <> FG) jl -> fgpid jl = 0) /\
  (forall l1 j l2,
      Forall (fun j => state j <> FG) l1 -> state j = FG ->
      fgpid (l1 ++ j :: l2) = pid j).
Proof.
  split.
  - induction 1 as [|j jl Hj _ IH]; simpl; [reflexivity|].
    apply Z.eqb_neq in Hj. now rewrite Hj.
  - intros l1 j l2 Hl1 Hj. induction Hl1 as [|y l1 Hy _ IH]; simpl.
    + now rewrite Hj.
    + apply Z.eqb_neq in Hy. now rewrite Hy.
Qed.

Lemma fgpid_first_foreground_witness :
  fgpid initjobs = 0 /\
  fgpid ([mkjob 5 1 BG "a &"] ++ mkjob 6 2 FG "b" :: [mkjob 7 3 FG "c"]) = 6.
Proof.
  destruct fgpid_first_foreground as [H0 H1]. split.
  - apply H0. apply Forall_forall. intros j Hj. apply repeat_spec in Hj.
    subst. discriminate.
  - apply (H1 [mkjob 5 1 BG "a &"] (mkjob 6 2 FG "b") [mkjob 7 3 FG "c"]).
    + repeat constructor. discriminate.
    + reflexivity.
Defined.

(** X6.  On a well-formed table whose live pids are pairwise distinct
    and whose live job ids are pairwise distinct, the two lookups find
    every live job, and [pid2jid] and [jid2pid] are inverse to each other
    on the live jobs. *)
Theorem pid_jid_round_trip (jl : list job_t) (j : job_t) :
  Forall slot_ok jl ->
  NoDup (pids (listed jl)) -> NoDup (live_jids jl) ->
  In j (listed jl) ->
  getjobpid jl (pid j) = Some j /\
  getjobjid jl (jid j) = Some j /\
  jid2pid jl (pid2jid jl (pid j)) = pid j /\
  pid2jid jl (jid2pid jl (jid j)) = jid j.
Proof.
  intros Hok Hpids Hjids Hj.
  rewrite Forall_forall in Hok.
  pose proof (proj1 (in_listed jl j) Hj) as [Hin Hlive].
  assert (Hp : 1 <= pid j /\ 1 <= jid j).
  { destruct (Hok j Hin) as [[H _]|H]; [contradiction | exact H]. }
  assert (Hfp : find (fun x => pid x =? pid j) jl = Some j).
  { apply find_only; [exact Hin | apply Z.eqb_refl |].
    intros y Hy E. apply Z.eqb_eq in E.
    apply (NoDup_map_same pid (listed jl)); try assumption.
    apply in_listed. split; [exact Hy | lia]. }
  assert (Hfj : find (fun x => jid x =? jid j) jl = Some j).
  { apply find_only; [exact Hin | apply Z.eqb_refl |].
    intros y Hy E. apply Z.eqb_eq in E.
    apply (NoDup_map_same jid (listed jl)); try assumption.
    apply in_listed. split; [exact Hy|].
    destruct (Hok y Hy) as [[_ H]|[H _]]; lia. }
  unfold getjobpid, getjobjid, pid2jid, jid2pid.
  replace (pid j <? 1) with false by (symmetry; apply Z.ltb_ge; lia).
  replace (jid j <? 1) with false by (symmetry; apply Z.ltb_ge; lia).
  rewrite Hfp, Hfj. cbv iota.
  replace (pid j <? 1) with false by (symmetry; apply Z.ltb_ge; lia).
  rewrite Hfp.
  repeat split; reflexivity.
Qed.

Lemma pid_jid_round_trip_witness :
  jid2pid (job_list (final_state (run [bg_launch 101; bg_launch 102] (init_shell 0))))
          (pid2jid (job_list (final_state
                                (run [bg_launch 101; bg_launch 102] (init_shell 0))))
                   102)
  = 102.
Proof.
  apply (pid_jid_round_trip
           (job_list (final_state (run [bg_launch 101; bg_launch 102] (init_shell 0))))
           (mkjob 102 2 BG "sleep 100 &")).
  - apply Forall_forall. intros j Hj. vm_compute in Hj.
    repeat (destruct Hj as [<-|Hj]; [vm_compute; intuition discriminate|]).
    contradiction.
  - vm_compute. repeat constructor; simpl; intuition discriminate.
  - vm_compute. repeat constructor; simpl; intuition discriminate.
  - vm_compute. tauto.
Defined.

Section RunInvariant.

Lemma run_preserves (P : shell -> Prop) :
  (forall a, preserves P (perform a)) -> forall acts, preserves P (run acts).
Proof.
  intros HP acts. induction acts as [|a acts IH]; simpl.
  - apply preserves_ret.
  - apply preserves_bind; [apply HP | intros _; exact IH].
Qed.

End RunInvariant.

(** X7.  The shape of the job table is an invariant of the shell.
    Whatever lines are evaluated and whatever signals are handled, and also
    when the run ends in an exit, the table has [MAXJOBS] slots, every
    slot is free with pid 0 and job id 0 or holds a job with a positive pid
    and a positive job id, and the counter [nextjid] is positive. *)
Theorem table_shape_invariant (v : Z) (acts : list action) :
  table_ok (final_state (run acts (init_shell v))).
Proof.
  apply (run_preserves table_ok perform_table_ok acts).
  apply table_ok_init.
Qed.

(** * The jobs builtin *)

Section JobsBuiltin.

Lemma state_label_known i j : known_state j -> state_label i j = state_name (state j).
Proof.
  unfold state_label, state_name. intros [H|[H|H]]; rewrite H; reflexivity.
Qed.

Lemma listjobs_scan_out jl :
  forall i fd s,
    0 <= fd -> Forall known_state (listed jl) ->
    exists s',
      listjobs_scan jl i fd s = Ret tt s' /\
      job_list s' = job_list s /\ trace s' = trace s /\
      sigmask s' = sigmask s /\
      out s' = out s ++ flat_map (job_line fd) (listed jl).
Proof.
  induction jl as [|j jl IH]; intros i fd s Hfd Hst.
  - exists s. simpl. rewrite app_nil_r. repeat split.
  - cbn [listjobs_scan]. unfold bind at 1.
    cbn [listed filter] in Hst |- *.
    destruct (pid j =? 0); cbn [negb] in Hst |- *.
    + unfold ret at 1. apply IH; assumption.
    + inversion Hst as [|? ? Hj Hst']; subst.
      unfold bind at 1 2. rewrite !checked_write_open by exact Hfd.
      match goal with
      | |- context [listjobs_scan jl (i + 1) fd ?st] =>
          destruct (IH (i + 1) fd st Hfd Hst') as [s' [H1 [H2 [H3 [H4 H5]]]]]
      end.
      exists s'. split; [exact H1|]. repeat split; try assumption.
      rewrite H5. simpl out. rewrite state_label_known by exact Hj.
      cbn [flat_map]. unfold job_line at 2. fold (listed jl).
      rewrite <- !app_assoc. reflexivity.
Qed.

Lemma listjobs_scan_closed jl :
  forall i fd s,
    fd < 0 -> listed jl <> [] ->
    listjobs_scan jl i fd s
    = Halt (Exit 1) (add_out STDERR_FILENO write_error (set_errno EBADF s)).
Proof.
  induction jl as [|j jl IH]; intros i fd s Hfd Hne; [contradiction|].
  cbn [listjobs_scan]. unfold bind at 1.
  cbn [listed filter] in Hne.
  destruct (pid j =? 0); cbn [negb] in Hne |- *.
  - unfold ret at 1. apply IH; assumption.
  - unfold bind at 1 2. unfold checked_write at 1, write.
    replace (fd <? 0) with true by (symmetry; apply Z.ltb_lt; lia).
    reflexivity.
Qed.

Lemma listjobs_scan_nothing jl :
  forall i fd s, listed jl = [] -> listjobs_scan jl i fd s = Ret tt s.
Proof.
  induction jl as [|j jl IH]; intros i fd s He; [reflexivity|].
  cbn [listjobs_scan]. unfold bind at 1. cbn [listed filter] in He.
  destruct (pid j =? 0); cbn [negb] in He |- *; [|discriminate].
  unfold ret at 1. now apply IH.
Qed.

(** How [eval] reaches the body of a builtin command. *)
Lemma eval_builtin_line os line bg tok s :
  parseline line = inr (bg, tok) ->
  builtins tok <> BUILTIN_NONE ->
  argv tok <> [] ->
  eval os line s = (eval_builtin os tok ;; ret tt) (entered os s).
Proof.
  intros Hparse Hb Hargv. unfold eval. rewrite Hparse.
  destruct (argv tok) as [|a0 args] eqn:Eargv; [contradiction|].
  destruct (builtins tok) eqn:Eb; [contradiction| | | |]; reflexivity.
Qed.

End JobsBuiltin.

(** X8.  The [jobs] builtin.  On the standard output, or on a file that
    [open] could open, it writes one entry for every slot with a pid, in
    slot order: job id and pid, the state, the command line; the table is
    left as it is and the shell returns to the prompt.  When [open]
    failed, the first write fails and the shell exits with status 1 after
    "Error writing to output file"; but with an empty table nothing is
    written to the bad descriptor and the shell carries on. *)
Theorem jobs_builtin (os : os_t) (line : string) (bg : Z) (tok : cmdline_tokens)
  (s : shell) :
  parseline line = inr (bg, tok) ->
  builtins tok = BUILTIN_JOBS ->
  argv tok <> [] ->
  Forall known_state (listed (job_list s)) ->
  (0 <= jobs_fd os tok ->
   exists s',
     eval os line s = Ret tt s' /\
     job_list s' = job_list s /\
     out s' = out s ++ flat_map (job_line (jobs_fd os tok)) (listed (job_list s))) /\
  (jobs_fd os tok < 0 -> listed (job_list s) <> [] ->
   exists s',
     eval os line s = Halt (Exit 1) s' /\
     job_list s' = job_list s /\
     out s' = out s ++ [(STDERR_FILENO, write_error)]) /\
  (jobs_fd os tok < 0 -> listed (job_list s) = [] ->
   exists s',
     eval os line s = Ret tt s' /\
     job_list s' = job_list s /\ out s' = out s).
Proof.
  intros Hparse Hb Hargv Hst.
  rewrite (eval_builtin_line os line bg tok s Hparse) by (assumption || congruence).
  unfold eval_builtin. rewrite Hb.
  assert (E : (match outfile tok with
               | Some f => outfile_fd <- open os f O_WRONLY ;;
                           listjobs outfile_fd ;; ret 0
               | None => listjobs STDOUT_FILENO ;; ret 0
               end ;; ret tt) (entered os s)
              = (listjobs (jobs_fd os tok) ;; ret tt)
                  (match outfile tok with
                   | Some f => add_trace (Sys_open f O_WRONLY (os_open os f))
                                         (entered os s)
                   | None => entered os s
                   end)).
  { unfold jobs_fd, open, bind, syscall, modify, ret.
    destruct (outfile tok); destruct (listjobs _ _); reflexivity. }
  rewrite E. clear E.
  set (fd := jobs_fd os tok).
  match goal with |- context [bind _ _ ?st] => set (s0 := st) end.
  assert (Hjl0 : job_list s0 = job_list s)
    by (unfold s0; destruct (outfile tok); reflexivity).
  assert (Hout0 : out s0 = out s)
    by (unfold s0; destruct (outfile tok); reflexivity).
  clearbody s0. unfold listjobs, bind, gets.
  rewrite Hjl0. split; [|split].
  - intros Hfd.
    destruct (listjobs_scan_out (job_list s) 0 fd s0 Hfd Hst)
      as [s1 [H1 [H2 [_ [_ H3]]]]].
    rewrite H1. unfold close_unless_stdout, syscall, modify, ret.
    destruct (negb (fd =? STDOUT_FILENO)); eexists; (split; [reflexivity|]);
      simpl; rewrite H2, H3, Hjl0, Hout0; split; reflexivity.
  - intros Hfd Hne. rewrite (listjobs_scan_closed (job_list s) 0 fd s0 Hfd Hne).
    eexists. split; [reflexivity|]. simpl. rewrite Hjl0, Hout0. split; reflexivity.
  - intros Hfd He. rewrite (listjobs_scan_nothing (job_list s) 0 fd s0 He).
    unfold close_unless_stdout, syscall, modify, ret.
    destruct (negb (fd =? STDOUT_FILENO)); eexists; (split; [reflexivity|]);
      simpl; rewrite Hjl0, Hout0; split; reflexivity.
Qed.

Lemma jobs_builtin_witness :
  exists s',
    eval (parent_os 0 no_wait) "jobs"
         (final_state (run [bg_launch 101] (init_shell 0))) = Ret tt s' /\
    skipn 2 (out s')
    = [(STDOUT_FILENO, "[1] (101) "); (STDOUT_FILENO, "Running    ");
       (STDOUT_FILENO, ("sleep 100 &" ++ nl)%string)].
Proof.
  destruct (jobs_builtin (parent_os 0 no_wait) "jobs" 0
              (mktok ["jobs"] None None BUILTIN_JOBS)
              (final_state (run [bg_launch 101] (init_shell 0))))
    as [H _].
  - reflexivity.
  - reflexivity.
  - discriminate.
  - vm_compute. repeat constructor.
  - destruct H as [s' [H1 [_ H3]]]; [vm_compute; discriminate|].
    exists s'. split; [exact H1|]. rewrite H3. reflexivity.
Defined.

(** * The fg and bg builtins *)

Section Resume.

Lemma job_argument_target tok a s :
  nth_error (argv tok) 1 = Some a ->
  exists i, job_argument tok s = Ret (job_target (job_list s) a, i) s.
Proof.
  intros Ha. unfold job_argument, job_target, bind, gets, ret. rewrite Ha.
  destruct (starts_with "%" a); eexists; reflexivity.
Qed.

Lemma nth_error_1_nonempty {A} (l : list A) a : nth_error l 1 = Some a -> l <> [].
Proof. destruct l; [discriminate | discriminate]. Qed.

Lemma printjob_registered l1 j l2 s :
  holds_job s l1 j l2 ->
  printjob (pid j) STDOUT_FILENO s
  = Ret tt (add_out STDOUT_FILENO (cmdline j ++ nl)%string
              (add_out STDOUT_FILENO
                 ("[" ++ dec (jid j) ++ "] (" ++ dec (pid j) ++ ") ")%string s)).
Proof.
  intros [Hjl [Hpid [Hjid [Hpids Hjids]]]].
  unfold printjob, bind, gets. rewrite Hjl.
  rewrite pid2jid_first by assumption.
  apply Z.eqb_neq in Hjid. rewrite Hjid.
  rewrite buf_of_jid_first by assumption.
  rewrite !checked_write_stdout. reflexivity.
Qed.

(** The [waitpid] calls of a trace depend on its events only. *)
Lemma waits_events tr :
  waits tr = flat_map (fun e => match e with
                                | Sys_waitpid q o _ => [(q, o)]
                                | _ => []
                                end) (map fst tr).
Proof.
  unfold waits. induction tr as [|e tr IH]; simpl; [reflexivity|].
  now rewrite IH.
Qed.

End Resume.

(** X9.  The [fg] builtin on a job of the table sets the state of the job
    to FG, sends SIGCONT to its process group, and returns to the prompt.
    Its system calls are [getpid], the blocking [sigprocmask] and [kill]:
    it does not wait for the job, and it leaves SIGCHLD, SIGINT and
    SIGTSTP blocked. *)
Theorem fg_builtin (os : os_t) (line : string) (bg : Z) (tok : cmdline_tokens)
  (a : string) (s : shell) (l1 : list job_t) (j : job_t) (l2 : list job_t) :
  parseline line = inr (bg, tok) ->
  builtins tok = BUILTIN_FG ->
  nth_error (argv tok) 1 = Some a ->
  holds_job s l1 j l2 ->
  job_target (job_list s) a = pid j ->
  exists s',
    eval os line s = Ret tt s' /\
    job_list s' = l1 ++ mkjob (pid j) (jid j) FG (cmdline j) :: l2 /\
    out s' = out s /\
    map fst (trace s')
    = map fst (trace s)
      ++ [Sys_getpid (os_getpid os); Sys_sigprocmask SIG_BLOCK mask;
          Sys_kill (- pid j) SIGCONT] /\
    sigmask s' = mask ++ sigmask s.
Proof.
  intros Hparse Hb Ha Hj Ht.
  rewrite (eval_builtin_line os line bg tok s Hparse)
    by (congruence || exact (nth_error_1_nonempty _ _ Ha)).
  unfold eval_builtin. rewrite Hb.
  destruct (job_argument_target tok a (entered os s) Ha) as [i Harg].
  change (job_list (entered os s)) with (job_list s) in Harg. rewrite Ht in Harg.
  destruct Hj as [Hjl [Hpid [Hjid [Hpids Hjids]]]].
  unfold bind at 1 2. rewrite Harg. cbn [fst]. unfold bind at 1.
  rewrite (change_job_state_registered l1 j l2 (entered os s)) by assumption.
  eexists. split; [reflexivity|]. simpl.
  rewrite !map_app. simpl. rewrite <- !app_assoc.
  repeat split; reflexivity.
Qed.

Lemma fg_builtin_witness :
  exists s',
    eval (parent_os 0 no_wait) "fg %1"
         (final_state (run [bg_launch 101] (init_shell 0))) = Ret tt s' /\
    getjobpid (job_list s') 101 = Some (mkjob 101 1 FG "sleep 100 &") /\
    waits (trace s') = [].
Proof.
  destruct (fg_builtin (parent_os 0 no_wait) "fg %1" 0
              (mktok ["fg"; "%1"] None None BUILTIN_FG) "%1"
              (final_state (run [bg_launch 101] (init_shell 0)))
              [] (mkjob 101 1 BG "sleep 100 &") (repeat blank 15))
    as [s' [H1 [H2 [_ [H4 _]]]]].
  - reflexivity.
  - reflexivity.
  - reflexivity.
  - repeat split; simpl; try lia; tauto.
  - reflexivity.
  - exists s'. split; [exact H1|]. rewrite H2. split; [reflexivity|].
    rewrite waits_events, H4. reflexivity.
Defined.

(** X10.  The [bg] builtin on a job of the table prints the status line of
    the job, sets its state to BG, sends SIGCONT to its process group and
    returns to the prompt, with SIGCHLD, SIGINT and SIGTSTP left blocked. *)
Theorem bg_builtin (os : os_t) (line : string) (bg : Z) (tok : cmdline_tokens)
  (a : string) (s : shell) (l1 : list job_t) (j : job_t) (l2 : list job_t) :
  parseline line = inr (bg, tok) ->
  builtins tok = BUILTIN_BG ->
  nth_error (argv tok) 1 = Some a ->
  holds_job s l1 j l2 ->
  job_target (job_list s) a = pid j ->
  exists s',
    eval os line s = Ret tt s' /\
    job_list s' = l1 ++ mkjob (pid j) (jid j) BG (cmdline j) :: l2 /\
    out s' = out s ++ status_line j /\
    map fst (trace s')
    = map fst (trace s)
      ++ [Sys_getpid (os_getpid os); Sys_sigprocmask SIG_BLOCK mask;
          Sys_kill (- pid j) SIGCONT] /\
    sigmask s' = mask ++ sigmask s.
Proof.
  intros Hparse Hb Ha Hj Ht.
  rewrite (eval_builtin_line os line bg tok s Hparse)
    by (congruence || exact (nth_error_1_nonempty _ _ Ha)).
  unfold eval_builtin. rewrite Hb.
  destruct (job_argument_target tok a (entered os s) Ha) as [i Harg].
  change (job_list (entered os s)) with (job_list s) in Harg. rewrite Ht in Harg.
  unfold bind at 1 2. rewrite Harg. cbn [fst]. unfold bind at 1.
  rewrite (printjob_registered l1 j l2 (entered os s)) by exact Hj.
  destruct Hj as [Hjl [Hpid [Hjid [Hpids Hjids]]]].
  unfold bind at 1.
  match goal with
  | |- context [change_job_state (pid j) BG ?st] =>
      rewrite (change_job_state_registered l1 j l2 st) by assumption
  end.
  eexists. split; [reflexivity|]. simpl.
  rewrite !map_app. simpl. rewrite <- !app_assoc.
  repeat split; reflexivity.
Qed.

Lemma bg_builtin_witness :
  exists s',
    eval (parent_os 0 no_wait) "bg 100"
         (final_state (run [Line (parent_os 100 (mkwait 100 (W_STOPPED SIGTSTP) 0))
                                 "sleep 5"] (init_shell 0))) = Ret tt s' /\
    getjobpid (job_list s') 100 = Some (mkjob 100 1 BG "sleep 5").
Proof.
  destruct (bg_builtin (parent_os 0 no_wait) "bg 100" 0
              (mktok ["bg"; "100"] None None BUILTIN_BG) "100"
              (final_state (run [Line (parent_os 100 (mkwait 100 (W_STOPPED SIGTSTP) 0))
                                      "sleep 5"] (init_shell 0)))
              [] (mkjob 100 1 ST "sleep 5") (repeat blank 15))
    as [s' [H1 [H2 _]]].
  - reflexivity.
  - reflexivity.
  - reflexivity.
  - repeat split; simpl; try lia; tauto.
  - reflexivity.
  - exists s'. split; [exact H1|]. rewrite H2. reflexivity.
Defined.

(** X11.  [fg] and [bg] on a job that is not in the table end the shell:
    "Job not present in job list" goes to stderr and the process exits
    with status 1, the table untouched.  Without an argument they read
    through the NULL pointer that ends the argument vector. *)
Theorem resume_unknown_job (os : os_t) (line : string) (tok : cmdline_tokens)
  (s : shell) :
  resume_line line tok ->
  (forall a,
      nth_error (argv tok) 1 = Some a ->
      pid2jid (job_list s) (job_target (job_list s) a) = 0 ->
      eval os line s
      = Halt (Exit 1) (add_out STDERR_FILENO job_not_present (entered os s))) /\
  (argv tok <> [] -> nth_error (argv tok) 1 = None ->
   eval os line s = Halt Fault (entered os s)).
Proof.
  intros [[bg Hparse] Hb]. split.
  - intros a Ha Hjid.
    rewrite (eval_builtin_line os line bg tok s Hparse)
      by (destruct Hb; congruence || exact (nth_error_1_nonempty _ _ Ha)).
    destruct (job_argument_target tok a (entered os s) Ha) as [i Harg].
    change (job_list (entered os s)) with (job_list s) in Harg.
    apply Z.eqb_eq in Hjid.
    unfold eval_builtin.
    destruct Hb as [Hb|Hb]; rewrite Hb; unfold bind at 1 2; rewrite Harg;
      cbn [fst]; unfold bind at 1.
    + unfold change_job_state, bind, gets.
      change (job_list (entered os s)) with (job_list s). rewrite Hjid.
      reflexivity.
    + unfold printjob, bind, gets.
      change (job_list (entered os s)) with (job_list s). rewrite Hjid.
      reflexivity.
  - intros Hargv Ha.
    rewrite (eval_builtin_line os line bg tok s Hparse)
      by (destruct Hb; congruence || assumption).
    unfold eval_builtin, job_argument.
    destruct Hb as [Hb|Hb]; rewrite Hb, Ha; reflexivity.
Qed.

Lemma resume_unknown_job_witness :
  eval (parent_os 0 no_wait) "fg %3" (init_shell 0)
  = Halt (Exit 1) (add_out STDERR_FILENO job_not_present
                           (entered (parent_os 0 no_wait) (init_shell 0))) /\
  eval (parent_os 0 no_wait) "bg" (init_shell 0)
  = Halt Fault (entered (parent_os 0 no_wait) (init_shell 0)).
Proof.
  split.
  - apply (proj1 (resume_unknown_job (parent_os 0 no_wait) "fg %3"
                    (mktok ["fg"; "%3"] None None BUILTIN_FG) (init_shell 0)
                    (conj (ex_intro _ 0 eq_refl) (or_introl eq_refl)))
                 "%3"); reflexivity.
  - apply (proj2 (resume_unknown_job (parent_os 0 no_wait) "bg"
                    (mktok ["bg"] None None BUILTIN_BG) (init_shell 0)
                    (conj (ex_intro _ 0 eq_refl) (or_intror eq_refl))));
      [discriminate | reflexivity].
Defined.

(** * What the builtin commands leave alone *)

(** Properties of the state that do not look at [errno], [tsh_pid], the
    job table, the output or the trace survive every builtin command and
    the two forwarding handlers. *)
Section Calm.

Variable P : shell -> Prop.
Hypothesis P_errno : forall e s, P s -> P (set_errno e s).
Hypothesis P_tsh_pid : forall p s, P s -> P (set_tsh_pid p s).
Hypothesis P_job_list : forall jl s, P s -> P (set_job_list jl s).
Hypothesis P_out : forall fd t s, P s -> P (add_out fd t s).
Hypothesis P_trace : forall e s, P s -> P (add_trace e s).

#[local] Hint Resolve P_errno P_tsh_pid P_job_list P_out P_trace : tsh_frame.

Lemma calm_checked_write fd buf : preserves P (checked_write fd buf).
Proof. unfold checked_write, write, eprintf. preserve. Qed.
#[local] Hint Resolve calm_checked_write : tsh_frame.

Lemma calm_close fd : preserves P (close_unless_stdout fd).
Proof. unfold close_unless_stdout, syscall. preserve. Qed.
#[local] Hint Resolve calm_close : tsh_frame.

Lemma calm_listjobs_scan jl : forall i fd, preserves P (listjobs_scan jl i fd).
Proof. induction jl as [|j jl IH]; intros i fd; simpl; preserve. Qed.
#[local] Hint Resolve calm_listjobs_scan : tsh_frame.

Lemma calm_listjobs fd : preserves P (listjobs fd).
Proof. unfold listjobs. preserve. Qed.

Lemma calm_printjob p fd : preserves P (printjob p fd).
Proof. unfold printjob, eprintf. preserve. Qed.

Lemma calm_change_job_state p new_state :
  preserves P (change_job_state p new_state).
Proof. unfold change_job_state, eprintf. preserve. Qed.

Lemma calm_job_argument tok : preserves P (job_argument tok).
Proof. unfold job_argument. preserve. Qed.
#[local] Hint Resolve calm_listjobs calm_printjob calm_change_job_state
  calm_job_argument : tsh_frame.

Lemma calm_eval_builtin os tok : preserves P (eval_builtin os tok).
Proof. unfold eval_builtin, getpid, open, Kill, syscall. preserve. Qed.

Lemma calm_sigint_handler self : preserves P (sigint_handler self).
Proof. unfold sigint_handler, getpid, Kill, syscall. preserve. Qed.

Lemma calm_sigtstp_handler self : preserves P (sigtstp_handler self).
Proof. unfold sigtstp_handler, getpid, Kill, syscall. preserve. Qed.

End Calm.

Section Blocked.

Lemma eval_no_launch os line s :
  launches line = false ->
  exists s1,
    final_state (eval os line s) = s1 /\
    sigmask s1 = mask ++ sigmask s /\
    nextjid s1 = nextjid s /\ fg_pid s1 = fg_pid s.
Proof.
  intros Hl. eexists. split; [reflexivity|].
  set (P := fun s1 => sigmask s1 = mask ++ sigmask s /\
                      nextjid s1 = nextjid s /\ fg_pid s1 = fg_pid s).
  assert (HP : P (entered os s)) by (repeat split).
  assert (Hcalm : forall tok, preserves P (eval_builtin os tok)).
  { intros tok. apply calm_eval_builtin; intros; assumption. }
  change (P (final_state (eval os line s))).
  unfold launches in Hl. unfold eval.
  change ((me <- getpid (os_getpid os) ;;
           modify (set_tsh_pid me) ;;
           Sigprocmask SIG_BLOCK mask ;;
           match parseline line with
           | inl msg => eprintf msg
           | inr (bg, tok) =>
               match argv tok with
               | [] => ret tt
               | _ :: _ =>
                   if negb (is_builtin_none (builtins tok))
                   then eval_builtin os tok ;; ret tt
                   else if is_builtin_none (builtins tok) || (0 =? 1)
                        then eval_external os tok bg 0 line
                        else ret tt
               end
           end) s)
    with (match parseline line with
          | inl msg => eprintf msg
          | inr (bg, tok) =>
              match argv tok with
              | [] => ret tt
              | _ :: _ =>
                  if negb (is_builtin_none (builtins tok))
                  then eval_builtin os tok ;; ret tt
                  else if is_builtin_none (builtins tok) || (0 =? 1)
                       then eval_external os tok bg 0 line
                       else ret tt
              end
          end (entered os s)).
  destruct (parseline line) as [msg|[bg tok]]; [exact HP|].
  destruct (argv tok) as [|a0 args]; [exact HP|].
  rewrite Hl. cbn [negb].
  refine ((_ : preserves P _) (entered os s) HP).
  apply preserves_bind; [apply Hcalm | intros; apply preserves_ret].
Qed.

End Blocked.

(** X12.  A line that launches nothing (a malformed line, a blank line or
    a builtin command) leaves the shell with SIGCHLD, SIGINT and SIGTSTP
    blocked: [eval] blocks them on entry and only the launch of a program
    unblocks them.  This holds in the state in which [eval] returns as
    well as in the one in which a builtin ends the process.  The job id
    counter and the recorded foreground pid are as before. *)
Theorem no_launch_leaves_signals_blocked (os : os_t) (line : string) (s : shell) :
  launches line = false ->
  sigmask (final_state (eval os line s)) = mask ++ sigmask s /\
  sigismember (sigmask (final_state (eval os line s))) SIGCHLD = true /\
  sigismember (sigmask (final_state (eval os line s))) SIGINT = true /\
  sigismember (sigmask (final_state (eval os line s))) SIGTSTP = true /\
  nextjid (final_state (eval os line s)) = nextjid s /\
  fg_pid (final_state (eval os line s)) = fg_pid s.
Proof.
  intros Hl. destruct (eval_no_launch os line s Hl) as [s1 [E [Hm [Hn Hf]]]].
  rewrite E, Hm. repeat split; assumption.
Qed.

Lemma no_launch_leaves_signals_blocked_witness :
  sigismember (sigmask (final_state (eval (parent_os 0 no_wait) "jobs"
                                          (init_shell 0)))) SIGCHLD = true.
Proof.
  apply (no_launch_leaves_signals_blocked (parent_os 0 no_wait) "jobs"
           (init_shell 0)).
  reflexivity.
Defined.

(** * Launches *)

Section LaunchMasks.

Lemma unblock_mask_all m :
  all_unblocked (filter (fun x => negb (sigismember mask x)) m).
Proof. repeat split; apply unblocked_not_member; reflexivity. Qed.

Lemma sigismember_filter set m sig :
  sigismember set sig = false ->
  sigismember (filter (fun x => negb (sigismember set x)) m) sig
  = sigismember m sig.
Proof.
  intros Hset. unfold sigismember at 1 3.
  induction m as [|x m IH]; simpl; [reflexivity|].
  destruct (sigismember set x) eqn:Ex; simpl.
  - rewrite IH. destruct (sig =? x) eqn:E; [|reflexivity].
    apply Z.eqb_eq in E. subst. congruence.
  - now rewrite IH.
Qed.

(** The state after the foreground wait for a job that has ended. *)
Lemma eval_wait_ended os l1 j l2 s :
  holds_job s l1 j l2 ->
  w_ret (os_waitpid os) = pid j ->
  WIFSTOPPED (w_status (os_waitpid os)) = false ->
  exists s',
    eval_wait os (pid j) s = Ret tt s' /\
    sigmask s' = filter (fun x => negb (sigismember mask x)) (sigmask s) /\
    fg_pid s' = fg_pid s /\ tsh_pid s' = tsh_pid s /\
    job_list s' = l1 ++ blank :: l2.
Proof.
  intros [Hjl [Hpid [Hjid [Hpids Hjids]]]] Hret Hst.
  rewrite (eval_wait_enter os j s) by assumption.
  rewrite Hst. unfold bind at 1 2.
  assert (Hprint : exists s1,
             (if WIFSIGNALED (w_status (os_waitpid os))
              then print_sigint_job (pid j) (WTERMSIG (w_status (os_waitpid os)))
                                    STDOUT_FILENO
              else ret tt) (waited os (pid j) s) = Ret tt s1 /\
             job_list s1 = job_list s /\ sigmask s1 = sigmask s /\
             fg_pid s1 = fg_pid s /\ tsh_pid s1 = tsh_pid s).
  { destruct (WIFSIGNALED (w_status (os_waitpid os))).
    - rewrite (print_sigint_job_registered l1 j l2 (waited os (pid j) s))
        by assumption.
      eexists. split; [reflexivity|]. repeat split.
    - eexists. split; [reflexivity|]. repeat split. }
  destruct Hprint as [s1 [Hpr [Hjl1 [Hm1 [Hf1 Ht1]]]]]. rewrite Hpr.
  unfold bind at 1.
  rewrite (deletejob_registered l1 j l2 s1) by congruence.
  eexists. split; [reflexivity|]. simpl. rewrite Hm1. repeat split; assumption.
Qed.

(** A registered foreground launch up to its wait. *)
Lemma eval_fg_registered os line tok s l1 f l2 :
  parseline line = inr (0, tok) ->
  builtins tok = BUILTIN_NONE ->
  argv tok <> [] ->
  registers s (os_fork os) l1 f l2 ->
  exists s2,
    eval os line s = eval_wait os (os_fork os) s2 /\
    holds_job s2 l1 (mkjob (os_fork os) (nextjid s) FG line) l2 /\
    sigmask s2
    = filter (fun x => negb (sigismember mask2 x)) (mask ++ sigmask s) /\
    fg_pid s2 = os_fork os /\ tsh_pid s2 = os_getpid os.
Proof.
  intros Hparse Hb Hargv [Hp [Hjl [Hl1 [Hf [Hpids [Hn Hjids]]]]]].
  set (p := os_fork os) in *.
  rewrite (eval_fg_parent os line tok s Hparse Hb Hargv) by (fold p; lia).
  fold p.
  assert (Hadd := addjob_free (forked os s) l1 f l2 p FG line Hp Hjl Hl1 Hf).
  unfold bind at 1. rewrite Hadd. clear Hadd.
  unfold bind at 1. unfold modify at 1.
  unfold bind at 1. rewrite Sigprocmask_unblock.
  eexists. split; [reflexivity|].
  rewrite Hjl in Hpids, Hjids.
  split; [|split; [|split]].
  - split; [simpl job_list; now rewrite after_addjob_job_list|].
    split; [exact Hp|]. split; [exact Hn|]. split.
    + rewrite pids_app in Hpids. now apply not_in_app_l in Hpids.
    + rewrite jids_app in Hjids. now apply not_in_app_l in Hjids.
  - unfold after_addjob. simpl. destruct (verbose s =? 0); reflexivity.
  - reflexivity.
  - unfold after_addjob. simpl. destruct (verbose s =? 0); reflexivity.
Qed.

End LaunchMasks.

(** X13.  The signal mask after a foreground launch.  When the job has
    ended (it exited or was killed), [eval] returns with SIGCHLD, SIGINT
    and SIGTSTP unblocked.  When the job was stopped, [eval] returns with
    SIGINT and SIGTSTP unblocked and SIGCHLD still blocked.  In every case
    the pid of the job stays recorded as the foreground pid after the
    wait is over. *)
Theorem foreground_launch_mask
  (os : os_t) (line : string) (tok : cmdline_tokens) (s : shell)
  (l1 : list job_t) (f : job_t) (l2 : list job_t) :
  parseline line = inr (0, tok) ->
  builtins tok = BUILTIN_NONE ->
  argv tok <> [] ->
  registers s (os_fork os) l1 f l2 ->
  w_ret (os_waitpid os) = os_fork os ->
  exists s',
    eval os line s = Ret tt s' /\
    fg_pid s' = os_fork os /\
    if WIFSTOPPED (w_status (os_waitpid os))
    then sigismember (sigmask s') SIGCHLD = true /\
         sigismember (sigmask s') SIGINT = false /\
         sigismember (sigmask s') SIGTSTP = false
    else all_unblocked (sigmask s').
Proof.
  intros Hparse Hb Hargv Hreg Hret.
  destruct (eval_fg_registered os line tok s l1 f l2 Hparse Hb Hargv Hreg)
    as [s2 [Hev [Hj [Hm2 [Hf2 _]]]]].
  rewrite Hev. clear Hev.
  set (p := os_fork os) in *. set (j := mkjob p (nextjid s) FG line) in *.
  destruct (WIFSTOPPED (w_status (os_waitpid os))) eqn:Est.
  - destruct (w_status (os_waitpid os)) as [code|sig|sig] eqn:Ew;
      try discriminate.
    destruct Hj as [Hjl2 [Hp [Hn [Hp1 Hj1]]]].
    eexists. split.
    + apply (eval_wait_stopped os l1 j l2 s2 Hjl2 Hp Hn Hp1 Hj1 Hret sig Ew).
    + simpl. rewrite Hm2. split; [exact Hf2|].
      split; [reflexivity|].
      split; apply unblocked_not_member; reflexivity.
  - destruct (eval_wait_ended os l1 j l2 s2 Hj Hret Est)
      as [s' [Hev [Hm' [Hf' _]]]].
    exists s'. split; [exact Hev|]. split; [congruence|].
    rewrite Hm'. apply unblock_mask_all.
Qed.

Lemma foreground_launch_mask_witness :
  exists s',
    eval (parent_os 100 (mkwait 100 (W_STOPPED SIGTSTP) 0)) "sleep 5"
         (init_shell 0) = Ret tt s' /\
    fg_pid s' = 100 /\
    sigismember (sigmask s') SIGCHLD = true.
Proof.
  destruct (foreground_launch_mask
              (parent_os 100 (mkwait 100 (W_STOPPED SIGTSTP) 0)) "sleep 5"
              (mktok ["sleep"; "5"] None None BUILTIN_NONE) (init_shell 0)
              [] blank (repeat blank 15))
    as [s' [H1 [H2 H3]]].
  - reflexivity.
  - reflexivity.
  - discriminate.
  - repeat split; simpl; try lia; try constructor; vm_compute; intuition discriminate.
  - reflexivity.
  - exists s'. split; [exact H1|]. split; [exact H2|]. apply H3.
Defined.

Section BackgroundState.

Variables (os : os_t) (line : string) (jl' : list job_t) (s : shell).

Lemma bg_registered_job_list : job_list (bg_registered os line jl' s) = jl'.
Proof.
  unfold bg_registered, unblocked. simpl job_list. apply after_addjob_job_list.
Qed.

Lemma bg_registered_out :
  out (bg_registered os line jl' s) = out s ++ launch_out s (os_fork os) line.
Proof.
  unfold bg_registered, unblocked, after_addjob, launch_out. simpl.
  destruct (verbose s =? 0); simpl; [now rewrite app_nil_r | reflexivity].
Qed.

Lemma bg_registered_trace :
  map fst (trace (bg_registered os line jl' s))
  = map fst (trace s)
    ++ [Sys_getpid (os_getpid os); Sys_sigprocmask SIG_BLOCK mask;
        Sys_fork (os_fork os); Tbl_addjob (os_fork os);
        Sys_sigprocmask SIG_UNBLOCK mask2; Sys_sigprocmask SIG_UNBLOCK mask].
Proof.
  unfold bg_registered, unblocked, after_addjob. simpl.
  destruct (verbose s =? 0); simpl; rewrite !map_app; simpl;
    rewrite <- !app_assoc; reflexivity.
Qed.

Lemma bg_registered_mask : all_unblocked (sigmask (bg_registered os line jl' s)).
Proof. unfold bg_registered, unblocked. simpl sigmask. apply unblock_mask_all. Qed.

End BackgroundState.

Section BackgroundStatus.

(** A registered background launch up to its status line. *)
Lemma eval_bg_state os line s l1 f l2 :
  background_launch (os, line) ->
  job_list s = l1 ++ f :: l2 ->
  Forall (fun j => pid j <> 0) l1 -> pid f = 0 ->
  eval os line s
  = printjob (os_fork os) STDOUT_FILENO
      (bg_registered os line
         (l1 ++ mkjob (os_fork os) (nextjid s) BG line :: l2) s).
Proof.
  intros [Hp [tok [Hparse [Hb Hargv]]]] Hjl Hl1 Hf.
  simpl in Hp, Hparse.
  rewrite (eval_bg_parent os line tok s Hparse Hb Hargv) by lia.
  assert (Hadd := addjob_free (forked os s) l1 f l2 (os_fork os) BG line
                              Hp Hjl Hl1 Hf).
  unfold bind at 1. rewrite Hadd. clear Hadd.
  unfold bind at 1. rewrite Sigprocmask_unblock.
  unfold bind at 1. rewrite Sigprocmask_unblock.
  reflexivity.
Qed.

Lemma printjob_status l1 j l2 s2 :
  holds_job s2 l1 j l2 ->
  exists s',
    printjob (pid j) STDOUT_FILENO s2 = Ret tt s' /\
    job_list s' = job_list s2 /\
    out s' = out s2 ++ status_line j /\
    trace s' = trace s2 /\ sigmask s' = sigmask s2.
Proof.
  intros Hj. rewrite (printjob_registered l1 j l2 s2 Hj).
  eexists. split; [reflexivity|]. simpl. rewrite <- app_assoc.
  repeat split.
Qed.

End BackgroundStatus.

(** X14.  A background launch that is registered in the job table prints
    the status line of the new job and returns to the prompt at once: the
    parent makes no [waitpid] call, its system calls after the [fork] are
    the two unblocking [sigprocmask] calls, and it returns with SIGCHLD,
    SIGINT and SIGTSTP unblocked. *)
Theorem background_launch_returns
  (os : os_t) (line : string) (s : shell)
  (l1 : list job_t) (f : job_t) (l2 : list job_t) :
  background_launch (os, line) ->
  registers s (os_fork os) l1 f l2 ->
  exists s',
    eval os line s = Ret tt s' /\
    job_list s' = l1 ++ mkjob (os_fork os) (nextjid s) BG line :: l2 /\
    out s' = out s ++ launch_out s (os_fork os) line
             ++ status_line (mkjob (os_fork os) (nextjid s) BG line) /\
    map fst (trace s')
    = map fst (trace s)
      ++ [Sys_getpid (os_getpid os); Sys_sigprocmask SIG_BLOCK mask;
          Sys_fork (os_fork os); Tbl_addjob (os_fork os);
          Sys_sigprocmask SIG_UNBLOCK mask2; Sys_sigprocmask SIG_UNBLOCK mask] /\
    all_unblocked (sigmask s').
Proof.
  intros Hbg [Hp [Hjl [Hl1 [Hf [Hpids [Hn Hjids]]]]]].
  rewrite (eval_bg_state os line s l1 f l2 Hbg Hjl Hl1 Hf).
  set (j := mkjob (os_fork os) (nextjid s) BG line).
  set (s2 := bg_registered os line (l1 ++ j :: l2) s).
  rewrite Hjl in Hpids, Hjids.
  assert (Hj : holds_job s2 l1 j l2).
  { split; [apply bg_registered_job_list|]. split; [exact Hp|].
    split; [exact Hn|]. split.
    - rewrite pids_app in Hpids. now apply not_in_app_l in Hpids.
    - rewrite jids_app in Hjids. now apply not_in_app_l in Hjids. }
  destruct (printjob_status l1 j l2 s2 Hj) as [s' [Hpr [Hjl' [Hout' [Htr' Hm']]]]].
  exists s'. split; [exact Hpr|].
  rewrite Hjl', Hout', Htr', Hm'. unfold s2.
  rewrite bg_registered_job_list, bg_registered_out, bg_registered_trace,
    <- app_assoc.
  split; [reflexivity|]. split; [reflexivity|]. split; [reflexivity|].
  apply bg_registered_mask.
Qed.

Lemma background_launch_returns_witness :
  exists s',
    eval (parent_os 101 no_wait) "sleep 100 &" (init_shell 0) = Ret tt s' /\
    out s' = status_line (mkjob 101 1 BG "sleep 100 &") /\
    waits (trace s') = [].
Proof.
  destruct (background_launch_returns (parent_os 101 no_wait) "sleep 100 &"
              (init_shell 0) [] blank (repeat blank 15))
    as [s' [H1 [_ [H3 [H4 _]]]]].
  - split; [simpl; lia|].
    exists (mktok ["sleep"; "100"] None None BUILTIN_NONE).
    repeat split; discriminate.
  - repeat split; simpl; try lia; try constructor; vm_compute; intuition discriminate.
  - exists s'. split; [exact H1|]. split; [exact H3|].
    rewrite waits_events, H4. reflexivity.
Defined.

Section Child.

Lemma eval_child_trace os tok job_state line s :
  os_execve os = None ->
  exists s',
    eval_child os tok job_state line s
    = Halt (Exec (nth 0 (argv tok) EmptyString) (argv tok)) s' /\
    map fst (trace s')
    = map fst (trace s)
      ++ [Sys_setpgid 0 0; Sys_signal_dfl SIGINT;
          Sys_getpid (os_child_pid os); Tbl_addjob (os_child_pid os)]
      ++ redirections os tok
      ++ [Sys_sigprocmask SIG_UNBLOCK mask;
          Sys_execve (nth 0 (argv tok) EmptyString) (argv tok)] /\
    sigmask s' = filter (fun x => negb (sigismember mask x)) (sigmask s).
Proof.
  intros Hexec. unfold eval_child.
  unfold bind at 1 2 3 4 5. unfold syscall at 1 2 3, getpid, modify at 1 2 3.
  unfold bind at 1 2. unfold syscall at 1, modify at 1, ret at 1.
  match goal with
  | |- context [addjob _ _ _ ?st] => set (s1 := st)
  end.
  destruct (addjob_frame (os_child_pid os) job_state line s1)
    as [r [s2 [Hadd [Htr2 Hm2]]]].
  rewrite Hadd.
  assert (Htr1 : map fst (trace s2)
                 = map fst (trace s)
                   ++ [Sys_setpgid 0 0; Sys_signal_dfl SIGINT;
                       Sys_getpid (os_child_pid os);
                       Tbl_addjob (os_child_pid os)]).
  { rewrite Htr2. unfold s1. simpl. rewrite !map_app. simpl.
    rewrite <- !app_assoc. reflexivity. }
  assert (Hm1 : sigmask s2 = sigmask s) by (rewrite Hm2; reflexivity).
  clear Hadd Htr2 Hm2. clearbody s1. clear s1.
  unfold Execve, redirections, open, Sigprocmask, bind, syscall, modify, gets, ret.
  rewrite Hexec.
  destruct (infile tok) as [fi|]; destruct (outfile tok) as [fo|];
    (eexists; split; [reflexivity|]); simpl;
    rewrite ?map_app, Htr1, Hm1; simpl; rewrite <- ?app_assoc;
    split; reflexivity.
Qed.

End Child.

(** X15.  The child of a launch whose [execve] succeeds.  After the
    [fork] it puts itself into a process group of its own, restores the
    default action of SIGINT, registers itself in its copy of the job
    table, opens the redirection targets and installs them as descriptors
    0 and 1, unblocks SIGCHLD, SIGINT and SIGTSTP, and only then calls
    [execve] with the first argument as the program: the program starts
    with none of the three signals blocked. *)
Theorem child_execs_program
  (os : os_t) (line : string) (bg : Z) (tok : cmdline_tokens) (s : shell) :
  parseline line = inr (bg, tok) ->
  builtins tok = BUILTIN_NONE ->
  argv tok <> [] ->
  os_fork os = 0 ->
  os_execve os = None ->
  exists s',
    eval os line s = Halt (Exec (hd EmptyString (argv tok)) (argv tok)) s' /\
    map fst (trace s')
    = map fst (trace s)
      ++ [Sys_getpid (os_getpid os); Sys_sigprocmask SIG_BLOCK mask; Sys_fork 0;
          Sys_setpgid 0 0; Sys_signal_dfl SIGINT;
          Sys_getpid (os_child_pid os); Tbl_addjob (os_child_pid os)]
      ++ redirections os tok
      ++ [Sys_sigprocmask SIG_UNBLOCK mask;
          Sys_execve (hd EmptyString (argv tok)) (argv tok)] /\
    all_unblocked (sigmask s').
Proof.
  intros Hparse Hb Hargv Hfork Hexec.
  assert (E : eval os line s
              = (eval_child os tok (if (if 0 =? 1 then 0 else bg) =? 0
                                    then FG else BG) line ;;
                 syscall (Tbl_addjob 0) ;;
                 addjob 0 (if (if 0 =? 1 then 0 else bg) =? 0 then FG else BG) line ;;
                 (if (if 0 =? 1 then 0 else bg) =? 0
                  then modify (set_fg_pid 0) else ret tt) ;;
                 Sigprocmask SIG_UNBLOCK mask2 ;;
                 if (if 0 =? 1 then 0 else bg) =? 0 then eval_wait os 0
                 else Sigprocmask SIG_UNBLOCK mask ;; printjob 0 STDOUT_FILENO)
                  (add_trace (Sys_fork 0) (entered os s))).
  { unfold eval. rewrite Hparse.
    destruct (argv tok) as [|a0 args] eqn:Eargv; [contradiction|].
    rewrite Hb. unfold eval_external, Fork. rewrite Hfork. reflexivity. }
  rewrite E. clear E.
  destruct (eval_child_trace os tok (if (if 0 =? 1 then 0 else bg) =? 0
                                     then FG else BG) line
              (add_trace (Sys_fork 0) (entered os s)) Hexec)
    as [s' [Hch [Htr Hm]]].
  rewrite (bind_halt _ _ _ _ _ Hch).
  assert (Hhd : nth 0 (argv tok) EmptyString = hd EmptyString (argv tok))
    by (destruct (argv tok); reflexivity).
  rewrite Hhd in *.
  exists s'. split; [reflexivity|]. split.
  - rewrite Htr. simpl. rewrite !map_app. simpl. rewrite <- !app_assoc.
    reflexivity.
  - rewrite Hm. apply unblock_mask_all.
Qed.

Lemma child_execs_program_witness :
  exists s',
    eval (mkos 10 true 0 200 (fun _ => 3) None no_wait) "sort < in > out"
         (init_shell 0)
    = Halt (Exec "sort" ["sort"]) s' /\
    all_unblocked (sigmask s').
Proof.
  destruct (child_execs_program (mkos 10 true 0 200 (fun _ => 3) None no_wait)
              "sort < in > out" 0
              (mktok ["sort"] (Some "in") (Some "out") BUILTIN_NONE)
              (init_shell 0))
    as [s' [H1 [_ H3]]]; try reflexivity; try discriminate.
  exists s'. split; [exact H1 | exact H3].
Defined.

(** X16.  The foreground pid outlives the job.  After a foreground job
    has ended and its slot has been cleared, the shell still has the pid
    of that job as its foreground pid: a SIGINT or SIGTSTP that reaches the
    shell at the prompt is forwarded to the process group of the job that
    is gone.  The handlers leave the job table as it is. *)
Theorem interrupt_after_foreground_job
  (os : os_t) (line : string) (tok : cmdline_tokens) (s : shell)
  (l1 : list job_t) (f : job_t) (l2 : list job_t) :
  parseline line = inr (0, tok) ->
  builtins tok = BUILTIN_NONE ->
  argv tok <> [] ->
  registers s (os_fork os) l1 f l2 ->
  w_ret (os_waitpid os) = os_fork os ->
  WIFSTOPPED (w_status (os_waitpid os)) = false ->
  exists s',
    eval os line s = Ret tt s' /\
    ~ In (os_fork os) (pids (job_list s')) /\
    sigint_handler (os_getpid os) s'
    = Ret tt (add_trace (Sys_kill (- os_fork os) SIGINT)
                (add_trace (Sys_getpid (os_getpid os)) s')) /\
    sigtstp_handler (os_getpid os) s'
    = Ret tt (add_trace (Sys_kill (- os_fork os) SIGTSTP)
                (add_trace (Sys_getpid (os_getpid os)) s')).
Proof.
  intros Hparse Hb Hargv Hreg Hret Hst.
  destruct (eval_fg_registered os line tok s l1 f l2 Hparse Hb Hargv Hreg)
    as [s2 [Hev [Hj [_ [Hf2 Ht2]]]]].
  rewrite Hev. clear Hev.
  destruct (eval_wait_ended os l1 _ l2 s2 Hj Hret Hst)
    as [s' [Hev [_ [Hf' [Ht' Hjl']]]]].
  exists s'. split; [exact Hev|].
  destruct Hreg as [Hp [Hjl [_ [_ [Hpids _]]]]].
  split; [|split].
  - rewrite Hjl'. rewrite Hjl, pids_app in Hpids. rewrite pids_app. simpl in *.
    intros H. apply in_app_or in H. apply Hpids. apply in_or_app.
    destruct H as [H|[H|H]]; [now left | lia | right; now right].
  - unfold sigint_handler, getpid, Kill, bind, syscall, modify, gets, ret.
    simpl. rewrite Ht', Ht2, Hf', Hf2, Z.eqb_refl. reflexivity.
  - unfold sigtstp_handler, getpid, Kill, bind, syscall, modify, gets, ret.
    simpl. rewrite Ht', Ht2, Hf', Hf2, Z.eqb_refl. reflexivity.
Qed.

Lemma interrupt_after_foreground_job_witness :
  exists s',
    eval (parent_os 100 (mkwait 100 (W_EXITED 0) 0)) "ls" (init_shell 0)
    = Ret tt s' /\
    ~ In 100 (pids (job_list s')) /\
    sigint_handler 10 s'
    = Ret tt (add_trace (Sys_kill (-100) SIGINT) (add_trace (Sys_getpid 10) s')).
Proof.
  destruct (interrupt_after_foreground_job
              (parent_os 100 (mkwait 100 (W_EXITED 0) 0)) "ls"
              (mktok ["ls"] None None BUILTIN_NONE) (init_shell 0)
              [] blank (repeat blank 15))
    as [s' [H1 [H2 [H3 _]]]].
  - reflexivity.
  - reflexivity.
  - discriminate.
  - repeat split; simpl; try lia; try constructor; vm_compute; intuition discriminate.
  - reflexivity.
  - reflexivity.
  - exists s'. split; [exact H1|]. split; [exact H2 | exact H3].
Defined.

(** * More on the SIGCHLD handler *)

Section Notices.

Lemma buf_of_jid_const jl p t :
  pid2jid jl p <> 0 -> buf_of_jid jl (pid2jid jl p) (fun _ => t) = t.
Proof.
  unfold pid2jid, buf_of_jid. destruct (p <? 1); [congruence|].
  destruct (find (fun j => pid j =? p) jl) as [j|] eqn:E; [|congruence].
  intros _. apply find_some in E. destruct E as [Hin _].
  destruct (find (fun x => jid x =? jid j) jl) as [y|] eqn:Ej; [reflexivity|].
  exfalso. apply (find_none _ _ Ej) in Hin. rewrite Z.eqb_refl in Hin.
  discriminate.
Qed.

Lemma print_sigint_job_out p sig s :
  pid2jid (job_list s) p <> 0 ->
  print_sigint_job p sig STDOUT_FILENO s
  = Ret tt (add_out STDOUT_FILENO (term_notice sig)
              (add_out STDOUT_FILENO (notice_head (pid2jid (job_list s) p) p) s)).
Proof.
  intros H. unfold print_sigint_job, bind, gets.
  rewrite (buf_of_jid_const (job_list s) p _ H).
  apply Z.eqb_neq in H. rewrite H.
  rewrite !checked_write_stdout. reflexivity.
Qed.

Lemma sigchld_loop_notices children last :
  forall s,
    NoDup (map fst children) ->
    (forall p sig, In (p, W_SIGNALED sig) children ->
                   pid2jid (job_list s) (Z.pos p) <> 0) ->
    exists s',
      sigchld_loop children last s = Ret tt s' /\
      job_list s' = reaped (job_list s) children /\
      out s' = out s ++ flat_map (reap_notice (job_list s)) children /\
      errno s' = match last with
                 | W_NONE_READY => errno s
                 | W_FAILED e => e
                 end /\
      sigmask s' = sigmask s.
Proof.
  induction children as [|[p status] children IH]; intros s Hnd Hreg.
  - destruct last; eexists; (split; [reflexivity|]); simpl;
      rewrite app_nil_r; repeat split.
  - inversion Hnd as [|? ? Hp Hnd']; subst. simpl in Hp.
    rewrite sigchld_loop_step.
    set (s1 := add_trace (reap_event (p, status)) s).
    assert (Hprint : exists s2,
               (if WIFSIGNALED status
                then print_sigint_job (Z.pos p) (WTERMSIG status) STDOUT_FILENO
                else ret tt) s1 = Ret tt s2 /\
               job_list s2 = job_list s /\
               out s2 = out s ++ reap_notice (job_list s) (p, status) /\
               errno s2 = errno s /\ sigmask s2 = sigmask s).
    { destruct status as [code|sig|sig]; simpl;
        try (exists s1; rewrite app_nil_r; repeat split; reflexivity).
      rewrite (print_sigint_job_out (Z.pos p) sig s1)
        by (apply (Hreg p sig); now left).
      eexists. split; [reflexivity|]. simpl. rewrite <- app_assoc.
      repeat split. }
    destruct Hprint as [s2 [Hpr [Hjl2 [Hout2 [Herr2 Hm2]]]]].
    rewrite (bind_ret _ _ _ _ _ Hpr).
    destruct (deletejob_returns (Z.pos p) s2)
      as [r [s3 [Hdel [Hjl3 [_ [Herr3 Hm3]]]]]]; [lia|].
    assert (Hout3 : out s3 = out s2).
    { revert Hdel. unfold deletejob, bind, gets, modify, ret.
      destruct (Z.pos p <? 1); [intros H; now inversion H|].
      destruct (deletejob_scan (job_list s2) (Z.pos p));
        intros H; now inversion H. }
    rewrite (bind_ret _ _ _ _ _ Hdel).
    assert (Hother : forall q, In q (map fst children) ->
               pid2jid (job_list s3) (Z.pos q) = pid2jid (job_list s) (Z.pos q)).
    { intros q Hq. rewrite Hjl3, Hjl2. apply pid2jid_clear_other.
      intros E. inversion E; subst. contradiction. }
    destruct (IH s3 Hnd') as [s' [Hloop [Hjl' [Hout' [Herr' Hm']]]]].
    { intros q sig Hin. rewrite Hother.
      - apply (Hreg q sig). now right.
      - apply (in_map fst) in Hin. exact Hin. }
    exists s'. split; [exact Hloop|]. split; [|split; [|split]].
    + rewrite Hjl', Hjl3, Hjl2. reflexivity.
    + rewrite Hout', Hout3, Hout2. cbn [flat_map]. rewrite <- app_assoc.
      f_equal. f_equal.
      clear - Hother. induction children as [|[q st] children IH]; [reflexivity|].
      cbn [flat_map]. f_equal.
      * unfold reap_notice. cbn [fst snd]. destruct st; try reflexivity.
        rewrite Hother by (now left). reflexivity.
      * apply IH. intros q' Hq'. apply Hother. now right.
    + rewrite Herr', Herr3, Herr2. reflexivity.
    + rewrite Hm', Hm3, Hm2. reflexivity.
Qed.

End Notices.

(** X17.  What the SIGCHLD handler prints.  When the children reported are
    distinct and those killed by a signal are in the job table, a run of
    the handler that ends with ECHILD prints, in the order in which the
    children are reported, the termination notice of every child that was
    killed by a signal, with its job id, its pid and the signal, and
    nothing for a child that exited; it removes every reported child from
    the table and leaves the signal mask as it was. *)
Theorem sigchld_handler_notices
  (children : list (positive * wstatus)) (s : shell) :
  NoDup (map fst children) ->
  (forall p sig, In (p, W_SIGNALED sig) children ->
                 pid2jid (job_list s) (Z.pos p) <> 0) ->
  exists s',
    sigchld_handler children (W_FAILED ECHILD) s = Ret tt s' /\
    job_list s' = reaped (job_list s) children /\
    out s' = out s ++ flat_map (reap_notice (job_list s)) children /\
    sigmask s' = sigmask s.
Proof.
  intros Hnd Hreg.
  destruct (sigchld_loop_notices children (W_FAILED ECHILD) s Hnd Hreg)
    as [s' [Hloop [Hjl [Hout [Herr Hm]]]]].
  exists s'. split; [|repeat split; assumption].
  unfold sigchld_handler. rewrite (bind_ret _ _ _ _ _ Hloop).
  unfold bind, gets. rewrite Herr. reflexivity.
Qed.

Lemma sigchld_handler_notices_witness :
  exists s',
    sigchld_handler [(101%positive, W_SIGNALED SIGINT); (102%positive, W_EXITED 0)]
                    (W_FAILED ECHILD)
                    (final_state (run [bg_launch 101; bg_launch 102] (init_shell 0)))
    = Ret tt s' /\
    skipn 4 (out s')
    = [(STDOUT_FILENO, notice_head 1 101); (STDOUT_FILENO, term_notice SIGINT)].
Proof.
  destruct (sigchld_handler_notices
              [(101%positive, W_SIGNALED SIGINT); (102%positive, W_EXITED 0)]
              (final_state (run [bg_launch 101; bg_launch 102] (init_shell 0))))
    as [s' [Hh [_ [Hout _]]]].
  - repeat constructor; simpl; intuition discriminate.
  - intros p sig [H|[H|[]]]; inversion H; subst. vm_compute. discriminate.
  - exists s'. split; [exact Hh|]. rewrite Hout. reflexivity.
Defined.

(** X18.  The handler when children are left running.  When the reaping
    ends because [waitpid] returns 0 (there are children, none has changed
    state), [errno] is the one an earlier call left behind.  If that is
    ECHILD the handler returns; if it is anything else, the handler, after
    it has reaped and deleted the reported children, prints "waitpid
    error" with the text of that stale [errno] and ends the shell with
    status 1. *)
Theorem sigchld_handler_children_left
  (children : list (positive * wstatus)) (s : shell) :
  NoDup (map fst children) ->
  (forall p sig, In (p, W_SIGNALED sig) children ->
                 pid2jid (job_list s) (Z.pos p) <> 0) ->
  (errno s = ECHILD ->
   exists s',
     sigchld_handler children W_NONE_READY s = Ret tt s' /\
     job_list s' = reaped (job_list s) children) /\
  (errno s <> ECHILD ->
   exists s',
     sigchld_handler children W_NONE_READY s = Halt (Exit 1) s' /\
     job_list s' = reaped (job_list s) children /\
     out s' = out s ++ flat_map (reap_notice (job_list s)) children
              ++ [(STDOUT_FILENO,
                   ("waitpid error: " ++ strerror (errno s) ++ nl)%string)]).
Proof.
  intros Hnd Hreg.
  destruct (sigchld_loop_notices children W_NONE_READY s Hnd Hreg)
    as [s' [Hloop [Hjl [Hout [Herr Hm]]]]].
  unfold sigchld_handler. rewrite (bind_ret _ _ _ _ _ Hloop).
  unfold unix_error, bind, gets, printf, modify, exit. cbv beta. rewrite Herr.
  split; intros He.
  - rewrite He. exists s'. split; [reflexivity | exact Hjl].
  - apply Z.eqb_neq in He. rewrite He. cbn [negb].
    eexists. split; [reflexivity|]. simpl. rewrite Hout, Herr, <- app_assoc.
    split; [exact Hjl | reflexivity].
Qed.

Lemma sigchld_handler_children_left_witness :
  exists s',
    sigchld_handler [(101%positive, W_EXITED 0)] W_NONE_READY
                    (final_state (run [bg_launch 101; bg_launch 102] (init_shell 0)))
    = Halt (Exit 1) s' /\
    getjobpid (job_list s') 101 = None /\
    skipn 4 (out s')
    = [(STDOUT_FILENO, ("waitpid error: Success" ++ nl)%string)].
Proof.
  destruct (sigchld_handler_children_left
              [(101%positive, W_EXITED 0)]
              (final_state (run [bg_launch 101; bg_launch 102] (init_shell 0))))
    as [_ H].
  - repeat constructor; simpl; intuition discriminate.
  - intros p sig [H|[]]; inversion H.
  - destruct H as [s' [Hh [Hjl Hout]]]; [vm_compute; discriminate|].
    exists s'. split; [exact Hh|]. rewrite Hjl, Hout. split; reflexivity.
Defined.

(** * More on parseline *)

Section Tokens.

(** The loop never stores more than [MAXARGS - 1] arguments. *)
Lemma parse_loop_argc fuel :
  forall buf ps tok r,
    argc tok < MAXARGS - 1 ->
    parse_loop fuel buf ps tok = inr r ->
    argc (snd r) <= MAXARGS - 1.
Proof.
  induction fuel as [|fuel IH]; intros buf ps tok r Hlt H; [discriminate|].
  cbn [parse_loop] in H.
  destruct (skip_delims buf) as [|c rest].
  { inversion H; subst. cbn [snd]. lia. }
  destruct (Ascii.eqb c "<").
  { destruct (infile tok); [discriminate|]. now apply (IH _ _ _ _ Hlt H). }
  destruct (Ascii.eqb c ">").
  { destruct (outfile tok); [discriminate|]. now apply (IH _ _ _ _ Hlt H). }
  destruct (if is_quote c then until_quote c rest
            else Some (until_delim (String c rest))) as [[t next]|];
    [|discriminate].
  destruct (record_token ps t tok) as [tok'|] eqn:Erec; [|discriminate].
  assert (Hle : argc tok' <= argc tok + 1).
  { unfold record_token in Erec. unfold argc.
    destruct (ps =? ST_NORMAL);
      [|destruct (ps =? ST_INFILE); [|destruct (ps =? ST_OUTFILE)]];
      inversion Erec; subst; simpl; rewrite ?length_app; simpl; lia. }
  destruct (argc tok' >=? MAXARGS - 1) eqn:E.
  - inversion H; subst. cbn [snd]. lia.
  - rewrite Z.geb_leb in E. apply Z.leb_gt in E. now apply (IH _ _ _ _ E H).
Qed.

Lemma removelast_length {A} (l : list A) :
  (List.length (removelast l) <= List.length l)%nat.
Proof.
  induction l as [|a l IH]; simpl; [lia|]. destruct l; simpl in *; lia.
Qed.

End Tokens.

(** X19.  The argument vector stays within its array.  Whatever the line,
    when [parseline] accepts it the number of arguments is at most
    [MAXARGS - 1], so that the NULL that ends [argv] has its place among the
    [MAXARGS] entries; and the value returned is 0 or 1. *)
Theorem parseline_argc_bound (line : string) (bg : Z) (tok : cmdline_tokens) :
  parseline line = inr (bg, tok) ->
  argc tok <= MAXARGS - 1 /\ (bg = 0 \/ bg = 1).
Proof.
  unfold parseline, scan_line. intros H.
  destruct (parse_loop (S (String.length line)) line ST_NORMAL
                       (mktok [] None None BUILTIN_NONE))
    as [msg|[ps tok0]] eqn:E; [discriminate|].
  apply parse_loop_argc in E; [|unfold argc, MAXARGS; simpl; lia].
  cbn [snd] in E. destruct (negb (ps =? ST_NORMAL)); [discriminate|].
  destruct (argv tok0) as [|a0 args] eqn:Ea.
  - inversion H; subst. split; [|now right]. unfold argc in *. now rewrite Ea.
  - destruct (starts_with "&" (last (a0 :: args) EmptyString));
      injection H as Hbg Htok; subst bg tok; (split; [|tauto]).
    + unfold argc in *. cbn [argv]. rewrite Ea in E.
      eapply Z.le_trans; [|exact E]. apply Nat2Z.inj_le.
      exact (removelast_length (a0 :: args)).
    + unfold argc in *. cbn [argv]. now rewrite Ea in E.
Qed.

Lemma parseline_argc_bound_witness :
  argc (mktok ["sleep"; "5"] None None BUILTIN_NONE) <= MAXARGS - 1 /\
  (1 = 0 \/ 1 = 1).
Proof.
  apply (parseline_argc_bound "sleep 5 &" 1
           (mktok ["sleep"; "5"] None None BUILTIN_NONE)).
  reflexivity.
Defined.

Section Steps.

Lemma parse_loop_end fuel ps tok :
  (0 < fuel)%nat -> parse_loop fuel EmptyString ps tok = inr (ps, tok).
Proof. destruct fuel; [lia | reflexivity]. Qed.

Lemma skip_delims_all line : all_delims line = true -> skip_delims line = EmptyString.
Proof.
  induction line as [|c line IH]; simpl; [reflexivity|].
  intros H. apply andb_true_iff in H. destruct H as [Hc Hl].
  rewrite Hc. now apply IH.
Qed.

(** A blank before the next token is skipped. *)
Lemma parse_loop_blank fuel buf ps tok :
  parse_loop fuel (String " " buf) ps tok = parse_loop fuel buf ps tok.
Proof. destruct fuel; reflexivity. Qed.

(** One token: a plain word [w] followed by [r], in any parsing state,
    with fuel above the length of the text. *)
Lemma parse_loop_token fuel w r ps tok :
  plain_word w = true -> word_end r ->
  (String.length (w ++ r)%string < fuel)%nat ->
  parse_loop fuel (w ++ r) ps tok
  = match record_token ps w tok with
    | None => inl ambiguous_redirection
    | Some tok' =>
        if argc tok' >=? MAXARGS - 1 then inr (ST_NORMAL, tok')
        else parse_loop fuel (after_next r) ST_NORMAL tok'
    end.
Proof.
  intros Hw Hr Hlen. destruct fuel as [|fuel]; [lia|].
  assert (Hnext : (String.length (after_next r) < fuel)%nat).
  { rewrite length_append in Hlen. rewrite after_next_length.
    destruct w; [discriminate|]. simpl in Hlen. lia. }
  destruct w as [|c w]; [discriminate|].
  unfold plain_word in Hw.
  repeat (apply andb_true_iff in Hw; destruct Hw as [Hw ?]).
  assert (Hnd : no_delim (String c w) = true) by assumption.
  simpl in Hnd. apply andb_true_iff in Hnd. destruct Hnd as [Hc _].
  apply negb_true_iff in Hw, Hc.
  match goal with H : negb (Ascii.eqb c ">") = true |- _ =>
    apply negb_true_iff in H; rename H into Hgt end.
  match goal with H : negb (is_quote c) = true |- _ =>
    apply negb_true_iff in H; rename H into Hq end.
  cbn [parse_loop]. simpl append. cbn [skip_delims]. rewrite Hc, Hw, Hgt, Hq.
  change (String c (w ++ r)%string) with (String c w ++ r)%string.
  rewrite until_delim_word by assumption.
  destruct (record_token ps (String c w) tok) as [tok'|]; [|reflexivity].
  destruct (argc tok' >=? _); [reflexivity|].
  exact (parse_loop_fuel fuel (S fuel) (after_next r) ST_NORMAL tok'
           ltac:(lia) ltac:(lia)).
Qed.

Lemma parse_loop_infile fuel r ps tok :
  (String.length (String "<" r) < fuel)%nat ->
  parse_loop fuel (String "<" r) ps tok
  = match infile tok with
    | Some _ => inl ambiguous_redirection
    | None => parse_loop fuel r (Z.lor ps ST_INFILE) tok
    end.
Proof.
  intros Hlen. destruct fuel as [|fuel]; [lia|]. simpl in Hlen.
  change (parse_loop (S fuel) (String "<" r) ps tok)
    with (match infile tok with
          | Some _ => inl ambiguous_redirection
          | None => parse_loop fuel r (Z.lor ps ST_INFILE) tok
          end).
  destruct (infile tok); [reflexivity|].
  apply parse_loop_fuel; lia.
Qed.

Lemma parse_loop_outfile fuel r ps tok :
  (String.length (String ">" r) < fuel)%nat ->
  parse_loop fuel (String ">" r) ps tok
  = match outfile tok with
    | Some _ => inl ambiguous_redirection
    | None => parse_loop fuel r (Z.lor ps ST_OUTFILE) tok
    end.
Proof.
  intros Hlen. destruct fuel as [|fuel]; [lia|]. simpl in Hlen.
  change (parse_loop (S fuel) (String ">" r) ps tok)
    with (match outfile tok with
          | Some _ => inl ambiguous_redirection
          | None => parse_loop fuel r (Z.lor ps ST_OUTFILE) tok
          end).
  destruct (outfile tok); [reflexivity|].
  apply parse_loop_fuel; lia.
Qed.

Lemma line_of_length ws rest :
  (String.length rest <= String.length (line_of ws rest))%nat.
Proof.
  induction ws as [|w ws IH]; simpl; [lia|].
  rewrite length_append. simpl. lia.
Qed.

(** The argument words at the start of a line. *)
Lemma parse_loop_line_of ws :
  forall fuel tok rest,
    Forall (fun w => plain_word w = true) ws ->
    (String.length (line_of ws rest) < fuel)%nat ->
    Z.of_nat (List.length (argv tok) + List.length ws) < MAXARGS - 1 ->
    parse_loop fuel (line_of ws rest) ST_NORMAL tok
    = parse_loop fuel rest ST_NORMAL
        (mktok (argv tok ++ ws) (infile tok) (outfile tok) (builtins tok)).
Proof.
  induction ws as [|w ws IH]; intros fuel tok rest Hws Hlen Hargs.
  - destruct tok. simpl. now rewrite app_nil_r.
  - inversion Hws as [|? ? Hw Hws']; subst.
    cbn [line_of] in Hlen |- *.
    rewrite parse_loop_token;
      [|exact Hw | right; eexists; reflexivity | exact Hlen].
    unfold record_token. change (ST_NORMAL =? ST_NORMAL) with true.
    cbv iota beta.
    set (tok' := mktok (argv tok ++ [w]) (infile tok) (outfile tok)
                       (builtins tok)).
    assert (Hlt : (argc tok' >=? MAXARGS - 1) = false).
    { unfold argc, tok'. simpl argv. rewrite length_app.
      simpl List.length in Hargs |- *.
      rewrite Z.geb_leb. apply Z.leb_gt. lia. }
    rewrite Hlt. cbn [after_next].
    rewrite IH.
    + unfold tok'. simpl. rewrite <- app_assoc. reflexivity.
    + exact Hws'.
    + rewrite length_append in Hlen. simpl in Hlen. lia.
    + unfold tok'. simpl argv. rewrite length_app.
      simpl List.length in Hargs |- *. lia.
Qed.

Lemma is_quote_cases q :
  is_quote q = true -> q = "'"%char \/ q = ascii_of_nat 34.
Proof.
  unfold is_quote. intros H. apply orb_true_iff in H. destruct H as [H|H].
  - left. now apply Ascii.eqb_eq.
  - right. apply Nat.eqb_eq in H. rewrite <- H. symmetry.
    apply ascii_nat_embedding.
Qed.

Lemma until_quote_found q body rest :
  lacks q body = true ->
  until_quote q (body ++ String q rest) = Some (body, String q rest).
Proof.
  induction body as [|c body IH]; simpl; intros H.
  - now rewrite Ascii.eqb_refl.
  - apply andb_true_iff in H. destruct H as [Hc Hb].
    apply negb_true_iff in Hc. rewrite Hc, (IH Hb). reflexivity.
Qed.

Lemma until_quote_missing q body :
  lacks q body = true -> until_quote q body = None.
Proof.
  induction body as [|c body IH]; simpl; intros H; [reflexivity|].
  apply andb_true_iff in H. destruct H as [Hc Hb].
  apply negb_true_iff in Hc. rewrite Hc, (IH Hb). reflexivity.
Qed.

(** One quoted token: everything up to the closing quote, blanks
    included, is one token. *)
Lemma parse_loop_quoted fuel q body rest ps tok :
  is_quote q = true -> lacks q body = true ->
  (String.length (String q (body ++ String q rest)) < fuel)%nat ->
  parse_loop fuel (String q (body ++ String q rest)) ps tok
  = match record_token ps body tok with
    | None => inl ambiguous_redirection
    | Some tok' =>
        if argc tok' >=? MAXARGS - 1 then inr (ST_NORMAL, tok')
        else parse_loop fuel rest ST_NORMAL tok'
    end.
Proof.
  intros Hq Hb Hlen. destruct fuel as [|fuel]; [lia|].
  simpl in Hlen. rewrite length_append in Hlen. simpl in Hlen.
  assert (E : parse_loop (S fuel) (String q (body ++ String q rest)) ps tok
              = match until_quote q (body ++ String q rest) with
                | None => inl (unmatched q)
                | Some (t, next) =>
                    match record_token ps t tok with
                    | None => inl ambiguous_redirection
                    | Some tok' =>
                        if argc tok' >=? MAXARGS - 1 then inr (ST_NORMAL, tok')
                        else parse_loop fuel (after_next next) ST_NORMAL tok'
                    end
                end).
  { destruct (is_quote_cases q Hq) as [-> | ->]; reflexivity. }
  rewrite E, until_quote_found by exact Hb. cbn [after_next].
  destruct (record_token ps body tok) as [tok'|]; [|reflexivity].
  destruct (argc tok' >=? _); [reflexivity|].
  apply parse_loop_fuel; lia.
Qed.

Lemma parse_loop_unmatched fuel q body ps tok :
  is_quote q = true -> lacks q body = true -> (0 < fuel)%nat ->
  parse_loop fuel (String q body) ps tok = inl (unmatched q).
Proof.
  intros Hq Hb Hlen. destruct fuel as [|fuel]; [lia|].
  assert (E : parse_loop (S fuel) (String q body) ps tok
              = match until_quote q body with
                | None => inl (unmatched q)
                | Some (t, next) =>
                    match record_token ps t tok with
                    | None => inl ambiguous_redirection
                    | Some tok' =>
                        if argc tok' >=? MAXARGS - 1 then inr (ST_NORMAL, tok')
                        else parse_loop fuel (after_next next) ST_NORMAL tok'
                    end
                end).
  { destruct (is_quote_cases q Hq) as [-> | ->]; reflexivity. }
  rewrite E, until_quote_missing by exact Hb. reflexivity.
Qed.

(** The last step of [parseline] on the tokens found. *)
Lemma parseline_parsed line ws fin fout b :
  ws <> [] ->
  scan_line line = inr (ST_NORMAL, mktok ws fin fout b) ->
  parseline line = parsed ws fin fout.
Proof.
  intros Hne H. unfold parseline, parsed. rewrite H.
  destruct ws as [|w ws']; [contradiction|]. reflexivity.
Qed.

End Steps.

(** X20.  A line of blanks only is accepted with an empty argument vector,
    and [eval] returns on it at once: nothing is launched, nothing is
    printed, the job table is untouched. *)
Theorem blank_line_ignored (os : os_t) (line : string) (s : shell) :
  all_delims line = true ->
  parseline line = inr (1, mktok [] None None BUILTIN_NONE) /\
  eval os line s = Ret tt (entered os s).
Proof.
  intros H.
  assert (E : parseline line = inr (1, mktok [] None None BUILTIN_NONE)).
  { unfold parseline, scan_line. cbn [parse_loop].
    rewrite (skip_delims_all line H). reflexivity. }
  split; [exact E|]. unfold eval. rewrite E. reflexivity.
Qed.

Lemma blank_line_ignored_witness :
  eval (parent_os 0 no_wait) "   " (init_shell 0)
  = Ret tt (entered (parent_os 0 no_wait) (init_shell 0)).
Proof.
  apply (blank_line_ignored (parent_os 0 no_wait) "   " (init_shell 0)).
  reflexivity.
Defined.

(** X21.  Redirections.  On a line of plain argument words followed by
    "< fin > fout", the arguments are the words and the two targets are
    [fin] and [fout]; the background flag is decided by the last argument
    word. *)
Theorem redirection_targets (ws : list string) (fin fout : string) :
  ws <> [] ->
  Forall (fun w => plain_word w = true) ws ->
  plain_word fin = true -> plain_word fout = true ->
  Z.of_nat (List.length ws) < MAXARGS - 1 ->
  parseline (line_of ws ("< " ++ fin ++ " > " ++ fout)%string)
  = parsed ws (Some fin) (Some fout).
Proof.
  intros Hne Hws Hfin Hfout Hlen.
  apply (parseline_parsed _ ws (Some fin) (Some fout) BUILTIN_NONE Hne).
  unfold scan_line.
  set (rest := ("< " ++ fin ++ " > " ++ fout)%string).
  set (fuel := S (String.length (line_of ws rest))).
  pose proof (line_of_length ws rest) as Hrest.
  assert (Hr : String.length rest
               = (5 + String.length fin + String.length fout)%nat).
  { unfold rest. simpl. rewrite length_append. simpl. lia. }
  rewrite parse_loop_line_of by (assumption || (unfold fuel; lia)).
  assert (Hfuel : (5 + String.length fin + String.length fout < fuel)%nat)
    by (unfold fuel; lia).
  clearbody fuel. clear Hrest Hr.
  cbn [argv infile outfile builtins app].
  assert (Hlt : forall a b,
             (argc (mktok ws a b BUILTIN_NONE) >=? MAXARGS - 1) = false).
  { intros a b. unfold argc. cbn [argv]. rewrite Z.geb_leb.
    apply Z.leb_gt. exact Hlen. }
  unfold rest. cbn [append].
  rewrite parse_loop_infile
    by (simpl; rewrite length_append; simpl; lia).
  cbn [infile]. rewrite parse_loop_blank.
  rewrite parse_loop_token;
    [|exact Hfin | right; eexists; reflexivity
     | rewrite length_append; simpl; lia].
  change (record_token (Z.lor ST_NORMAL ST_INFILE) fin
                       (mktok ws None None BUILTIN_NONE))
    with (Some (mktok ws (Some fin) None BUILTIN_NONE)).
  cbv iota. rewrite Hlt. cbn [after_next].
  rewrite parse_loop_outfile by (simpl; lia).
  cbn [outfile]. rewrite parse_loop_blank.
  pose proof (parse_loop_token fuel fout EmptyString
                (Z.lor ST_NORMAL ST_OUTFILE)
                (mktok ws (Some fin) None BUILTIN_NONE) Hfout
                (or_introl eq_refl)) as Ht.
  rewrite append_nil_r in Ht. rewrite Ht by lia. clear Ht.
  change (record_token (Z.lor ST_NORMAL ST_OUTFILE) fout
                       (mktok ws (Some fin) None BUILTIN_NONE))
    with (Some (mktok ws (Some fin) (Some fout) BUILTIN_NONE)).
  cbv iota. rewrite Hlt. cbn [after_next].
  apply parse_loop_end. lia.
Qed.

Lemma redirection_targets_witness :
  parseline "sort -r < in > out"
  = inr (0, mktok ["sort"; "-r"] (Some "in") (Some "out") BUILTIN_NONE).
Proof.
  apply (redirection_targets ["sort"; "-r"] "in" "out").
  - discriminate.
  - repeat constructor.
  - reflexivity.
  - reflexivity.
  - reflexivity.
Defined.

(** X22.  Malformed redirections are refused.  A line that ends with a
    redirection sign gives "must provide file name for redirection", and a
    second input redirection gives "Ambiguous I/O redirection"; on both,
    [eval] prints the message to stderr and returns without touching the
    job table. *)
Theorem redirection_errors (os : os_t) (ws : list string) (f1 f2 : string)
  (s : shell) :
  Forall (fun w => plain_word w = true) ws ->
  plain_word f1 = true ->
  Z.of_nat (List.length ws) < MAXARGS - 1 ->
  (parseline (line_of ws "<") = inl missing_file_name /\
   eval os (line_of ws "<") s
   = Ret tt (add_out STDERR_FILENO missing_file_name (entered os s))) /\
  (parseline (line_of ws ("< " ++ f1 ++ " < " ++ f2)%string)
   = inl ambiguous_redirection /\
   eval os (line_of ws ("< " ++ f1 ++ " < " ++ f2)%string) s
   = Ret tt (add_out STDERR_FILENO ambiguous_redirection (entered os s))).
Proof.
  intros Hws Hf1 Hlen.
  assert (Hlt : forall a b,
             (argc (mktok ws a b BUILTIN_NONE) >=? MAXARGS - 1) = false).
  { intros a b. unfold argc. cbn [argv]. rewrite Z.geb_leb.
    apply Z.leb_gt. exact Hlen. }
  assert (E1 : parseline (line_of ws "<") = inl missing_file_name).
  { unfold parseline, scan_line.
    pose proof (line_of_length ws "<") as Hrest. simpl in Hrest.
    rewrite parse_loop_line_of by (assumption || lia).
    cbn [argv infile outfile builtins app].
    rewrite parse_loop_infile by (simpl; lia).
    cbn [infile]. rewrite parse_loop_end by lia. reflexivity. }
  assert (E2 : parseline (line_of ws ("< " ++ f1 ++ " < " ++ f2)%string)
               = inl ambiguous_redirection).
  { unfold parseline, scan_line.
    set (rest := ("< " ++ f1 ++ " < " ++ f2)%string).
    pose proof (line_of_length ws rest) as Hrest.
    assert (Hr : String.length rest
                 = (5 + String.length f1 + String.length f2)%nat).
    { unfold rest. simpl. rewrite length_append. simpl. lia. }
    set (fuel := S (String.length (line_of ws rest))).
    rewrite parse_loop_line_of by (assumption || (unfold fuel; lia)).
    assert (Hfuel : (5 + String.length f1 + String.length f2 < fuel)%nat)
      by (unfold fuel; lia).
    clearbody fuel. clear Hrest Hr.
    cbn [argv infile outfile builtins app].
    unfold rest. cbn [append].
    rewrite parse_loop_infile
      by (simpl; rewrite length_append; simpl; lia).
    cbn [infile]. rewrite parse_loop_blank.
    rewrite parse_loop_token;
      [|exact Hf1 | right; eexists; reflexivity
       | rewrite length_append; simpl; lia].
    change (record_token (Z.lor ST_NORMAL ST_INFILE) f1
                         (mktok ws None None BUILTIN_NONE))
      with (Some (mktok ws (Some f1) None BUILTIN_NONE)).
    cbv iota. rewrite Hlt. cbn [after_next].
    rewrite parse_loop_infile by (simpl; lia).
    reflexivity. }
  split; (split; [assumption|]); unfold eval.
  - rewrite E1. reflexivity.
  - rewrite E2. reflexivity.
Qed.

Lemma redirection_errors_witness :
  parseline "cat <" = inl missing_file_name /\
  parseline "cat < a < b" = inl ambiguous_redirection.
Proof.
  destruct (redirection_errors (parent_os 0 no_wait) ["cat"] "a" "b"
              (init_shell 0)) as [[H1 _] [H2 _]].
  - repeat constructor.
  - reflexivity.
  - reflexivity.
  - split; [exact H1 | exact H2].
Defined.

(** X23.  Quoted arguments.  After plain argument words, the text between
    two quote characters of the same kind is one argument, blanks and
    redirection signs included; when the closing quote is missing the line
    is refused with "unmatched" and the quote character, and [eval] prints
    that to stderr and returns. *)
Theorem quoted_argument (os : os_t) (ws : list string) (q : ascii)
  (body : string) (s : shell) :
  Forall (fun w => plain_word w = true) ws ->
  is_quote q = true -> lacks q body = true ->
  Z.of_nat (List.length ws) + 1 < MAXARGS - 1 ->
  parseline (line_of ws (String q (body ++ String q EmptyString)))
  = parsed (ws ++ [body]) None None /\
  parseline (line_of ws (String q body)) = inl (unmatched q) /\
  eval os (line_of ws (String q body)) s
  = Ret tt (add_out STDERR_FILENO (unmatched q) (entered os s)).
Proof.
  intros Hws Hq Hb Hlen.
  assert (E : parseline (line_of ws (String q body)) = inl (unmatched q)).
  { unfold parseline, scan_line.
    rewrite parse_loop_line_of
      by (assumption || (cbn [argv List.length Nat.add]; lia)).
    rewrite parse_loop_unmatched by (assumption || lia). reflexivity. }
  split; [|split; [exact E|]].
  - apply (parseline_parsed _ _ None None BUILTIN_NONE).
    { destruct ws; discriminate. }
    unfold scan_line.
    pose proof (line_of_length ws (String q (body ++ String q EmptyString)))
      as Hrest.
    rewrite parse_loop_line_of
      by (assumption || (cbn [argv List.length Nat.add]; lia)).
    cbn [argv infile outfile builtins app].
    rewrite parse_loop_quoted by (assumption || lia).
    unfold record_token. change (ST_NORMAL =? ST_NORMAL) with true.
    cbv iota beta. cbn [argv infile outfile builtins].
    assert (Hlt : (argc (mktok (ws ++ [body]) None None BUILTIN_NONE)
                   >=? MAXARGS - 1) = false).
    { unfold argc. cbn [argv]. rewrite length_app. simpl List.length.
      rewrite Z.geb_leb. apply Z.leb_gt. lia. }
    rewrite Hlt. apply parse_loop_end. lia.
  - unfold eval. rewrite E. reflexivity.
Qed.

Lemma quoted_argument_witness :
  parseline "echo 'a  b > c'"
  = inr (0, mktok ["echo"; "a  b > c"] None None BUILTIN_NONE) /\
  parseline "echo 'a b" = inl (unmatched "'").
Proof.
  destruct (quoted_argument (parent_os 0 no_wait) ["echo"] "'" "a  b > c"
              (init_shell 0)) as [H1 _]; try reflexivity.
  { repeat constructor. }
  destruct (quoted_argument (parent_os 0 no_wait) ["echo"] "'" "a b"
              (init_shell 0)) as [_ [H2 _]]; try reflexivity.
  { repeat constructor. }
  split; [exact H1 | exact H2].
Defined.
